(** * RoboCup single-robot environment: capture machine, ball friction and
      the "collect" task.

    Shallow embedding of [robocup.py] (the Box2D world, the contact listener,
    friction, [step], [shoot], [seed] and [reset]) and of
    [robocup_env/envs/collect.py] ([task_reset], [task_logic]) with the
    constants of [robocup_env/envs/base/constants.py].

    Numbers.  Python and Box2D floats are read as real numbers: every
    arithmetic operation is the exact one of [R].  Python integers that only
    count (the time step) are [nat]; the other integers are [Z].

    Errors.  Operations that can fail at run time (indexing past the end of a
    sequence, dividing by zero, handing the engine a joint it does not hold)
    return in the [Result] monad below, so that "the call returns" is a
    statement of its own. *)

From Stdlib Require Import Reals Lra Lia List ZArith Bool.
Import ListNotations.
Open Scope R_scope.

(** ** Run-time errors and the error monad *)

Inductive PyError : Type :=
| IndexError
| ZeroDivisionError
| EngineError.

Inductive Result (A : Type) : Type :=
| Ok (a : A)
| Raise (e : PyError).
Arguments Ok {A} a.
Arguments Raise {A} e.

Definition bind {A B : Type} (m : Result A) (k : A -> Result B) : Result B :=
  match m with
  | Ok a => k a
  | Raise e => Raise e
  end.

Notation "x <- m ;; k" := (bind m (fun x => k))
  (at level 61, m at next level, right associativity).
Notation "' p <- m ;; k" := (bind m (fun p => k))
  (at level 61, p pattern, m at next level, right associativity).

(** ** Comparisons of reals as booleans *)

Definition Rltb (x y : R) : bool := if Rlt_dec x y then true else false.
Definition Rleb (x y : R) : bool := if Rle_dec x y then true else false.
Definition Rgtb (x y : R) : bool := Rltb y x.
Definition Rgeb (x y : R) : bool := Rleb y x.
Definition Reqb (x y : R) : bool := if Req_dec_T x y then true else false.

(** ** Sequences indexed from zero *)

(** [s[i]]: raises [IndexError] past the end. *)
Definition getitem {A : Type} (s : list A) (i : nat) : Result A :=
  match nth_error s i with
  | Some v => Ok v
  | None => Raise IndexError
  end.

Fixpoint update {A : Type} (s : list A) (i : nat) (v : A) : list A :=
  match s, i with
  | [], _ => []
  | _ :: t, O => v :: t
  | h :: t, S j => h :: update t j v
  end.

(** [s[i] = v]: raises [IndexError] past the end. *)
Definition setitem {A : Type} (s : list A) (i : nat) (v : A) : Result (list A) :=
  if (i <? length s)%nat then Ok (update s i v) else Raise IndexError.

(** ** Vectors of the plane ([b2Vec2]) *)

Record Vec2 : Type := mkVec2 { vx : R; vy : R }.

Definition vzero : Vec2 := mkVec2 0 0.
Definition vadd (u v : Vec2) : Vec2 := mkVec2 (vx u + vx v) (vy u + vy v).
Definition vscale (a : R) (v : Vec2) : Vec2 := mkVec2 (a * vx v) (a * vy v).
Definition vnorm (v : Vec2) : R := sqrt (vx v ^ 2 + vy v ^ 2).

(** Division of a vector by a scalar.  The divisor is checked: a zero divisor
    is an error, so a computation that returns has divided by no zero. *)
Definition vdiv (v : Vec2) (a : R) : Result Vec2 :=
  if Reqb a 0 then Raise ZeroDivisionError else Ok (mkVec2 (vx v / a) (vy v / a)).

(** ** base/constants.py *)

Module Constants.
Definition FIELD_SCALE : R := 1 / 2.
Definition FIELD_MIN_X : R := -4.0 * FIELD_SCALE.
Definition FIELD_MAX_X : R := 4.0 * FIELD_SCALE.
Definition FIELD_MIN_Y : R := -2.5 * FIELD_SCALE.
Definition FIELD_MAX_Y : R := 2.5 * FIELD_SCALE.
End Constants.

(** ** The part of Box2D that the environment uses

    The rigid-body engine is not part of the repository.  What the
    environment reads and writes of it is modelled here: the kinematic state
    of a body, the forces handed to [ApplyForce] since the last [Step], and
    the joints of the world.  The integration itself ([b2World.Step]) stays a
    parameter of [RoboCup.step]. *)

Module Box2D.

(** The bodies that [_create] makes; [userData_id] is their
    [userData["id"]]. *)
Inductive BodyRef : Type :=
| BallBody | RobotBody | TopWall | BottomWall | LeftWall | RightWall.

Definition userData_id (b : BodyRef) : Z :=
  match b with
  | BallBody => 0
  | RobotBody => 1
  | TopWall | BottomWall | LeftWall | RightWall => -1
  end%Z.

(** A fixture's [userData]: [None], or the dictionary [{"kicker": True}]. *)
Inductive FixtureData : Type := Kicker.

Record Fixture : Type := mkFixture {
  body : BodyRef;
  userData : option FixtureData
}.

(** [b2Contact], as far as [BeginContact] reads it.  A world manifold has
    two points. *)
Record Contact : Type := mkContact {
  touching : bool;
  fixtureA : Fixture;
  fixtureB : Fixture;
  worldManifold_points : Vec2 * Vec2
}.

(** One call of [ApplyForce(force, point, wake)]. *)
Record AppliedForce : Type := mkApplied {
  force : Vec2;
  point : Vec2;
  wake : bool
}.

Record Body : Type := mkBody {
  position : Vec2;
  angle : R;
  linearVelocity : Vec2;
  angularVelocity : R;
  mass : R;
  localCenter : Vec2;
  applied : list AppliedForce
}.

Definition vrot (a : R) (v : Vec2) : Vec2 :=
  mkVec2 (cos a * vx v - sin a * vy v) (sin a * vx v + cos a * vy v).

Definition worldCenter (b : Body) : Vec2 :=
  vadd (position b) (vrot (angle b) (localCenter b)).

Definition ApplyForce (f p : Vec2) (w : bool) (b : Body) : Body :=
  mkBody (position b) (angle b) (linearVelocity b) (angularVelocity b)
         (mass b) (localCenter b) (mkApplied f p w :: applied b).

Record WeldJointDef : Type := mkWeldJointDef {
  bodyA : option BodyRef;
  bodyB : option BodyRef;
  anchor : option Vec2
}.

(** The world: the two dynamic bodies, and the joints under the handles the
    engine gave them.  The four walls are static and only ever show up as
    parties of a contact. *)
Record World : Type := mkWorld {
  ball : Body;
  robot : Body;
  joints : list (nat * WeldJointDef);
  next_joint : nat
}.

Definition CreateJoint (d : WeldJointDef) (w : World) : World * nat :=
  (mkWorld (ball w) (robot w) (joints w ++ [(next_joint w, d)]) (S (next_joint w)),
   next_joint w).

Definition has_joint (j : nat) (w : World) : bool :=
  existsb (fun jd => Nat.eqb (fst jd) j) (joints w).

(** Destroying a joint that the world does not hold (any more) is outside
    the engine's contract; the model reports it as an error. *)
Definition DestroyJoint (j : nat) (w : World) : Result World :=
  if has_joint j w then
    Ok (mkWorld (ball w) (robot w)
                (filter (fun jd => negb (Nat.eqb (fst jd) j)) (joints w))
                (next_joint w))
  else Raise EngineError.

Definition set_ball (b : Body) (w : World) : World :=
  mkWorld b (robot w) (joints w) (next_joint w).

End Box2D.

(** ** robocup.py *)

Module RoboCup.
Import Box2D.

(** The module's own field constants (not those of [base/constants.py]). *)
Definition FIELD_SCALE : R := 1 / 3.
Definition FIELD_MIN_X : R := -4.0 * FIELD_SCALE.
Definition FIELD_MAX_X : R := 4.0 * FIELD_SCALE.
Definition FIELD_MIN_Y : R := -2.5 * FIELD_SCALE.
Definition FIELD_MAX_Y : R := 2.5 * FIELD_SCALE.

(** The module-level variables [capture], [capture_ball_body],
    [capture_robot_body], [capture_anchor] and [joint]. *)
Record Globals : Type := mkGlobals {
  capture : bool;
  capture_ball_body : option BodyRef;
  capture_robot_body : option BodyRef;
  capture_anchor : option Vec2;
  joint : option nat
}.

Definition globals0 : Globals := mkGlobals false None None None None.

(** [CollisionDetector.BeginContact] *)
Definition BeginContact (contact : Contact) (g : Globals) : Globals :=
  if touching contact then
    let a_id := userData_id (body (fixtureA contact)) in
    let b_id := userData_id (body (fixtureB contact)) in
    let fixtures :=
      if ((a_id =? 0) && (b_id =? 1))%Z then
        Some (fixtureA contact, fixtureB contact)
      else if ((a_id =? 1) && (b_id =? 0))%Z then
        Some (fixtureB contact, fixtureA contact)
      else None in
    match fixtures with
    | None => g
    | Some (ball_fixture, robot_fixture) =>
        match userData robot_fixture with
        | Some _ =>
            mkGlobals true
                      (Some (body ball_fixture))
                      (Some (body robot_fixture))
                      (Some (fst (worldManifold_points contact)))
                      (joint g)
        | None => g
        end
    end
  else g.

(** The observation: [(robot_state, ball_state)], each a pair of arrays. *)
Definition RobotState : Type := (R * R * R) * (R * R * R).
Definition BallState : Type := (R * R) * (R * R).
Definition State : Type := RobotState * BallState.

(** The friction force of lines 255-262 of [_applyBallFriction]. *)
Definition ball_friction (b : Body) : Result Vec2 :=
  let ball_speed := sqrt (vx (linearVelocity b) ^ 2 + vy (linearVelocity b) ^ 2) in
  let FRICTION_LINEAR_REGION := 0.1 in
  friction_accel <- vdiv (vscale (-0.5) (linearVelocity b)) FRICTION_LINEAR_REGION ;;
  friction_accel <-
    (if Rgtb ball_speed FRICTION_LINEAR_REGION
     then vdiv (vscale FRICTION_LINEAR_REGION friction_accel) ball_speed
     else Ok friction_accel) ;;
  Ok (vscale (mass b) friction_accel).

Definition _applyBallFriction (w : World) : Result World :=
  friction <- ball_friction (ball w) ;;
  Ok (set_ball (ApplyForce friction (worldCenter (ball w)) false (ball w)) w).

Section Environment.

(** State of a pseudo-random generator, and what the environment asks of
    numpy and gym: [seeding.np_random], a uniform draw between two
    bounds, a standard normal draw. *)
Variable Rng : Type.
Variable seeding_np_random : option Z -> Rng * Z.
Variable uniform : R -> R -> Rng -> R * Rng.
Variable randn : Rng -> R * Rng.

(** Mass and centre of mass (in the body's frame) that the engine
    computes from the fixtures of the ball and of the robot. *)
Variable ball_massData : R * Vec2.
Variable robot_massData : R * Vec2.

(** [b2World.Step(1 / 60, 6 * 60, 6 * 60)]: the world after the tick and
    the contacts whose beginning it reports to the listener. *)
Variable world_Step : World -> World * list Contact.

(** The environment object together with the process-wide state it
    touches: the module's globals, numpy's global generator and the
    generator of gym's spaces. *)
Record Env : Type := mkEnv {
  world : World;
  state : option State;
  np_random : option Rng;
  globals : Globals;
  numpy_global : Rng;
  spaces_random : Rng
}.

(** [RoboCup.seed] *)
Definition seed (s : option Z) (self : Env) : Env * list Z :=
  let '(rng, s') := seeding_np_random s in
  (mkEnv (world self) (state self) (Some rng) (globals self)
         (numpy_global self) (spaces_random self),
   [s']).

(** [spaces.Box.sample] on three and on two components *)
Definition Box3_sample (low high : R * R * R) (r : Rng) : (R * R * R) * Rng :=
  let '(l0, l1, l2) := low in
  let '(h0, h1, h2) := high in
  let '(x0, r) := uniform l0 h0 r in
  let '(x1, r) := uniform l1 h1 r in
  let '(x2, r) := uniform l2 h2 r in
  ((x0, x1, x2), r).

Definition Box2_sample (low high : R * R) (r : Rng) : (R * R) * Rng :=
  let '(l0, l1) := low in
  let '(h0, h1) := high in
  let '(x0, r) := uniform l0 h0 r in
  let '(x1, r) := uniform l1 h1 r in
  ((x0, x1), r).

(** [VelocitySpace.sample]: [self.stdev * np.random.randn( *self.shape)],
    drawn from numpy's global generator. *)
Definition VelocitySpace3_sample (stdev : R * R * R) (r : Rng) : (R * R * R) * Rng :=
  let '(s0, s1, s2) := stdev in
  let '(x0, r) := randn r in
  let '(x1, r) := randn r in
  let '(x2, r) := randn r in
  ((s0 * x0, s1 * x1, s2 * x2), r).

Definition VelocitySpace2_sample (stdev : R * R) (r : Rng) : (R * R) * Rng :=
  let '(s0, s1) := stdev in
  let '(x0, r) := randn r in
  let '(x1, r) := randn r in
  ((s0 * x0, s1 * x1), r).

(** [self.observation_space.sample()]: the robot's box, the robot's
    velocities, the ball's box, the ball's velocities, in this order.
    The first generator is that of gym's spaces, the second numpy's
    global one. *)
Definition observation_space_sample (sp np : Rng) : State * (Rng * Rng) :=
  let '(rp, sp) := Box3_sample (FIELD_MIN_X, FIELD_MIN_Y, 0)
                               (FIELD_MAX_X, FIELD_MAX_Y, PI * 2) sp in
  let '(rv, np) := VelocitySpace3_sample (0.5, 0.5, 3.0) np in
  let '(bp, sp) := Box2_sample (FIELD_MIN_X, FIELD_MIN_Y)
                               (FIELD_MAX_X, FIELD_MAX_Y) sp in
  let '(bv, np) := VelocitySpace2_sample (2.0, 2.0) np in
  (((rp, rv), (bp, bv)), (sp, np)).

(** [reset]: [_destroy] then [_create].  Destroying the two bodies
    destroys the joints attached to them, and every joint of this world
    welds the robot to the ball.  The globals are left as they are. *)
Definition reset (self : Env) : Env :=
  let '(st, (sp, np)) :=
    observation_space_sample (spaces_random self) (numpy_global self) in
  let '((rx, ry, rh), (rvx, rvy, rvh)) := fst st in
  let '((bx, by_), (bvx, bvy)) := snd st in
  let new_ball :=
    mkBody (mkVec2 bx by_) 0 (mkVec2 bvx bvy) 0
           (fst ball_massData) (snd ball_massData) [] in
  let new_robot :=
    mkBody (mkVec2 rx ry) rh (mkVec2 rvx rvy) rvh
           (fst robot_massData) (snd robot_massData) [] in
  mkEnv (mkWorld new_ball new_robot [] (next_joint (world self)))
        (Some st) (np_random self) (globals self) np sp.

(** The state that [step] gathers from the bodies. *)
Definition gather (w : World) : State :=
  (((vx (position (robot w)), vy (position (robot w)), angle (robot w)),
    (vx (linearVelocity (robot w)), vy (linearVelocity (robot w)),
     angularVelocity (robot w))),
   ((vx (position (ball w)), vy (position (ball w))),
    (vx (linearVelocity (ball w)), vy (linearVelocity (ball w))))).

(** [RoboCup.step]; the returned [info] is always empty and left out. *)
Definition step (action : option (list R)) (self : Env)
  : Result (Env * (State * R * bool)) :=
  let st := gather (world self) in
  let '(w, contacts) := world_Step (world self) in
  let g := fold_left (fun g c => BeginContact c g) contacts (globals self) in
  w <- _applyBallFriction w ;;
  let '(w, g) :=
    if capture g then
      let joint_def :=
        mkWeldJointDef (capture_robot_body g) (capture_ball_body g)
                       (capture_anchor g) in
      let '(w, j) := CreateJoint joint_def w in
      (w, mkGlobals false (capture_ball_body g) (capture_robot_body g)
                    (capture_anchor g) (Some j))
    else (w, g) in
  let step_reward := 0 in
  let done := false in
  Ok (mkEnv w (Some st) (np_random self) g
            (numpy_global self) (spaces_random self),
      (st, step_reward, done)).

(** [RoboCup.shoot] *)
Definition shoot (self : Env) : Result Env :=
  match joint (globals self) with
  | Some j =>
      let g := globals self in
      let shoot_magnitude := 0.1 in
      let shoot_force :=
        mkVec2 (shoot_magnitude * cos (angle (robot (world self))))
               (shoot_magnitude * sin (angle (robot (world self)))) in
      w <- DestroyJoint j (world self) ;;
      let g := mkGlobals (capture g) (capture_ball_body g)
                         (capture_robot_body g) (capture_anchor g) None in
      let w := set_ball (ApplyForce shoot_force (worldCenter (robot w)) true
                                    (ball w)) w in
      Ok (mkEnv w (state self) (np_random self) g
                (numpy_global self) (spaces_random self))
  | None => Ok self
  end.

(** The calls a client makes on the environment. *)
Inductive Call : Type :=
| CallStep (action : option (list R))
| CallShoot
| CallReset.

Definition call (c : Call) (self : Env) : Result Env :=
  match c with
  | CallStep a => '(self', _) <- step a self ;; Ok self'
  | CallShoot => shoot self
  | CallReset => Ok (reset self)
  end.

Fixpoint run (cs : list Call) (self : Env) : Result Env :=
  match cs with
  | [] => Ok self
  | c :: cs' => self' <- call c self ;; run cs' self'
  end.

End Environment.

Arguments mkEnv {Rng} _ _ _ _ _ _.
Arguments world {Rng} _.
Arguments state {Rng} _.
Arguments np_random {Rng} _.
Arguments globals {Rng} _.
Arguments numpy_global {Rng} _.
Arguments spaces_random {Rng} _.
Arguments seed {Rng} _ _ _.
Arguments reset {Rng} _ _ _ _ _.
Arguments step {Rng} _ _ _.
Arguments shoot {Rng} _.
Arguments call {Rng} _ _ _ _ _ _ _.
Arguments run {Rng} _ _ _ _ _ _ _.

(** The three states of the capture machine, read off the globals. *)
Inductive CaptureState : Type := Free | PendingCapture | Captured.

Definition capture_state (g : Globals) : CaptureState :=
  if capture g then PendingCapture
  else match joint g with
       | Some _ => Captured
       | None => Free
       end.

(** A begin-contact that pairs the ball with the robot's kicker fixture. *)
Definition kicker_ball_contact (c : Contact) : bool :=
  touching c &&
  ((userData_id (body (fixtureA c)) =? 0)%Z &&
   (userData_id (body (fixtureB c)) =? 1)%Z &&
   match userData (fixtureB c) with Some _ => true | None => false end
   ||
   (userData_id (body (fixtureA c)) =? 1)%Z &&
   (userData_id (body (fixtureB c)) =? 0)%Z &&
   match userData (fixtureA c) with Some _ => true | None => false end).

End RoboCup.

(** ** robocup_env/envs/collect.py *)

Module Collect.
Import Constants.

(** [CollectConfig], with the two coefficients of [BaseRewardConfig] that
    [task_logic] reads. *)
Record CollectConfig : Type := mkCollectConfig {
  move_reward : R;
  turn_penalty : R;
  dribble_count_done : Z;
  dribbling_reward : R;
  done_reward_additive : R;
  done_reward_coeff : R;
  done_reward_exp_base : R;
  survival_reward : R;
  ball_out_of_bounds_reward : R;
  distance_to_ball_coeff : R
}.

(** The defaults of [CollectConfig.__init__], over given base
    coefficients. *)
Definition default_config (move turn : R) : CollectConfig :=
  mkCollectConfig move turn 100 1.0 0.0 500.0 0.998 0.5 (-100.0) (-0.1).

Record AuxRobotState : Type := mkAux {
  dribbling : bool;
  dribbling_count : Z;
  kick_cooldown : Z
}.

(** The fields of the environment that the task reads and writes.  A body
    is read through its [position] only. *)
Record RoboCupCollect : Type := mkCollect {
  robot_aux_states : list AuxRobotState;
  robot_bodies : list Box2D.Body;
  ball : Box2D.Body;
  timestep : nat;
  max_timesteps : Z;
  collect_config : CollectConfig;
  state : list R
}.

(** [np.clip(x, a_min, a_max)]; [None] is the infinite bound of its side
    ([-np.inf] below, [np.inf] above). *)
Definition clip (x : R) (a_min a_max : option R) : R :=
  let y := match a_min with Some lo => Rmax x lo | None => x end in
  match a_max with Some hi => Rmin y hi | None => y end.

Definition set_state (s : list R) (self : RoboCupCollect) : RoboCupCollect :=
  mkCollect (robot_aux_states self) (robot_bodies self) (ball self)
            (timestep self) (max_timesteps self) (collect_config self) s.

Section TaskReset.

(** The indices of the ball's position and velocity in the state vector
    (module [robocup_types]). *)
Variables BALL_X BALL_Y BALL_DX BALL_DY : nat.

Definition task_reset (self : RoboCupCollect) : Result RoboCupCollect :=
  let buffer := 1.0 in
  let speed_lim := 0.3 in
  let s := state self in
  (* Left *)
  x <- getitem s BALL_X ;;
  s <- (if Rleb x (FIELD_MIN_X + buffer) then
          d <- getitem s BALL_DX ;;
          s <- (if Rltb d 0 then setitem s BALL_X (FIELD_MIN_X + buffer)
                else Ok s) ;;
          d <- getitem s BALL_DX ;;
          setitem s BALL_DX (clip d (Some (- speed_lim)) None)
        else Ok s) ;;
  (* Right *)
  x <- getitem s BALL_X ;;
  s <- (if Rgeb x (FIELD_MAX_X - buffer) then
          d <- getitem s BALL_DX ;;
          s <- (if Rgtb d 0 then setitem s BALL_X (FIELD_MAX_X - buffer)
                else Ok s) ;;
          d <- getitem s BALL_DX ;;
          setitem s BALL_DX (clip d None (Some speed_lim))
        else Ok s) ;;
  (* Down *)
  y <- getitem s BALL_Y ;;
  s <- (if Rleb y (FIELD_MIN_Y + buffer) then
          d <- getitem s BALL_DY ;;
          s <- (if Rltb d 0 then setitem s BALL_Y (FIELD_MIN_Y + buffer)
                else Ok s) ;;
          d <- getitem s BALL_DY ;;
          setitem s BALL_DY (clip d (Some (- speed_lim)) None)
        else Ok s) ;;
  (* Up *)
  y <- getitem s BALL_Y ;;
  s <- (if Rgeb y (FIELD_MAX_Y - buffer) then
          d <- getitem s BALL_DY ;;
          s <- (if Rgtb d 0 then setitem s BALL_Y (FIELD_MAX_Y - buffer)
                else Ok s) ;;
          d <- getitem s BALL_DY ;;
          setitem s BALL_DY (clip d None (Some speed_lim))
        else Ok s) ;;
  let total_speed_lim := 1.0 in
  d <- getitem s BALL_DX ;;
  s <- setitem s BALL_DX (clip d (Some (- total_speed_lim)) (Some total_speed_lim)) ;;
  d <- getitem s BALL_DY ;;
  s <- setitem s BALL_DY (clip d (Some (- total_speed_lim)) (Some total_speed_lim)) ;;
  Ok (set_state s self).

(** One of the four blocks of [task_reset], for the proofs: position
    index [P], velocity index [D], the two tests, the boundary and the
    clipping bounds. *)
Definition side (P D : nat) (near : R -> bool) (toward : R -> bool)
           (boundary : R) (a_min a_max : option R) (s : list R)
  : Result (list R) :=
  p <- getitem s P ;;
  if near p then
    d <- getitem s D ;;
    s <- (if toward d then setitem s P boundary else Ok s) ;;
    d <- getitem s D ;;
    setitem s D (clip d a_min a_max)
  else Ok s.

(** The final clipping of one velocity component. *)
Definition clip_total (D : nat) (s : list R) : Result (list R) :=
  d <- getitem s D ;;
  setitem s D (clip d (Some (- (1.0))) (Some 1.0)).

End TaskReset.

Definition sum_sq (l : list R) : R := fold_right (fun x acc => x ^ 2 + acc) 0 l.

(** [task_logic]: the environment with [kick_cooldown] cleared, and
    [(step_reward, done, got_reward)]. *)
Definition task_logic (self : RoboCupCollect) (action : list R)
  : Result (RoboCupCollect * (R * bool * bool)) :=
  aux_state <- getitem (robot_aux_states self) 0 ;;
  robot <- getitem (robot_bodies self) 0 ;;
  let aux_state := mkAux (dribbling aux_state) (dribbling_count aux_state) 0 in
  let config := collect_config self in
  let done_dribbled := (dribble_count_done config <=? dribbling_count aux_state)%Z in
  let done := done_dribbled in
  let got_reward := done_dribbled in
  let rp := Box2D.position robot in
  let bp := Box2D.position (ball self) in
  let dist := sqrt ((vx rp - vx bp) ^ 2 + (vy rp - vy bp) ^ 2) in
  let step_reward := survival_reward config in
  let step_reward :=
    if done then
      step_reward + (done_reward_additive config +
                     done_reward_coeff config *
                     done_reward_exp_base config ^ timestep self)
    else if dribbling aux_state && negb done_dribbled then
      step_reward + dribbling_reward config
    else
      step_reward + distance_to_ball_coeff config * dist in
  a2 <- getitem action 2 ;;
  a3 <- getitem action 3 ;;
  let step_reward :=
    step_reward + move_reward config *
                  (sum_sq (firstn 2 action) + turn_penalty config * a2 ^ 2 + a3 ^ 2) in
  let '(done, step_reward) :=
    if negb done && (Rltb (vx bp) FIELD_MIN_X ||
                     Rgtb (vx bp) FIELD_MAX_X ||
                     Rltb (vy bp) FIELD_MIN_Y ||
                     Rgtb (vy bp) FIELD_MAX_Y)
    then (true, ball_out_of_bounds_reward config)
    else (done, step_reward) in
  let '(done, step_reward) :=
    if (max_timesteps self <? Z.of_nat (timestep self))%Z
    then (true, 0)
    else (done, step_reward) in
  Ok (mkCollect (update (robot_aux_states self) 0 aux_state)
                (robot_bodies self) (ball self) (timestep self)
                (max_timesteps self) (collect_config self) (state self),
      (step_reward, done, got_reward)).

End Collect.

(** ** Vocabulary of the properties of [task_logic] *)

(** The ball centre is strictly outside the field on some axis. *)
Definition out_of_bounds (p : Vec2) : Prop :=
  vx p < Constants.FIELD_MIN_X \/ vx p > Constants.FIELD_MAX_X \/
  vy p < Constants.FIELD_MIN_Y \/ vy p > Constants.FIELD_MAX_Y.

(** The action-magnitude penalty of lines 101-102. *)
Definition action_penalty (c : Collect.CollectConfig) (a0 a1 a2 a3 : R) : R :=
  Collect.move_reward c *
  (a0 ^ 2 + a1 ^ 2 + Collect.turn_penalty c * a2 ^ 2 + a3 ^ 2).

(** The terminal bonus of lines 94-95. *)
Definition terminal_bonus (c : Collect.CollectConfig) (t : nat) : R :=
  Collect.done_reward_additive c +
  Collect.done_reward_coeff c * Collect.done_reward_exp_base c ^ t.

(** ** Example inputs *)

(** A body of unit mass at rest at [(x, y)], heading [h]. *)
Definition body_at (x y h : R) : Box2D.Body :=
  Box2D.mkBody (mkVec2 x y) h vzero 0 1 vzero [].

Definition example_config : Collect.CollectConfig :=
  Collect.default_config (-0.1) 0.5.

(** A collect environment: one robot at [(0.5, 0)] that has dribbled for
    [count] ticks, the ball at [(ball_x, 0)], [t] steps into an episode of at
    most 300. *)
Definition collect_env (count : Z) (ball_x : R) (t : nat) : Collect.RoboCupCollect :=
  Collect.mkCollect [Collect.mkAux true count 0] [body_at 0.5 0 PI]
                    (body_at ball_x 0 0) t 300 example_config
                    [0.5; 0; PI; 0; 0; 0; 0; ball_x; 0; 0.5; 0].

Definition no_action : list R := [0; 0; 0; 0].

(** A world whose ball has mass [m] and velocity [(x, y)]; the robot rests
    at [(0.5, 0)] and there is no joint. *)
Definition world_with_ball (m x y : R) : Box2D.World :=
  Box2D.mkWorld (Box2D.mkBody vzero 0 (mkVec2 x y) 0 m vzero [])
                (body_at 0.5 0 PI) [] 0.

(** What [_applyBallFriction] leaves behind when the force it hands to
    [ApplyForce] is [f]. *)
Definition friction_applied (f : Vec2) (w : Box2D.World) : Box2D.World :=
  Box2D.set_ball
    (Box2D.ApplyForce f (Box2D.worldCenter (Box2D.ball w)) false (Box2D.ball w)) w.

(** [f] points against [v]: it is a negative multiple of it. *)
Definition opposite (f v : Vec2) : Prop :=
  exists k : R, 0 < k /\ f = vscale (- k) v.

(** ** Vocabulary of the properties of the capture machine *)

(** The globals after the listener has seen the contacts of one tick. *)
Definition deliver (contacts : list Box2D.Contact) (g : RoboCup.Globals)
  : RoboCup.Globals :=
  fold_left (fun g c => RoboCup.BeginContact c g) contacts g.

(** Lines 285-289 of [step]: the weld joint for a pending capture. *)
Definition weld_pending (w : Box2D.World) (g : RoboCup.Globals)
  : Box2D.World * RoboCup.Globals :=
  if RoboCup.capture g then
    (fst (Box2D.CreateJoint
            (Box2D.mkWeldJointDef (RoboCup.capture_robot_body g)
                                  (RoboCup.capture_ball_body g)
                                  (RoboCup.capture_anchor g)) w),
     RoboCup.mkGlobals false (RoboCup.capture_ball_body g)
                       (RoboCup.capture_robot_body g)
                       (RoboCup.capture_anchor g)
                       (Some (Box2D.next_joint w)))
  else (w, g).

(** A tick of the engine leaves the joints alone. *)
Definition preserves_joints (world_Step : Box2D.World -> Box2D.World * list Box2D.Contact)
  : Prop :=
  forall w, Box2D.joints (fst (world_Step w)) = Box2D.joints w.

(** The engine's filter on connected bodies: while the world holds a joint,
    no contact of the ball with the kicker begins. *)
Definition filters_connected (world_Step : Box2D.World -> Box2D.World * list Box2D.Contact)
  : Prop :=
  forall w, Box2D.joints w <> [] ->
            forallb (fun c => negb (RoboCup.kicker_ball_contact c))
                    (snd (world_Step w)) = true.

(** An environment between two calls in which at most one weld joint
    exists, and the handle of that joint is the one the environment holds. *)
Definition one_joint_at_most {Rng : Type} (self : RoboCup.Env Rng) : Prop :=
  RoboCup.capture (RoboCup.globals self) = false /\
  (Box2D.joints (RoboCup.world self) = [] \/
   exists j d, Box2D.joints (RoboCup.world self) = [(j, d)] /\
               RoboCup.joint (RoboCup.globals self) = Some j).

(** An environment between two calls that holds no joint in a world without
    joints, or holds the one joint of the world. *)
Definition holds_live_joint {Rng : Type} (self : RoboCup.Env Rng) : Prop :=
  RoboCup.capture (RoboCup.globals self) = false /\
  ((Box2D.joints (RoboCup.world self) = [] /\
    RoboCup.joint (RoboCup.globals self) = None) \/
   exists j d, Box2D.joints (RoboCup.world self) = [(j, d)] /\
               RoboCup.joint (RoboCup.globals self) = Some j).

(** ** Example engines, generators and environments *)

(** The ball touches the kicker at [(0.4, 0)]. *)
Definition kicker_contact : Box2D.Contact :=
  Box2D.mkContact true
                  (Box2D.mkFixture Box2D.BallBody None)
                  (Box2D.mkFixture Box2D.RobotBody (Some Box2D.Kicker))
                  (mkVec2 0.4 0, vzero).

(** An engine that moves nothing and reports the ball on the kicker at
    every tick. *)
Definition kick_every_tick (w : Box2D.World) : Box2D.World * list Box2D.Contact :=
  (w, [kicker_contact]).

(** An engine that moves nothing and reports the ball on the kicker only
    while the world has no joint. *)
Definition kick_when_free (w : Box2D.World) : Box2D.World * list Box2D.Contact :=
  (w, match Box2D.joints w with [] => [kicker_contact] | _ :: _ => [] end).

(** A toy generator on the integers modulo 16. *)
Definition toy_next (r : Z) : Z := ((5 * r + 3) mod 16)%Z.
Definition toy_seeding (s : option Z) : Z * Z :=
  match s with Some z => (z, z) | None => (0, 0)%Z end.
Definition toy_uniform (lo hi : R) (r : Z) : R * Z :=
  (lo + (hi - lo) * (IZR r / 16), toy_next r).
Definition toy_randn (r : Z) : R * Z := (IZR r - 8, toy_next r).

(** An environment over the toy generator: globals [g], joints [js], ball at
    the origin and robot at [(0.5, 0)] heading [PI]. *)
Definition example_env (g : RoboCup.Globals) (js : list (nat * Box2D.WeldJointDef))
  : RoboCup.Env Z :=
  RoboCup.mkEnv (Box2D.mkWorld (body_at 0 0 0) (body_at 0.5 0 PI) js (length js))
                None None g 1%Z 2%Z.

Definition weld_def : Box2D.WeldJointDef :=
  Box2D.mkWeldJointDef (Some Box2D.RobotBody) (Some Box2D.BallBody)
                       (Some (mkVec2 0.4 0)).

(** The environment right after construction, and one that holds the ball. *)
Definition free_env : RoboCup.Env Z := example_env RoboCup.globals0 [].
Definition captured_env : RoboCup.Env Z :=
  example_env (RoboCup.mkGlobals false (Some Box2D.BallBody) (Some Box2D.RobotBody)
                                 (Some (mkVec2 0.4 0)) (Some 0%nat))
              [(0%nat, weld_def)].

(** ** Vocabulary of the properties of [task_reset] *)

(** What [task_reset] does to the position [p] and the velocity [d] of the
    ball along one axis of the field, which spans [lo .. hi]. *)
Definition axis_reset (lo hi p d : R) : R * R :=
  let '(p1, d1) :=
    if Rleb p (lo + 1.0)
    then (if Rltb d 0 then lo + 1.0 else p, Collect.clip d (Some (- (0.3))) None)
    else (p, d) in
  let '(p2, d2) :=
    if Rgeb p1 (hi - 1.0)
    then (if Rgtb d1 0 then hi - 1.0 else p1, Collect.clip d1 None (Some 0.3))
    else (p1, d1) in
  (p2, Collect.clip d2 (Some (- (1.0))) (Some 1.0)).

(** The state vector of the collect task with the ball at [(x, y)] moving at
    [(dx, dy)]; the ball's entries are at the indices 7, 8, 9 and 10. *)
Definition state_with_ball (x y dx dy : R) : list R :=
  [0.5; 0; PI; 0; 0; 0; 0; x; y; dx; dy].

(** A collect environment at the start of an episode whose state vector has
    the ball at [(x, y)] moving at [(dx, dy)]. *)
Definition collect_env_with_ball (x y dx dy : R) : Collect.RoboCupCollect :=
  Collect.mkCollect [Collect.mkAux false 0 0] [body_at 0.5 0 PI] (body_at x y 0)
                    0 300 example_config (state_with_ball x y dx dy).

(** ** Vocabulary of the further properties *)

Definition vsub (u v : Vec2) : Vec2 := mkVec2 (vx u - vx v) (vy u - vy v).
Definition vdot (u v : Vec2) : R := vx u * vx v + vy u * vy v.

(** The values of position [p] and velocity [d] along an axis spanning
    [lo .. hi] that [task_reset] has nothing to do about: the velocity is
    within [[-1.0, 1.0]], and within 1.0 of an edge the velocity toward the
    edge is at most 0.3 and a ball that moves toward the edge stands on the
    boundary. *)
Definition axis_settled (lo hi p d : R) : Prop :=
  - (1.0) <= d <= 1.0 /\
  (p <= lo + 1.0 -> - (0.3) <= d /\ (d < 0 -> p = lo + 1.0)) /\
  (p >= hi - 1.0 -> d <= 0.3 /\ (d > 0 -> p = hi - 1.0)).

(** [CollectICConfig]: the fixed initial condition of collect.py, line 11;
    the ball's entries are the last four. *)
Definition fixed_ic : list R :=
  [0.5; 0.0; PI; 0.0; 0.0; 0.0; 0.0; 0.0; 0.0; 0.5; 0.0].

Definition collect_env_at (s : list R) : Collect.RoboCupCollect :=
  Collect.mkCollect [Collect.mkAux false 0 0] [body_at 0.5 0 PI] (body_at 0 0 0)
                    0 300 example_config s.

(** The same contact with its two fixtures in the other order. *)
Definition swap_fixtures (c : Box2D.Contact) : Box2D.Contact :=
  Box2D.mkContact (Box2D.touching c) (Box2D.fixtureB c) (Box2D.fixtureA c)
                  (Box2D.worldManifold_points c).

(** A contact that the listener has no use for: it is not touching, or one
    of its bodies is a wall, or both fixtures belong to bodies of the same
    kind, or the robot's fixture is the hull (no [userData]). *)
Definition idle_contact (c : Box2D.Contact) : Prop :=
  Box2D.touching c = false \/
  Box2D.userData_id (Box2D.body (Box2D.fixtureA c)) = (-1)%Z \/
  Box2D.userData_id (Box2D.body (Box2D.fixtureB c)) = (-1)%Z \/
  Box2D.userData_id (Box2D.body (Box2D.fixtureA c)) =
  Box2D.userData_id (Box2D.body (Box2D.fixtureB c)) \/
  (Box2D.body (Box2D.fixtureA c) = Box2D.RobotBody /\
   Box2D.userData (Box2D.fixtureA c) = None) \/
  (Box2D.body (Box2D.fixtureB c) = Box2D.RobotBody /\
   Box2D.userData (Box2D.fixtureB c) = None).

(** A joint definition that welds the robot (body A) to the ball (body B). *)
Definition welds_robot_to_ball (jd : nat * Box2D.WeldJointDef) : Prop :=
  Box2D.bodyA (snd jd) = Some Box2D.RobotBody /\
  Box2D.bodyB (snd jd) = Some Box2D.BallBody.

(** The walls of robocup.py, lines 26-29 and 229-251: the edges of the
    view. *)
Definition VIEW_MIN_X : R := -4.5 * RoboCup.FIELD_SCALE.
Definition VIEW_MAX_X : R := 4.5 * RoboCup.FIELD_SCALE.
Definition VIEW_MIN_Y : R := -3.0 * RoboCup.FIELD_SCALE.
Definition VIEW_MAX_Y : R := 3.0 * RoboCup.FIELD_SCALE.

(** A generator whose uniform draw lies between its bounds. *)
Definition draws_within (Rng : Type) (uniform : R -> R -> Rng -> R * Rng) : Prop :=
  forall lo hi r, lo <= hi -> lo <= fst (uniform lo hi r) <= hi.

(** A generator that always draws the middle of the interval. *)
Definition mid_uniform (lo hi : R) (r : Z) : R * Z := ((lo + hi) / 2, toy_next r).

(** The ball touches the top wall; the ball touches the robot's hull. *)
Definition wall_contact : Box2D.Contact :=
  Box2D.mkContact true (Box2D.mkFixture Box2D.BallBody None)
                  (Box2D.mkFixture Box2D.TopWall None) (mkVec2 0 1, vzero).
Definition hull_contact : Box2D.Contact :=
  Box2D.mkContact true (Box2D.mkFixture Box2D.RobotBody None)
                  (Box2D.mkFixture Box2D.BallBody None) (mkVec2 0.4 0, vzero).

(** An engine that moves nothing and reports, in this order, the ball on a
    wall, on the kicker at [(0.3, 0)], on the kicker at [(0.4, 0)] and on
    the hull. *)
Definition early_kicker_contact : Box2D.Contact :=
  Box2D.mkContact true
                  (Box2D.mkFixture Box2D.RobotBody (Some Box2D.Kicker))
                  (Box2D.mkFixture Box2D.BallBody None)
                  (mkVec2 0.3 0, vzero).
Definition busy_tick (w : Box2D.World) : Box2D.World * list Box2D.Contact :=
  (w, [wall_contact; early_kicker_contact; kicker_contact; hull_contact]).

(** ** robocup.py, the keyboard handlers of the main program (lines 377-424) *)

Module Keyboard.

(** The keys the handlers look at, and any other key. *)
Inductive Key : Type :=
| SPACE | UP | DOWN | LEFT | RIGHT | A | D | W | OtherKey (code : Z).

(** The module-level variables [restart], [force] and [shoot]. *)
Record Controls : Type := mkControls {
  restart : bool;
  force : list R;
  shoot : bool
}.

(** [restart = False], [force = [0, 0, 0]], [shoot = False]. *)
Definition initial : Controls := mkControls false [0; 0; 0] false.

Definition key_eqb (k1 k2 : Key) : bool :=
  match k1, k2 with
  | SPACE, SPACE | UP, UP | DOWN, DOWN | LEFT, LEFT | RIGHT, RIGHT
  | A, A | D, D | W, W => true
  | OtherKey c1, OtherKey c2 => Z.eqb c1 c2
  | _, _ => false
  end.

Definition set_force (i : nat) (v : R) (s : Controls) : Result Controls :=
  f <- setitem (force s) i v ;; Ok (mkControls (restart s) f (shoot s)).

Definition key_press (k : Key) (s : Controls) : Result Controls :=
  let s := if key_eqb k SPACE then mkControls true (force s) (shoot s) else s in
  s <- (if key_eqb k UP then set_force 1 3 s else Ok s) ;;
  s <- (if key_eqb k DOWN then set_force 1 (-3) s else Ok s) ;;
  s <- (if key_eqb k LEFT then set_force 0 (-3) s else Ok s) ;;
  s <- (if key_eqb k RIGHT then set_force 0 3 s else Ok s) ;;
  s <- (if key_eqb k A then set_force 2 (-0.1) s else Ok s) ;;
  s <- (if key_eqb k D then set_force 2 0.1 s else Ok s) ;;
  Ok (if key_eqb k W then mkControls (restart s) (force s) true else s).

Definition key_release (k : Key) (s : Controls) : Result Controls :=
  s <- (if key_eqb k UP then set_force 1 0 s else Ok s) ;;
  s <- (if key_eqb k DOWN then set_force 1 0 s else Ok s) ;;
  s <- (if key_eqb k LEFT then set_force 0 0 s else Ok s) ;;
  s <- (if key_eqb k RIGHT then set_force 0 0 s else Ok s) ;;
  s <- (if key_eqb k A then set_force 2 0 s else Ok s) ;;
  s <- (if key_eqb k D then set_force 2 0 s else Ok s) ;;
  Ok (if key_eqb k W then mkControls (restart s) (force s) false else s).

(** What the window reports: a key goes down or up. *)
Inductive KeyEvent : Type :=
| Press (k : Key)
| Release (k : Key).

Definition handle (e : KeyEvent) (s : Controls) : Result Controls :=
  match e with
  | Press k => key_press k s
  | Release k => key_release k s
  end.

Fixpoint handle_all (es : list KeyEvent) (s : Controls) : Result Controls :=
  match es with
  | [] => Ok s
  | e :: es' => s' <- handle e s ;; handle_all es' s'
  end.

(** The entry of [force] that a key drives, if any. *)
Definition axis (k : Key) : option nat :=
  match k with
  | LEFT | RIGHT => Some 0%nat
  | UP | DOWN => Some 1%nat
  | A | D => Some 2%nat
  | _ => None
  end.

(** The forces that the handlers can leave in [force]. *)
Definition force_in_range (f : list R) : Prop :=
  exists fx fy ft,
    f = [fx; fy; ft] /\
    (fx = -3 \/ fx = 0 \/ fx = 3) /\
    (fy = -3 \/ fy = 0 \/ fy = 3) /\
    (ft = -0.1 \/ ft = 0 \/ ft = 0.1).

Definition is_press_space (e : KeyEvent) : bool :=
  match e with
  | Press SPACE => true
  | _ => false
  end.

End Keyboard.

(** ** train_td3.py, [eval_policy] (lines 18-49)

    The policy and the gym environment are not part of the repository's
    sources; they are parameters.  The inner [while not done] loop need not
    end: it runs on fuel, and [None] says that an episode did not end within
    the fuel. *)

Module TrainTD3.

Section EvalPolicy.

Variables EnvT Obs Act : Type.

(** [gym.make(env_name)], [seed], [reset(scale=scale)], [step],
    [policy.select_action]. *)
Variable gym_make : EnvT.
Variable env_seed : Z -> EnvT -> EnvT.
Variable env_reset : R -> EnvT -> Obs * EnvT.
Variable env_step : Act -> EnvT -> (Obs * R * bool) * EnvT.
Variable select_action : Obs -> Act.

(** The body of the [while not done] loop, from [total_reward]. *)
Fixpoint episode (fuel : nat) (env : EnvT) (state : Obs) (total_reward : R)
  : option (R * EnvT) :=
  match fuel with
  | O => None
  | S fuel' =>
      let action := select_action state in
      let '((state, reward, done), env) := env_step action env in
      let total_reward := total_reward + reward in
      if done then Some (total_reward, env)
      else episode fuel' env state total_reward
  end.

(** The [for _ in range(eval_episodes)] loop, from [rewards]. *)
Fixpoint episodes (fuel : nat) (n : nat) (scale : R) (env : EnvT) (rewards : list R)
  : option (list R * EnvT) :=
  match n with
  | O => Some (rewards, env)
  | S n' =>
      let '(state, env) := env_reset scale env in
      match episode fuel env state 0.0 with
      | None => None
      | Some (total_reward, env) =>
          episodes fuel n' scale env (rewards ++ [total_reward])
      end
  end.

Definition sum (l : list R) : R := fold_left Rplus l 0.

(** [sum(rewards) / len(rewards)] *)
Definition mean (rewards : list R) : Result R :=
  if Nat.eqb (length rewards) 0 then Raise ZeroDivisionError
  else Ok (sum rewards / INR (length rewards)).

Definition eval_policy (fuel : nat) (seed : Z) (scale : R) (eval_episodes : Z)
  : option (Result R) :=
  let eval_env := gym_make in
  let eval_env := env_seed (seed + 100) eval_env in
  match episodes fuel (Z.to_nat eval_episodes) scale eval_env [] with
  | None => None
  | Some (rewards, _) => Some (mean rewards)
  end.

End EvalPolicy.

End TrainTD3.

(** A toy environment for [eval_policy]: the state counts the steps of the
    episode, every step pays 1, and the episode ends at the third step. *)
Definition three_steps (a : unit) (n : nat) : (unit * R * bool) * nat :=
  ((tt, 1, Nat.leb 2 n), S n).
Definition restart_steps (scale : R) (n : nat) : unit * nat := (tt, O).

(** An environment whose [step] never reports [done]. *)
Definition endless_step (a : unit) (n : nat) : (unit * R * bool) * nat :=
  ((tt, 1, false), S n).

(** ** robocup_env/envs/base/robocup.py: initial conditions and [reset(scale)] *)

Module BaseRoboCup.

(** Modelled from the spec: [InitialConditionConfig] of
    [robocup_env/envs/base/robocup.py], a file that is not among the sources
    (its subclass in [collect.py] and its caller [train_td3.py] are, and the
    [reset] of [robocup.py] takes no scale).  Spec, section 3: a fixed base
    vector over the dimensions of the state and, for each dimension, a flag
    that enables stochastic sampling. *)
Record InitialConditionConfig : Type := mkInitialConditionConfig {
  fixed_ic : list R;
  stochastic : list bool
}.

Section Sampler.

(** What the spec leaves open is a parameter: the random source of the
    environment; its re-initialisation by a seed value, which also gives the
    effective seed; the draw from the distribution declared for a dimension;
    and [scaled scale fixed drawn], the drawn value of a dimension scaled
    linearly by the curriculum scale. *)
Variable Source : Type.
Variable reseed : option Z -> Source -> Source * Z.
Variable draw : nat -> Source -> R * Source.
Variable scaled : R -> R -> R -> R.

(** Modelled from the spec: the sampler of initial conditions of the absent
    [base/robocup.py].  Spec, section 4.4: for each dimension of the state,
    a dimension marked fixed takes its fixed value unchanged; any other is
    sampled from the distribution declared for it and scaled linearly by the
    scale.  [i] is the index of the first dimension of [fixed]. *)
Fixpoint sample_initial_condition
  (scale : R) (i : nat) (fixed : list R) (flags : list bool) (src : Source)
  : list R * Source :=
  match fixed, flags with
  | f :: fixed', b :: flags' =>
      if b then
        let '(x, src) := draw i src in
        let '(rest, src) := sample_initial_condition scale (S i) fixed' flags' src in
        (scaled scale f x :: rest, src)
      else
        let '(rest, src) := sample_initial_condition scale (S i) fixed' flags' src in
        (f :: rest, src)
  | _, _ => ([], src)
  end.

(** Modelled from the spec: the part of the environment of the absent
    [base/robocup.py] that [seed] and [reset] touch.  Spec, sections 3 and
    4.6: the configuration of the initial conditions, the random source,
    the current observation and the timestep counter. *)
Record Env : Type := mkEnv {
  initial_condition_config : InitialConditionConfig;
  source : Source;
  state : option (list R);
  timestep : Z
}.

(** Modelled from the spec: [seed] of the absent [base/robocup.py].  Spec,
    section 4.6: it re-initialises the random source and returns the
    effective seed. *)
Definition seed (value : option Z) (self : Env) : Env * Z :=
  let '(src, effective) := reseed value (source self) in
  (mkEnv (initial_condition_config self) src (state self) (timestep self),
   effective).

(** Modelled from the spec: [reset(scale)] of the absent [base/robocup.py].
    Spec, section 4.6: it samples a new initial condition at the given
    scale, resets the timestep counter and returns the initial observation.
    The bodies that it rebuilds from the initial condition are left out. *)
Definition reset (scale : R) (self : Env) : Env * list R :=
  let cfg := initial_condition_config self in
  let '(st, src) :=
    sample_initial_condition scale 0 (fixed_ic cfg) (stochastic cfg) (source self) in
  (mkEnv cfg src (Some st) 0, st).

End Sampler.

Arguments mkEnv {Source} _ _ _ _.
Arguments initial_condition_config {Source} _.
Arguments source {Source} _.
Arguments state {Source} _.
Arguments timestep {Source} _.
Arguments seed {Source} _ _ _.
Arguments reset {Source} _ _ _ _.

End BaseRoboCup.







(** * Properties *)

(** ** Booleans and reals *)

(** Decimal literals are [Q2R] of a fraction; [field] wants them unfolded. *)
Ltac decimals := cbv [Q2R QArith_base.Qnum QArith_base.Qden] in *.

Lemma Rltb_true (x y : R) : Rltb x y = true <-> x < y.
Proof. unfold Rltb. destruct (Rlt_dec x y); split; intros; (congruence || lra). Qed.

Lemma Rltb_false (x y : R) : Rltb x y = false <-> y <= x.
Proof. unfold Rltb. destruct (Rlt_dec x y); split; intros; (congruence || lra). Qed.

Lemma Rleb_true (x y : R) : Rleb x y = true <-> x <= y.
Proof. unfold Rleb. destruct (Rle_dec x y); split; intros; (congruence || lra). Qed.

Lemma Rleb_false (x y : R) : Rleb x y = false <-> y < x.
Proof. unfold Rleb. destruct (Rle_dec x y); split; intros; (congruence || lra). Qed.

Lemma Rgtb_true (x y : R) : Rgtb x y = true <-> x > y.
Proof. unfold Rgtb. rewrite Rltb_true. lra. Qed.

Lemma Rgtb_false (x y : R) : Rgtb x y = false <-> x <= y.
Proof. unfold Rgtb. rewrite Rltb_false. lra. Qed.

Lemma Rgeb_true (x y : R) : Rgeb x y = true <-> x >= y.
Proof. unfold Rgeb. rewrite Rleb_true. lra. Qed.

Lemma Rgeb_false (x y : R) : Rgeb x y = false <-> x < y.
Proof. unfold Rgeb. rewrite Rleb_false. lra. Qed.

Lemma Reqb_true (x y : R) : Reqb x y = true <-> x = y.
Proof. unfold Reqb. destruct (Req_dec_T x y); split; intros; (congruence || lra). Qed.

Lemma Reqb_false (x y : R) : Reqb x y = false <-> x <> y.
Proof. unfold Reqb. destruct (Req_dec_T x y); split; intros; (congruence || lra). Qed.


(** ** Sequences *)

Lemma getitem_nth_error {A : Type} (s : list A) (i : nat) (v : A) :
  nth_error s i = Some v -> getitem s i = Ok v.
Proof. unfold getitem. intros ->. reflexivity. Qed.

Lemma getitem_nth (s : list R) (i : nat) :
  (i < length s)%nat -> getitem s i = Ok (nth i s 0).
Proof.
  intros H. apply getitem_nth_error.
  apply nth_error_nth'. exact H.
Qed.

Lemma sum_sq_firstn2 (l : list R) :
  (2 <= length l)%nat ->
  Collect.sum_sq (firstn 2 l) = nth 0 l 0 ^ 2 + nth 1 l 0 ^ 2.
Proof.
  destruct l as [|a0 [|a1 l]]; simpl; intros H; try lia. lra.
Qed.

(** ** The collect task: [task_logic] *)

Section TaskLogicFacts.
Import Collect.

Lemma out_of_bounds_test (p : Vec2) :
  Rltb (vx p) Constants.FIELD_MIN_X || Rgtb (vx p) Constants.FIELD_MAX_X ||
  Rltb (vy p) Constants.FIELD_MIN_Y || Rgtb (vy p) Constants.FIELD_MAX_Y = true
  <-> out_of_bounds p.
Proof.
  unfold out_of_bounds.
  rewrite !orb_true_iff, !Rltb_true, !Rgtb_true. tauto.
Qed.

Variable self : RoboCupCollect.
Variable action : list R.
Variable aux : AuxRobotState.
Variable robot : Box2D.Body.
Hypothesis Haux : nth_error (robot_aux_states self) 0 = Some aux.
Hypothesis Hrobot : nth_error (robot_bodies self) 0 = Some robot.
Hypothesis Haction : (4 <= length action)%nat.

Let config := collect_config self.
Let done_dribbled := (dribble_count_done config <=? dribbling_count aux)%Z.
Let oob :=
  Rltb (vx (Box2D.position (ball self))) Constants.FIELD_MIN_X ||
  Rgtb (vx (Box2D.position (ball self))) Constants.FIELD_MAX_X ||
  Rltb (vy (Box2D.position (ball self))) Constants.FIELD_MIN_Y ||
  Rgtb (vy (Box2D.position (ball self))) Constants.FIELD_MAX_Y.
Let timeout := (max_timesteps self <? Z.of_nat (timestep self))%Z.
Let penalty :=
  action_penalty config (nth 0 action 0) (nth 1 action 0)
                 (nth 2 action 0) (nth 3 action 0).
Let dist :=
  sqrt ((vx (Box2D.position robot) - vx (Box2D.position (ball self))) ^ 2 +
        (vy (Box2D.position robot) - vy (Box2D.position (ball self))) ^ 2).
Let base_reward :=
  if done_dribbled then
    survival_reward config + terminal_bonus config (timestep self) + penalty
  else if dribbling aux then
    survival_reward config + dribbling_reward config + penalty
  else
    survival_reward config + distance_to_ball_coeff config * dist + penalty.

(** With a robot and four action components the call returns, and its
    result has this closed form. *)
Lemma task_logic_returns :
  task_logic self action =
  Ok (mkCollect (update (robot_aux_states self) 0
                        (mkAux (dribbling aux) (dribbling_count aux) 0))
                (robot_bodies self) (ball self) (timestep self)
                (max_timesteps self) (collect_config self) (state self),
      (if timeout then 0
       else if negb done_dribbled && oob then ball_out_of_bounds_reward config
       else base_reward,
       done_dribbled || oob || timeout,
       done_dribbled)).
Proof.
  unfold task_logic.
  rewrite (getitem_nth_error _ _ _ Haux), (getitem_nth_error _ _ _ Hrobot).
  cbn [bind].
  rewrite (getitem_nth action 2), (getitem_nth action 3) by lia.
  cbn [bind].
  rewrite sum_sq_firstn2 by lia.
  cbn [dribbling dribbling_count kick_cooldown].
  fold config. fold done_dribbled. fold oob. fold timeout. fold dist.
  unfold base_reward, penalty, action_penalty, terminal_bonus.
  destruct done_dribbled, (dribbling aux), oob, timeout; cbn;
    repeat f_equal; lra.
Qed.

End TaskLogicFacts.

(** [C2], amended: for every call of [task_logic] with a robot and four
    action components, [got_reward] is true exactly when [dribbling_count] is
    at least [dribble_count_done], [done] and [got_reward] are both true
    exactly then, and in that case, as long as the time step does not exceed
    [max_timesteps], the reward is [survival_reward] plus the terminal bonus
    [done_reward_additive + done_reward_coeff * done_reward_exp_base ^
    timestep] plus the action penalty. *)
Theorem collect_dribble_done_bonus
  (self : Collect.RoboCupCollect) (action : list R)
  (aux : Collect.AuxRobotState) (robot : Box2D.Body)
  (Haux : nth_error (Collect.robot_aux_states self) 0 = Some aux)
  (Hrobot : nth_error (Collect.robot_bodies self) 0 = Some robot)
  (Haction : (4 <= length action)%nat) :
  let config := Collect.collect_config self in
  let completed :=
    (Collect.dribble_count_done config <= Collect.dribbling_count aux)%Z in
  exists self' reward done got_reward,
    Collect.task_logic self action = Ok (self', (reward, done, got_reward)) /\
    (got_reward = true <-> completed) /\
    (done && got_reward = true <-> completed) /\
    (completed ->
     (Z.of_nat (Collect.timestep self) <= Collect.max_timesteps self)%Z ->
     reward =
     Collect.survival_reward config +
     terminal_bonus config (Collect.timestep self) +
     action_penalty config (nth 0 action 0) (nth 1 action 0)
                    (nth 2 action 0) (nth 3 action 0)).
Proof.
  intros config completed. subst completed.
  do 4 eexists. split.
  - apply (task_logic_returns self action aux robot Haux Hrobot Haction).
  - fold config. rewrite <- Z.leb_le.
    destruct (Collect.dribble_count_done config <=? Collect.dribbling_count aux)%Z;
      cbn [orb andb negb].
    + repeat split; try reflexivity; try tauto.
      intros _ Ht. apply Z.ltb_ge in Ht. rewrite Ht. reflexivity.
    + repeat split; try discriminate.
      rewrite andb_false_r. discriminate.
Qed.

Lemma collect_dribble_done_bonus_witness :
  exists self' reward done got_reward,
    Collect.task_logic (collect_env 100 0 50) no_action =
    Ok (self', (reward, done, got_reward)) /\
    (got_reward = true <-> (100 <= 100)%Z) /\
    (done && got_reward = true <-> (100 <= 100)%Z) /\
    ((100 <= 100)%Z -> (Z.of_nat 50 <= 300)%Z ->
     reward =
     Collect.survival_reward example_config + terminal_bonus example_config 50 +
     action_penalty example_config 0 0 0 0).
Proof.
  apply (collect_dribble_done_bonus (collect_env 100 0 50) no_action
           (Collect.mkAux true 100 0) (body_at 0.5 0 PI)).
  - reflexivity.
  - reflexivity.
  - simpl. lia.
Defined.

(** Counterexample to [C2] as stated: at step 301 of an episode limited to
    300 steps, with the dribble count at its target, the call returns
    [done] and [got_reward] true but reward 0, which is not
    [survival_reward] plus the terminal bonus plus the action penalty. *)
Lemma collect_dribble_done_bonus_lost_after_limit :
  exists self',
    Collect.task_logic (collect_env 100 0 301) no_action =
    Ok (self', (0, true, true)) /\
    0 <> Collect.survival_reward example_config +
         terminal_bonus example_config 301 +
         action_penalty example_config 0 0 0 0.
Proof.
  eexists. split.
  - rewrite (task_logic_returns (collect_env 100 0 301) no_action
               (Collect.mkAux true 100 0) (body_at 0.5 0 PI)
               eq_refl eq_refl) by (simpl; lia).
    reflexivity.
  - unfold terminal_bonus, action_penalty, example_config. cbn -[pow].
    assert (H : 0 < 0.998 ^ 301) by (apply pow_lt; lra).
    lra.
Qed.

(** [C3], amended: for every call of [task_logic] (with a robot and four
    action components) in which the dribble count is below its target, the
    ball centre lies strictly outside the field on some axis and the time
    step does not exceed [max_timesteps], the call returns [done] true,
    [got_reward] false and the out-of-bounds penalty as reward, in place of
    the base reward and all its terms. *)
Theorem collect_out_of_bounds_override
  (self : Collect.RoboCupCollect) (action : list R)
  (aux : Collect.AuxRobotState) (robot : Box2D.Body)
  (Haux : nth_error (Collect.robot_aux_states self) 0 = Some aux)
  (Hrobot : nth_error (Collect.robot_bodies self) 0 = Some robot)
  (Haction : (4 <= length action)%nat)
  (Hcount : (Collect.dribbling_count aux <
             Collect.dribble_count_done (Collect.collect_config self))%Z)
  (Hout : out_of_bounds (Box2D.position (Collect.ball self)))
  (Htime : (Z.of_nat (Collect.timestep self) <= Collect.max_timesteps self)%Z) :
  exists self',
    Collect.task_logic self action =
    Ok (self',
        (Collect.ball_out_of_bounds_reward (Collect.collect_config self),
         true, false)).
Proof.
  eexists.
  rewrite (task_logic_returns self action aux robot Haux Hrobot Haction).
  apply Z.leb_gt in Hcount. rewrite Hcount.
  apply out_of_bounds_test in Hout. rewrite Hout.
  apply Z.ltb_ge in Htime. rewrite Htime.
  reflexivity.
Qed.

Lemma collect_out_of_bounds_override_witness :
  exists self',
    Collect.task_logic (collect_env 0 3 10) no_action =
    Ok (self', (Collect.ball_out_of_bounds_reward example_config, true, false)).
Proof.
  apply (collect_out_of_bounds_override (collect_env 0 3 10) no_action
           (Collect.mkAux true 0 0) (body_at 0.5 0 PI)).
  - reflexivity.
  - reflexivity.
  - simpl. lia.
  - simpl. lia.
  - unfold out_of_bounds, Constants.FIELD_MAX_X, Constants.FIELD_SCALE.
    simpl. right. left. lra.
  - simpl. lia.
Defined.

(** Counterexample to [C3] as stated: with no dribble completion and the
    ball at [x = 3], beyond [FIELD_MAX_X = 2], the call at step 301 of an
    episode limited to 300 steps returns reward 0, not the out-of-bounds
    penalty of -100. *)
Lemma collect_out_of_bounds_zeroed_after_limit :
  out_of_bounds (Box2D.position (Collect.ball (collect_env 0 3 301))) /\
  (Collect.dribbling_count (Collect.mkAux true 0 0) <
   Collect.dribble_count_done example_config)%Z /\
  exists self',
    Collect.task_logic (collect_env 0 3 301) no_action =
    Ok (self', (0, true, false)) /\
    0 <> Collect.ball_out_of_bounds_reward example_config.
Proof.
  split; [|split].
  - unfold out_of_bounds, Constants.FIELD_MAX_X, Constants.FIELD_SCALE.
    simpl. right. left. lra.
  - simpl. lia.
  - eexists. split.
    + rewrite (task_logic_returns (collect_env 0 3 301) no_action
                 (Collect.mkAux true 0 0) (body_at 0.5 0 PI)
                 eq_refl eq_refl) by (simpl; lia).
      destruct (Rltb _ _ || Rgtb _ _ || Rltb _ _ || Rgtb _ _); reflexivity.
    + simpl. lra.
Qed.

(** [C4], amended: in [task_logic] the timeout check comes last and is
    unconditional: whenever the time step exceeds [max_timesteps] the call
    returns [done] true and reward 0, also on a dribble-completion tick,
    whose [got_reward] stays true.  Only the out-of-bounds check is skipped
    when dribble completion has set [done]: within the time limit a
    dribble-completion tick keeps survival reward, terminal bonus and action
    penalty even with the ball out of bounds, and a tick without completion
    and with the ball out of bounds returns the out-of-bounds penalty.  The
    order of priority for the reward is timeout, then dribble completion,
    then out of bounds. *)
Theorem collect_priority_order
  (self : Collect.RoboCupCollect) (action : list R)
  (aux : Collect.AuxRobotState) (robot : Box2D.Body)
  (Haux : nth_error (Collect.robot_aux_states self) 0 = Some aux)
  (Hrobot : nth_error (Collect.robot_bodies self) 0 = Some robot)
  (Haction : (4 <= length action)%nat) :
  let config := Collect.collect_config self in
  let completed :=
    (Collect.dribble_count_done config <= Collect.dribbling_count aux)%Z in
  let in_time :=
    (Z.of_nat (Collect.timestep self) <= Collect.max_timesteps self)%Z in
  exists self' reward done got_reward,
    Collect.task_logic self action = Ok (self', (reward, done, got_reward)) /\
    (got_reward = true <-> completed) /\
    (~ in_time -> done = true /\ reward = 0) /\
    (in_time -> completed ->
     done = true /\
     reward =
     Collect.survival_reward config +
     terminal_bonus config (Collect.timestep self) +
     action_penalty config (nth 0 action 0) (nth 1 action 0)
                    (nth 2 action 0) (nth 3 action 0)) /\
    (in_time -> ~ completed ->
     out_of_bounds (Box2D.position (Collect.ball self)) ->
     done = true /\ reward = Collect.ball_out_of_bounds_reward config) /\
    (in_time -> ~ completed ->
     ~ out_of_bounds (Box2D.position (Collect.ball self)) ->
     done = false).
Proof.
  intros config completed in_time. subst completed in_time.
  do 4 eexists. split.
  - apply (task_logic_returns self action aux robot Haux Hrobot Haction).
  - fold config.
    pose proof (out_of_bounds_test (Box2D.position (Collect.ball self))) as Hoob.
    destruct (Z.leb_spec (Collect.dribble_count_done config)
                         (Collect.dribbling_count aux));
      destruct (Z.ltb_spec (Collect.max_timesteps self)
                           (Z.of_nat (Collect.timestep self)));
      destruct (Rltb _ _ || Rgtb _ _ || Rltb _ _ || Rgtb _ _);
      cbn [orb andb negb];
      intuition (try reflexivity; try lia; try discriminate).
Qed.

Lemma collect_priority_order_witness :
  exists self' reward done got_reward,
    Collect.task_logic (collect_env 150 0 400) no_action =
    Ok (self', (reward, done, got_reward)) /\
    (got_reward = true <-> (100 <= 150)%Z) /\
    (~ (Z.of_nat 400 <= 300)%Z -> done = true /\ reward = 0) /\
    ((Z.of_nat 400 <= 300)%Z -> (100 <= 150)%Z ->
     done = true /\
     reward =
     Collect.survival_reward example_config + terminal_bonus example_config 400 +
     action_penalty example_config 0 0 0 0) /\
    ((Z.of_nat 400 <= 300)%Z -> ~ (100 <= 150)%Z ->
     out_of_bounds (Box2D.position (body_at 0 0 0)) ->
     done = true /\ reward = Collect.ball_out_of_bounds_reward example_config) /\
    ((Z.of_nat 400 <= 300)%Z -> ~ (100 <= 150)%Z ->
     ~ out_of_bounds (Box2D.position (body_at 0 0 0)) ->
     done = false).
Proof.
  apply (collect_priority_order (collect_env 150 0 400) no_action
           (Collect.mkAux true 150 0) (body_at 0.5 0 PI)).
  - reflexivity.
  - reflexivity.
  - simpl. lia.
Defined.

(** Counterexample to [C4] as stated: a dribble-completion tick at step 400
    of an episode limited to 300 steps does not keep its terminal bonus; the
    timeout check zeroes the reward although [done] was already set. *)
Lemma collect_timeout_overrides_dribble_done :
  (Collect.dribble_count_done example_config <=
   Collect.dribbling_count (Collect.mkAux true 150 0))%Z /\
  exists self',
    Collect.task_logic (collect_env 150 0 400) no_action =
    Ok (self', (0, true, true)) /\
    0 <> Collect.survival_reward example_config +
         terminal_bonus example_config 400 +
         action_penalty example_config 0 0 0 0.
Proof.
  split; [simpl; lia|].
  eexists. split.
  - rewrite (task_logic_returns (collect_env 150 0 400) no_action
               (Collect.mkAux true 150 0) (body_at 0.5 0 PI)
               eq_refl eq_refl) by (simpl; lia).
    reflexivity.
  - unfold terminal_bonus, action_penalty, example_config. cbn -[pow].
    assert (H : 0 < 0.998 ^ 400) by (apply pow_lt; lra).
    lra.
Qed.

(** ** Ball friction *)

Section FrictionFacts.
Import Box2D RoboCup.

Lemma vnorm_vscale (a : R) (v : Vec2) : vnorm (vscale a v) = Rabs a * vnorm v.
Proof.
  unfold vnorm, vscale. cbn [vx vy].
  replace ((a * vx v) ^ 2 + (a * vy v) ^ 2)
    with (a ^ 2 * (vx v ^ 2 + vy v ^ 2)) by ring.
  rewrite sqrt_mult_alt by nra.
  f_equal. replace (a ^ 2) with (Rsqr a) by (unfold Rsqr; ring).
  apply sqrt_Rsqr_abs.
Qed.

Lemma vnorm_zero_iff (v : Vec2) : vnorm v = 0 <-> v = vzero.
Proof.
  unfold vnorm, vzero. split.
  - intros H. apply sqrt_eq_0 in H; [|nra].
    destruct v as [x y]. cbn [vx vy] in H.
    assert (x = 0) by nra. assert (y = 0) by nra. subst. reflexivity.
  - intros ->. cbn [vx vy]. replace (0 ^ 2 + 0 ^ 2) with 0 by ring.
    apply sqrt_0.
Qed.

(** The speed that [_applyBallFriction] computes. *)
Lemma ball_speed_vnorm (b : Body) :
  sqrt (vx (linearVelocity b) ^ 2 + vy (linearVelocity b) ^ 2) =
  vnorm (linearVelocity b).
Proof. reflexivity. Qed.

(** Closed form of the friction force: the call returns, the divisor 0.1 is
    not zero, and the speed divides only above 0.1. *)
Lemma ball_friction_returns (b : Body) :
  ball_friction b =
  Ok (if Rgtb (vnorm (linearVelocity b)) 0.1
      then vscale (- (mass b * 0.5) / vnorm (linearVelocity b)) (linearVelocity b)
      else vscale (- (mass b * 5)) (linearVelocity b)).
Proof.
  unfold ball_friction. rewrite ball_speed_vnorm.
  unfold vdiv at 1.
  assert (H01 : Reqb 0.1 0 = false) by (apply Reqb_false; lra).
  rewrite H01. cbn [bind].
  destruct (Rgtb (vnorm (linearVelocity b)) 0.1) eqn:Hs.
  - apply Rgtb_true in Hs.
    unfold vdiv.
    assert (Hn : Reqb (vnorm (linearVelocity b)) 0 = false)
      by (apply Reqb_false; lra).
    rewrite Hn. cbn [bind]. f_equal.
    unfold vscale. cbn [vx vy]. decimals. f_equal; field; lra.
  - cbn [bind]. f_equal.
    unfold vscale. cbn [vx vy]. decimals. f_equal; field.
Qed.

End FrictionFacts.

Lemma friction_applied_joints (f : Vec2) (w : Box2D.World) :
  Box2D.joints (friction_applied f w) = Box2D.joints w.
Proof. reflexivity. Qed.

Lemma applyBallFriction_returns (w : Box2D.World) :
  exists f,
    RoboCup.ball_friction (Box2D.ball w) = Ok f /\
    RoboCup._applyBallFriction w = Ok (friction_applied f w).
Proof.
  unfold RoboCup._applyBallFriction.
  rewrite ball_friction_returns. cbn [bind].
  eexists. split; reflexivity.
Qed.

(** [C5]: two balls of the same positive mass, at speeds [s1 < s2].  If both
    speeds are above 0.1, the forces that [_applyBallFriction] applies have
    the same magnitude, the mass times 0.5, and each points against its
    velocity.  If [0 < s1 < s2 < 0.1], the force at [s1] is strictly smaller
    in magnitude than the force at [s2]. *)
Theorem friction_saturated_then_monotone
  (w1 w2 : Box2D.World)
  (Hmass : Box2D.mass (Box2D.ball w1) = Box2D.mass (Box2D.ball w2))
  (Hpos : 0 < Box2D.mass (Box2D.ball w1))
  (Hlt : vnorm (Box2D.linearVelocity (Box2D.ball w1)) <
         vnorm (Box2D.linearVelocity (Box2D.ball w2))) :
  let m := Box2D.mass (Box2D.ball w1) in
  let v1 := Box2D.linearVelocity (Box2D.ball w1) in
  let v2 := Box2D.linearVelocity (Box2D.ball w2) in
  exists f1 f2,
    RoboCup._applyBallFriction w1 = Ok (friction_applied f1 w1) /\
    RoboCup._applyBallFriction w2 = Ok (friction_applied f2 w2) /\
    (0.1 < vnorm v1 ->
     vnorm f1 = m * 0.5 /\ vnorm f2 = m * 0.5 /\
     opposite f1 v1 /\ opposite f2 v2) /\
    (0 < vnorm v1 -> vnorm v2 < 0.1 -> vnorm f1 < vnorm f2).
Proof.
  intros m v1 v2.
  exists (if Rgtb (vnorm v1) 0.1
          then vscale (- (m * 0.5) / vnorm v1) v1
          else vscale (- (m * 5)) v1).
  exists (if Rgtb (vnorm v2) 0.1
          then vscale (- (m * 0.5) / vnorm v2) v2
          else vscale (- (m * 5)) v2).
  assert (Hsat : forall v, 0.1 < vnorm v ->
            vnorm (vscale (- (m * 0.5) / vnorm v) v) = m * 0.5).
  { intros v Hv. rewrite vnorm_vscale.
    replace (- (m * 0.5) / vnorm v) with (- ((m * 0.5) / vnorm v))
      by (decimals; field; lra).
    rewrite Rabs_Ropp, Rabs_pos_eq.
    - decimals. field. lra.
    - apply Rlt_le, Rdiv_lt_0_compat; subst m; lra. }
  split; [|split; [|split]].
  - unfold RoboCup._applyBallFriction.
    rewrite ball_friction_returns. reflexivity.
  - unfold RoboCup._applyBallFriction.
    rewrite ball_friction_returns. fold v2. rewrite <- Hmass. reflexivity.
  - intros H1.
    assert (H2 : 0.1 < vnorm v2) by (subst v1 v2; lra).
    rewrite (proj2 (Rgtb_true _ _)) by lra.
    rewrite (proj2 (Rgtb_true _ _)) by lra.
    repeat split; try (apply Hsat; assumption).
    + exists (m * 0.5 / vnorm v1). split.
      * apply Rdiv_lt_0_compat; subst m; lra.
      * f_equal. decimals. field. lra.
    + exists (m * 0.5 / vnorm v2). split.
      * apply Rdiv_lt_0_compat; subst m; lra.
      * f_equal. decimals. field. lra.
  - intros H1 H2.
    rewrite (proj2 (Rgtb_false _ _)) by (subst v1 v2; lra).
    rewrite (proj2 (Rgtb_false _ _)) by lra.
    rewrite !vnorm_vscale, Rabs_Ropp, Rabs_pos_eq by (subst m; lra).
    subst m v1 v2. nra.
Qed.

Lemma friction_saturated_then_monotone_witness :
  exists f1 f2,
    RoboCup._applyBallFriction (world_with_ball 1 3 4) =
    Ok (friction_applied f1 (world_with_ball 1 3 4)) /\
    RoboCup._applyBallFriction (world_with_ball 1 6 8) =
    Ok (friction_applied f2 (world_with_ball 1 6 8)) /\
    (0.1 < vnorm (mkVec2 3 4) ->
     vnorm f1 = 1 * 0.5 /\ vnorm f2 = 1 * 0.5 /\
     opposite f1 (mkVec2 3 4) /\ opposite f2 (mkVec2 6 8)) /\
    (0 < vnorm (mkVec2 3 4) -> vnorm (mkVec2 6 8) < 0.1 -> vnorm f1 < vnorm f2).
Proof.
  apply (friction_saturated_then_monotone
           (world_with_ball 1 3 4) (world_with_ball 1 6 8)).
  - reflexivity.
  - simpl. lra.
  - simpl. unfold vnorm. cbn [vx vy].
    apply sqrt_lt_1_alt. lra.
Defined.

(** [C6]: [_applyBallFriction] always returns, so no division by zero takes
    place: the constant divisor 0.1 is not zero and the ball speed divides
    only when it exceeds 0.1.  When the ball's velocity is the zero vector
    the force applied is the zero vector. *)
Theorem friction_total_and_zero_at_rest :
  (forall w : Box2D.World,
      exists f, RoboCup._applyBallFriction w = Ok (friction_applied f w)) /\
  (forall b : Box2D.Body,
      vnorm (Box2D.linearVelocity b) <= 0.1 ->
      RoboCup.ball_friction b =
      (a <- vdiv (vscale (-0.5) (Box2D.linearVelocity b)) 0.1 ;;
       Ok (vscale (Box2D.mass b) a))) /\
  (forall w : Box2D.World,
      Box2D.linearVelocity (Box2D.ball w) = vzero ->
      RoboCup._applyBallFriction w = Ok (friction_applied vzero w)).
Proof.
  split; [|split].
  - intros w. destruct (applyBallFriction_returns w) as (f & _ & H).
    exists f. exact H.
  - intros b Hb. unfold RoboCup.ball_friction.
    rewrite ball_speed_vnorm.
    rewrite (proj2 (Rgtb_false _ _)) by lra.
    destruct (vdiv _ _); reflexivity.
  - intros w Hw. unfold RoboCup._applyBallFriction.
    rewrite ball_friction_returns, Hw.
    assert (H0 : vnorm vzero = 0) by (apply vnorm_zero_iff; reflexivity).
    rewrite H0, (proj2 (Rgtb_false _ _)) by lra.
    cbn [bind].
    replace (vscale (- (Box2D.mass (Box2D.ball w) * 5)) vzero) with vzero.
    + reflexivity.
    + unfold vscale, vzero. cbn [vx vy]. f_equal; ring.
Qed.

(** ** The capture machine: [BeginContact], [step], [shoot] *)

Section CaptureFacts.
Import Box2D RoboCup.

Variable Rng : Type.
Variable seeding_np_random : option Z -> Rng * Z.
Variable uniform : R -> R -> Rng -> R * Rng.
Variable randn : Rng -> R * Rng.
Variable ball_massData : R * Vec2.
Variable robot_massData : R * Vec2.
Variable world_Step : World -> World * list Contact.

Local Abbreviation step := (step world_Step).
Local Abbreviation reset := (reset uniform randn ball_massData robot_massData).
Local Abbreviation run :=
  (run uniform randn ball_massData robot_massData world_Step).

(** What [BeginContact] does, by cases on the contact. *)
Lemma BeginContact_cases (c : Contact) (g : Globals) :
  (kicker_ball_contact c = true /\
   capture (BeginContact c g) = true /\
   joint (BeginContact c g) = joint g /\
   capture_anchor (BeginContact c g) = Some (fst (worldManifold_points c)))
  \/
  (kicker_ball_contact c = false /\ BeginContact c g = g).
Proof.
  unfold BeginContact, kicker_ball_contact.
  destruct c as [t [ba ua] [bb ub] pts]. cbn [touching fixtureA fixtureB body userData].
  destruct t; [|right; split; reflexivity].
  destruct ba, bb, ua, ub; cbn; auto.
Qed.

Lemma BeginContact_joint (c : Contact) (g : Globals) :
  joint (BeginContact c g) = joint g.
Proof.
  destruct (BeginContact_cases c g) as [(_ & _ & H & _)|(_ & H)].
  - exact H.
  - rewrite H. reflexivity.
Qed.

Lemma deliver_joint (cs : list Contact) (g : Globals) :
  joint (deliver cs g) = joint g.
Proof.
  revert g. induction cs as [|c cs IH]; intros g; cbn.
  - reflexivity.
  - unfold deliver in IH. rewrite IH. apply BeginContact_joint.
Qed.

(** Once raised, the flag stays raised through the rest of the tick. *)
Lemma deliver_capture_stays (cs : list Contact) (g : Globals) :
  capture g = true -> capture (deliver cs g) = true.
Proof.
  revert g. induction cs as [|c cs IH]; intros g Hg; cbn.
  - exact Hg.
  - apply IH.
    destruct (BeginContact_cases c g) as [(_ & H & _)|(_ & H)].
    + exact H.
    + rewrite H. exact Hg.
Qed.

(** The flag after a tick: raised before, or some contact of the tick paired
    the ball with the kicker. *)
Lemma deliver_capture (cs : list Contact) (g : Globals) :
  capture (deliver cs g) = capture g || existsb kicker_ball_contact cs.
Proof.
  revert g. induction cs as [|c cs IH]; intros g; cbn.
  - rewrite orb_false_r. reflexivity.
  - unfold deliver in IH. rewrite IH.
    destruct (BeginContact_cases c g) as [(Hk & H & _)|(Hk & H)].
    + rewrite H, Hk. cbn. rewrite orb_true_r. reflexivity.
    + rewrite H, Hk. reflexivity.
Qed.

(** [step] always returns; its result in closed form. *)
Lemma step_returns (action : option (list R)) (self : Env Rng) :
  exists f,
    ball_friction (ball (fst (world_Step (world self)))) = Ok f /\
    step action self =
    Ok (let w := friction_applied f (fst (world_Step (world self))) in
        let g := deliver (snd (world_Step (world self))) (globals self) in
        mkEnv (fst (weld_pending w g)) (Some (gather (world self)))
              (np_random self) (snd (weld_pending w g))
              (numpy_global self) (spaces_random self),
        (gather (world self), 0, false)).
Proof.
  unfold RoboCup.step.
  destruct (world_Step (world self)) as [w1 contacts]. cbn [fst snd].
  destruct (applyBallFriction_returns w1) as (f & Hf & Happ).
  exists f. split; [exact Hf|].
  rewrite Happ. cbn [bind].
  unfold weld_pending, deliver.
  destruct (capture (fold_left _ contacts (globals self))); reflexivity.
Qed.

Lemma weld_pending_joints (w : World) (g : Globals) :
  joints (fst (weld_pending w g)) =
  joints w ++
  (if capture g
   then [(next_joint w,
          mkWeldJointDef (capture_robot_body g) (capture_ball_body g)
                         (capture_anchor g))]
   else []).
Proof.
  unfold weld_pending. destruct (capture g); cbn.
  - reflexivity.
  - rewrite app_nil_r. reflexivity.
Qed.

Lemma weld_pending_globals (w : World) (g : Globals) :
  capture (snd (weld_pending w g)) = false /\
  joint (snd (weld_pending w g)) =
  if capture g then Some (next_joint w) else joint g.
Proof.
  unfold weld_pending. destruct (capture g) eqn:E; cbn; auto.
Qed.

Lemma weld_pending_bodies (w : World) (g : Globals) :
  ball (fst (weld_pending w g)) = ball w /\
  robot (fst (weld_pending w g)) = robot w.
Proof. unfold weld_pending. destruct (capture g); cbn; auto. Qed.

(** The joints after a call of [step]: those the engine left, and one more
    exactly when the flag was up at entry or some contact of the tick paired
    the ball with the kicker. *)
Lemma step_joints (action : option (list R)) (self : Env Rng) :
  let w1 := fst (world_Step (world self)) in
  let raised :=
    capture (globals self) ||
    existsb kicker_ball_contact (snd (world_Step (world self))) in
  exists self' obs d,
    step action self = Ok (self', obs) /\
    capture (globals self') = false /\
    joints (world self') =
    joints w1 ++ (if raised then [(next_joint w1, d)] else []) /\
    joint (globals self') =
    (if raised then Some (next_joint w1) else joint (globals self)).
Proof.
  intros w1 raised.
  destruct (step_returns action self) as (f & _ & Hstep).
  do 2 eexists.
  exists (mkWeldJointDef
            (capture_robot_body (deliver (snd (world_Step (world self))) (globals self)))
            (capture_ball_body (deliver (snd (world_Step (world self))) (globals self)))
            (capture_anchor (deliver (snd (world_Step (world self))) (globals self)))).
  split; [exact Hstep|].
  cbn zeta. cbn [globals world].
  rewrite weld_pending_joints.
  destruct (weld_pending_globals
              (friction_applied f (fst (world_Step (world self))))
              (deliver (snd (world_Step (world self))) (globals self)))
    as [Hc Hj].
  rewrite Hc, Hj, deliver_capture, deliver_joint, friction_applied_joints.
  fold raised. fold w1.
  repeat split.
Qed.

(** [shoot] by cases on the handle held. *)
Lemma shoot_none (self : Env Rng) :
  joint (globals self) = None -> shoot self = Ok self.
Proof. intros H. unfold RoboCup.shoot. rewrite H. reflexivity. Qed.

Lemma shoot_stale (self : Env Rng) (j : nat) :
  joint (globals self) = Some j -> has_joint j (world self) = false ->
  shoot self = Raise EngineError.
Proof.
  intros H Hj. unfold RoboCup.shoot, DestroyJoint. rewrite H, Hj. reflexivity.
Qed.

Lemma shoot_held (self : Env Rng) (j : nat) :
  joint (globals self) = Some j -> has_joint j (world self) = true ->
  shoot self =
  Ok (mkEnv
        (mkWorld
           (ApplyForce
              (mkVec2 (0.1 * cos (angle (robot (world self))))
                      (0.1 * sin (angle (robot (world self)))))
              (worldCenter (robot (world self))) true (ball (world self)))
           (robot (world self))
           (filter (fun jd => negb (Nat.eqb (fst jd) j)) (joints (world self)))
           (next_joint (world self)))
        (state self) (np_random self)
        (mkGlobals (capture (globals self)) (capture_ball_body (globals self))
                   (capture_robot_body (globals self))
                   (capture_anchor (globals self)) None)
        (numpy_global self) (spaces_random self)).
Proof.
  intros H Hj. unfold RoboCup.shoot, DestroyJoint. rewrite H, Hj. reflexivity.
Qed.

Lemma shoot_globals (self self' : Env Rng) :
  shoot self = Ok self' ->
  capture (globals self') = capture (globals self) /\
  joint (globals self') = None.
Proof.
  destruct (joint (globals self)) as [j|] eqn:Ej.
  - destruct (has_joint j (world self)) eqn:Eh.
    + rewrite (shoot_held self j Ej Eh). intros [= <-]. cbn. auto.
    + rewrite (shoot_stale self j Ej Eh). discriminate.
  - rewrite (shoot_none self Ej). intros [= <-]. auto.
Qed.

Lemma filter_other_joints (j : nat) (js : list (nat * WeldJointDef)) :
  existsb (fun jd => Nat.eqb (fst jd) j)
          (filter (fun jd => negb (Nat.eqb (fst jd) j)) js) = false.
Proof.
  induction js as [|[k d] js IH]; cbn.
  - reflexivity.
  - destruct (Nat.eqb k j) eqn:E; cbn.
    + exact IH.
    + rewrite E. exact IH.
Qed.

(** [reset] rebuilds the world without a joint but leaves the globals, and
    with them a handle held, as they are: [shoot] after such a [reset] hands
    the engine a joint that it has destroyed. *)
Lemma reset_keeps_globals (self : Env Rng) :
  globals (reset self) = globals self /\ joints (world (reset self)) = [].
Proof.
  unfold RoboCup.reset.
  destruct (observation_space_sample _ _ _ _ _) as [[[[[rx ry] rh] [[rvx rvy] rvh]]
                                                      [[bx by_] [bvx bvy]]] [sp np]].
  cbn. auto.
Qed.

Lemma shoot_after_reset_stale_handle (self : Env Rng) (j : nat) :
  joint (globals self) = Some j ->
  shoot (reset self) = Raise EngineError.
Proof.
  intros Hj. destruct (reset_keeps_globals self) as [Hg Hw].
  apply (shoot_stale (reset self) j).
  - rewrite Hg. exact Hj.
  - unfold has_joint. rewrite Hw. reflexivity.
Qed.

(** Between two calls the flag is down: [step] clears it before it returns,
    [shoot] and [reset] do not touch it. *)
Lemma call_capture_down (c : Call) (self self' : Env Rng) :
  capture (globals self) = false ->
  call uniform randn ball_massData robot_massData world_Step c self = Ok self' ->
  capture (globals self') = false.
Proof.
  intros Hc. destruct c as [a| |]; cbn [call].
  - destruct (step_returns a self) as (f & _ & ->). cbn [bind].
    intros [= <-]. cbn [globals]. apply weld_pending_globals.
  - intros Hs. destruct (shoot_globals self self' Hs) as [-> _]. exact Hc.
  - intros [= <-]. rewrite (proj1 (reset_keeps_globals self)). exact Hc.
Qed.

Lemma run_capture_down (cs : list Call) (self self' : Env Rng) :
  capture (globals self) = false ->
  run cs self = Ok self' ->
  capture (globals self') = false.
Proof.
  revert self. induction cs as [|c cs IH]; intros self Hc; cbn [RoboCup.run].
  - intros [= <-]. exact Hc.
  - destruct (call _ _ _ _ _ c self) as [self1|e] eqn:E; cbn [bind].
    + apply IH. eapply call_capture_down; eassumption.
    + discriminate.
Qed.

Lemma shoot_force_magnitude (h : R) : vnorm (mkVec2 (0.1 * cos h) (0.1 * sin h)) = 0.1.
Proof.
  change (mkVec2 (0.1 * cos h) (0.1 * sin h)) with (vscale 0.1 (mkVec2 (cos h) (sin h))).
  rewrite vnorm_vscale. unfold vnorm. cbn [vx vy].
  replace (cos h ^ 2 + sin h ^ 2) with 1.
  - rewrite sqrt_1, Rabs_pos_eq; lra.
  - pose proof (sin2_cos2 h) as H. unfold Rsqr in H. lra.
Qed.

(** [C7]: [shoot] after a capture and a [reset].  On a tick that reports the
    ball on the kicker, [step] welds the ball to the robot and holds the
    handle of the joint; [shoot] would now release the ball and clear the
    handle.  [reset] instead rebuilds the world: no joint is left and the
    capture flag is down, so no capture is active, but the handle is still
    held.  [shoot] then passes its guard and hands the engine the joint that
    went with the old bodies, which the engine reports as an error: it is
    not the call without effect that it is when no handle is held. *)
Theorem shoot_after_capture_and_reset
  (action : option (list R)) (self : Env Rng)
  (Hkick : existsb kicker_ball_contact (snd (world_Step (world self))) = true) :
  let j := next_joint (fst (world_Step (world self))) in
  exists self1 obs,
    step action self = Ok (self1, obs) /\
    joint (globals self1) = Some j /\
    has_joint j (world self1) = true /\
    (exists released,
       shoot self1 = Ok released /\
       joint (globals released) = None /\
       has_joint j (world released) = false) /\
    let self2 := reset self1 in
    joints (world self2) = [] /\
    capture (globals self2) = false /\
    joint (globals self2) = Some j /\
    shoot self2 = Raise EngineError /\
    shoot self2 <> Ok self2.
Proof.
  intros j.
  destruct (step_joints action self) as (self1 & obs & d & Hstep & Hc & Hjs & Hj).
  cbn zeta in Hjs, Hj. rewrite Hkick, orb_true_r in Hjs, Hj. fold j in Hjs, Hj.
  assert (Hlive : has_joint j (world self1) = true).
  { unfold has_joint. rewrite Hjs, existsb_app. cbn [existsb fst].
    rewrite Nat.eqb_refl. cbn [orb]. apply orb_true_r. }
  exists self1, obs.
  split; [exact Hstep|]. split; [exact Hj|]. split; [exact Hlive|].
  split.
  { eexists. split; [apply (shoot_held self1 j Hj Hlive)|].
    cbn [globals world joint]. split; [reflexivity|].
    unfold has_joint. cbn [joints]. apply filter_other_joints. }
  cbn zeta.
  destruct (reset_keeps_globals self1) as [Hg Hw].
  pose proof (shoot_after_reset_stale_handle self1 j Hj) as Hshoot.
  repeat split.
  - exact Hw.
  - rewrite Hg. exact Hc.
  - rewrite Hg. exact Hj.
  - exact Hshoot.
  - rewrite Hshoot. discriminate.
Qed.

(** [C9]: every call of [step] returns, as observation, the positions and
    the velocities that the two bodies had at entry: the robot's position,
    heading, linear and angular velocity, the ball's position and linear
    velocity, component by component, with reward 0 and [done] false,
    whatever the action and whatever the engine does during the call; it
    also stores that tuple in [self.state].  After the call the bodies have
    the positions and velocities that the engine's tick gave them (the
    friction force and the weld joint move no body), and these are what the
    next call of [step] returns, whatever its action. *)
Theorem step_observation_is_entry_state
  (action : option (list R)) (self : Env Rng) :
  let r := robot (world self) in
  let b := ball (world self) in
  let r1 := robot (fst (world_Step (world self))) in
  let b1 := ball (fst (world_Step (world self))) in
  let entry : State :=
    (((vx (position r), vy (position r), angle r),
      (vx (linearVelocity r), vy (linearVelocity r), angularVelocity r)),
     ((vx (position b), vy (position b)),
      (vx (linearVelocity b), vy (linearVelocity b)))) in
  let after : State :=
    (((vx (position r1), vy (position r1), angle r1),
      (vx (linearVelocity r1), vy (linearVelocity r1), angularVelocity r1)),
     ((vx (position b1), vy (position b1)),
      (vx (linearVelocity b1), vy (linearVelocity b1)))) in
  exists self',
    step action self = Ok (self', (entry, 0, false)) /\
    state self' = Some entry /\
    (position (robot (world self')) = position r1 /\
     angle (robot (world self')) = angle r1 /\
     linearVelocity (robot (world self')) = linearVelocity r1 /\
     angularVelocity (robot (world self')) = angularVelocity r1 /\
     position (ball (world self')) = position b1 /\
     linearVelocity (ball (world self')) = linearVelocity b1) /\
    forall action',
    exists self'',
      step action' self' = Ok (self'', (after, 0, false)).
Proof.
  intros r b r1 b1 entry after.
  destruct (step_returns action self) as (f & _ & Hstep).
  eexists. split; [exact Hstep|].
  cbn zeta. cbn [state world].
  destruct (weld_pending_bodies
              (friction_applied f (fst (world_Step (world self))))
              (deliver (snd (world_Step (world self))) (globals self)))
    as [Hb Hr].
  split; [reflexivity|].
  split; [rewrite Hb, Hr; repeat split|].
  intros action'.
  match goal with |- context [step action' ?e] =>
    destruct (step_returns action' e) as (f' & _ & Hstep') end.
  eexists. rewrite Hstep'. cbn [world]. unfold gather.
  rewrite Hb, Hr. reflexivity.
Qed.

Lemma deliver_filtered (cs : list Contact) (g : Globals) :
  forallb (fun c => negb (kicker_ball_contact c)) cs = true ->
  deliver cs g = g.
Proof.
  revert g. induction cs as [|c cs IH]; intros g; cbn.
  - reflexivity.
  - rewrite andb_true_iff, negb_true_iff. intros [Hc Hcs].
    destruct (BeginContact_cases c g) as [(Hk & _)|(_ & ->)].
    + congruence.
    + apply IH. exact Hcs.
Qed.

Lemma call_one_joint_at_most (c : Call) (self self' : Env Rng) :
  preserves_joints world_Step ->
  filters_connected world_Step ->
  one_joint_at_most self ->
  call uniform randn ball_massData robot_massData world_Step c self = Ok self' ->
  one_joint_at_most self'.
Proof.
  intros Hpres Hfilt [Hc Hj]. destruct c as [a| |]; cbn [call].
  - destruct (step_returns a self) as (f & _ & ->). cbn [bind].
    intros [= <-]. unfold one_joint_at_most. cbn [globals world].
    split; [apply weld_pending_globals|].
    rewrite weld_pending_joints.
    rewrite (proj2 (weld_pending_globals _ _)).
    rewrite friction_applied_joints, Hpres.
    destruct Hj as [Hj|(j & d & Hj & Hh)].
    + rewrite Hj. cbn [app].
      destruct (capture (deliver _ _)).
      * right. do 2 eexists. split; reflexivity.
      * left. reflexivity.
    + rewrite deliver_filtered by (apply Hfilt; rewrite Hj; discriminate).
      rewrite Hc, Hj. right. exists j, d. split; [reflexivity|exact Hh].
  - unfold one_joint_at_most.
    destruct (joint (globals self)) as [h|] eqn:Eh.
    + destruct (has_joint h (world self)) eqn:El.
      * rewrite (shoot_held self h Eh El). intros [= <-].
        cbn [globals world joints capture].
        split; [exact Hc|]. left.
        destruct Hj as [->|(j & d & -> & Hh)].
        -- reflexivity.
        -- injection Hh as ->. cbn. rewrite Nat.eqb_refl. reflexivity.
      * rewrite (shoot_stale self h Eh El). discriminate.
    + rewrite (shoot_none self Eh). intros [= <-].
      split; [exact Hc|]. rewrite Eh. exact Hj.
  - intros [= <-]. unfold one_joint_at_most.
    destruct (reset_keeps_globals self) as [-> ->].
    split; [exact Hc|]. left. reflexivity.
Qed.

Lemma filtered_no_kicker (cs : list Contact) :
  forallb (fun c => negb (kicker_ball_contact c)) cs = true ->
  existsb kicker_ball_contact cs = false.
Proof.
  induction cs as [|c cs IH]; cbn.
  - reflexivity.
  - rewrite andb_true_iff, negb_true_iff. intros [-> H]. apply IH, H.
Qed.

(** Without [reset], from an environment whose handle (if any) is that of
    the one joint of the world, every call returns. *)
Lemma call_holds_live_joint (c : Call) (self : Env Rng) :
  preserves_joints world_Step ->
  filters_connected world_Step ->
  holds_live_joint self ->
  c <> CallReset ->
  exists self',
    call uniform randn ball_massData robot_massData world_Step c self = Ok self' /\
    holds_live_joint self'.
Proof.
  intros Hpres Hfilt [Hc Hj] Hc'. destruct c as [a| |]; cbn [call].
  - destruct (step_joints a self) as (self' & obs & d & -> & Hc1 & Hj1 & Hh1).
    cbn [bind]. exists self'. split; [reflexivity|].
    split; [exact Hc1|].
    rewrite Hj1, Hh1, Hpres, Hc. cbn [orb].
    destruct Hj as [[Hj Hh]|(j & d' & Hj & Hh)].
    + rewrite Hj. cbn [app].
      destruct (existsb _ _).
      * right. do 2 eexists. split; reflexivity.
      * left. split; [reflexivity|exact Hh].
    + assert (E : existsb kicker_ball_contact (snd (world_Step (world self))) = false).
      { apply filtered_no_kicker, Hfilt. rewrite Hj. discriminate. }
      rewrite E, Hj. right. exists j, d'. split; [reflexivity|exact Hh].
  - destruct Hj as [[Hj Hh]|(j & d & Hj & Hh)].
    + rewrite (shoot_none self Hh). exists self. split; [reflexivity|].
      split; [exact Hc|]. left. split; assumption.
    + assert (El : has_joint j (world self) = true).
      { unfold has_joint. rewrite Hj. cbn. rewrite Nat.eqb_refl. reflexivity. }
      rewrite (shoot_held self j Hh El). eexists. split; [reflexivity|].
      split; [exact Hc|]. left. cbn [world globals joints joint].
      rewrite Hj. cbn. rewrite Nat.eqb_refl. split; reflexivity.
  - congruence.
Qed.

Lemma run_holds_live_joint (cs : list Call) (self : Env Rng) :
  preserves_joints world_Step ->
  filters_connected world_Step ->
  holds_live_joint self ->
  Forall (fun c => c <> CallReset) cs ->
  exists self', run cs self = Ok self' /\ holds_live_joint self'.
Proof.
  intros Hpres Hfilt. revert self.
  induction cs as [|c cs IH]; intros self Hinv Hcs; cbn [RoboCup.run].
  - exists self. split; [reflexivity|exact Hinv].
  - inversion Hcs as [|? ? Hc Hcs']; subst.
    destruct (call_holds_live_joint c self Hpres Hfilt Hinv Hc) as (self1 & -> & Hinv1).
    cbn [bind]. apply IH; assumption.
Qed.

Lemma run_one_joint_at_most (cs : list Call) (self self' : Env Rng) :
  preserves_joints world_Step ->
  filters_connected world_Step ->
  one_joint_at_most self ->
  run cs self = Ok self' ->
  one_joint_at_most self'.
Proof.
  intros Hpres Hfilt. revert self.
  induction cs as [|c cs IH]; intros self Hinv; cbn [RoboCup.run].
  - intros [= <-]. exact Hinv.
  - destruct (call _ _ _ _ _ c self) as [self1|e] eqn:E; cbn [bind].
    + apply IH. eapply call_one_joint_at_most; eassumption.
    + discriminate.
Qed.

(** [C1], amended: the capture flag goes up only on a touching begin-contact
    that pairs the ball with the robot's kicker fixture; a further such
    contact while the flag is up changes neither the flag nor the joint held
    (only the recorded bodies and anchor); a call of [step] lowers the flag
    and creates one weld joint when the flag was raised, none otherwise,
    however many contacts the tick delivered; and as long as the engine
    leaves the joints alone and reports no ball/kicker contact while the
    world holds a joint, at most one weld joint exists after any sequence of
    [step], [shoot] and [reset]. *)
Theorem capture_one_weld_per_tick :
  (forall c g,
      capture g = false -> capture (BeginContact c g) = true ->
      kicker_ball_contact c = true) /\
  (forall c g,
      capture g = true ->
      capture (BeginContact c g) = true /\
      joint (BeginContact c g) = joint g) /\
  (forall action (self : Env Rng),
      exists self' obs,
        step action self = Ok (self', obs) /\
        capture (globals self') = false /\
        length (joints (world self')) =
        (length (joints (fst (world_Step (world self)))) +
         (if capture (globals self) ||
             existsb kicker_ball_contact (snd (world_Step (world self)))
          then 1 else 0))%nat) /\
  (forall (env0 self : Env Rng) cs,
      preserves_joints world_Step ->
      filters_connected world_Step ->
      one_joint_at_most env0 ->
      run cs env0 = Ok self ->
      (length (joints (world self)) <= 1)%nat).
Proof.
  split; [|split; [|split]].
  - intros c g Hg Hc.
    destruct (BeginContact_cases c g) as [(Hk & _)|(_ & H)].
    + exact Hk.
    + rewrite H in Hc. congruence.
  - intros c g Hg.
    destruct (BeginContact_cases c g) as [(_ & H1 & H2 & _)|(_ & H)].
    + split; assumption.
    + rewrite H. split; [exact Hg|reflexivity].
  - intros action self.
    destruct (step_joints action self) as (self' & obs & d & Hs & Hc & Hj & _).
    exists self', obs. split; [exact Hs|]. split; [exact Hc|].
    rewrite Hj, length_app.
    destruct (capture (globals self) || _); reflexivity.
  - intros env0 self cs Hpres Hfilt Hinv Hrun.
    destruct (run_one_joint_at_most cs env0 self Hpres Hfilt Hinv Hrun)
      as [_ [H|(j & d & H & _)]]; rewrite H; cbn; lia.
Qed.

End CaptureFacts.

(** ** The capture machine on the example engines *)

Section CaptureExamples.
Import Box2D RoboCup.

Lemma kick_every_tick_preserves_joints : preserves_joints kick_every_tick.
Proof. intros w. reflexivity. Qed.

Lemma kick_when_free_preserves_joints : preserves_joints kick_when_free.
Proof. intros w. reflexivity. Qed.

Lemma kick_when_free_filters_connected : filters_connected kick_when_free.
Proof.
  intros w Hw. unfold kick_when_free. cbn [snd].
  destruct (joints w); [contradiction|reflexivity].
Qed.

Lemma free_env_one_joint_at_most : one_joint_at_most free_env.
Proof. split; [reflexivity|left; reflexivity]. Qed.

Lemma free_env_holds_live_joint : holds_live_joint free_env.
Proof. split; [reflexivity|left; split; reflexivity]. Qed.

Lemma capture_one_weld_per_tick_witness :
  exists self,
    run toy_uniform toy_randn (1, vzero) (1, vzero) kick_when_free
        [CallStep None; CallStep None; CallShoot; CallStep None]
        free_env = Ok self /\
    (length (joints (world self)) <= 1)%nat.
Proof.
  destruct (run_holds_live_joint Z toy_uniform toy_randn (1, vzero) (1, vzero)
              kick_when_free
              [CallStep None; CallStep None; CallShoot; CallStep None]
              free_env
              kick_when_free_preserves_joints
              kick_when_free_filters_connected
              free_env_holds_live_joint) as (self & Hrun & _).
  - repeat constructor; discriminate.
  - exists self. split; [exact Hrun|].
    apply (proj2 (proj2 (proj2
             (capture_one_weld_per_tick Z toy_uniform toy_randn (1, vzero) (1, vzero)
                                        kick_when_free)))
             free_env self
             [CallStep None; CallStep None; CallShoot; CallStep None]).
    + exact kick_when_free_preserves_joints.
    + exact kick_when_free_filters_connected.
    + exact free_env_one_joint_at_most.
    + exact Hrun.
Defined.

(** Counterexample to [C1] as stated: an engine that leaves the joints
    alone and reports the ball on the kicker at every tick.  The first call
    of [step] leaves the machine [Captured] with one weld joint; the contact
    of the second tick arrives in that state and is no no-op: the second
    call creates a second weld joint. *)
Lemma second_contact_while_captured_welds_again :
  preserves_joints kick_every_tick /\
  exists self1 self2 obs1 obs2,
    step kick_every_tick None free_env = Ok (self1, obs1) /\
    capture_state (globals self1) = Captured /\
    length (joints (world self1)) = 1%nat /\
    step kick_every_tick None self1 = Ok (self2, obs2) /\
    length (joints (world self2)) = 2%nat.
Proof.
  split; [exact kick_every_tick_preserves_joints|].
  destruct (step_joints Z kick_every_tick None free_env)
    as (self1 & obs1 & d1 & Hs1 & Hc1 & Hj1 & Hh1).
  destruct (step_joints Z kick_every_tick None self1)
    as (self2 & obs2 & d2 & Hs2 & Hc2 & Hj2 & Hh2).
  exists self1, self2, obs1, obs2.
  cbn [kick_every_tick fst snd existsb] in Hj1, Hh1, Hj2, Hh2.
  change (kicker_ball_contact kicker_contact) with true in Hj1, Hh1, Hj2, Hh2.
  rewrite orb_true_r in Hj1, Hh1, Hj2, Hh2.
  repeat split.
  - exact Hs1.
  - unfold capture_state. rewrite Hc1, Hh1. reflexivity.
  - rewrite Hj1. reflexivity.
  - exact Hs2.
  - rewrite Hj2, Hj1. reflexivity.
Qed.

Lemma shoot_after_capture_and_reset_witness :
  exists self1 obs,
    step kick_when_free None free_env = Ok (self1, obs) /\
    joint (globals self1) = Some 0%nat /\
    has_joint 0 (world self1) = true /\
    (exists released,
       shoot self1 = Ok released /\
       joint (globals released) = None /\
       has_joint 0 (world released) = false) /\
    let self2 := reset toy_uniform toy_randn (1, vzero) (1, vzero) self1 in
    joints (world self2) = [] /\
    capture (globals self2) = false /\
    joint (globals self2) = Some 0%nat /\
    shoot self2 = Raise EngineError /\
    shoot self2 <> Ok self2.
Proof.
  apply (shoot_after_capture_and_reset Z toy_uniform toy_randn (1, vzero) (1, vzero)
           kick_when_free None free_env).
  reflexivity.
Defined.

End CaptureExamples.

(** ** The collect task: [task_reset] *)

Lemma update_length {A : Type} (s : list A) (i : nat) (v : A) :
  length (update s i v) = length s.
Proof.
  revert i. induction s as [|h t IH]; intros [|i]; cbn; try reflexivity.
  rewrite IH. reflexivity.
Qed.

Lemma nth_update_eq {A : Type} (s : list A) (i : nat) (v d : A) :
  (i < length s)%nat -> nth i (update s i v) d = v.
Proof.
  revert i. induction s as [|h t IH]; intros [|i]; cbn; intros H; try lia.
  - reflexivity.
  - apply IH. lia.
Qed.

Lemma nth_update_ne {A : Type} (s : list A) (i j : nat) (v d : A) :
  i <> j -> nth j (update s i v) d = nth j s d.
Proof.
  revert i j. induction s as [|h t IH]; intros [|i] [|j] H; cbn;
    try reflexivity; try congruence.
  apply IH. congruence.
Qed.

Lemma setitem_ok {A : Type} (s : list A) (i : nat) (v : A) :
  (i < length s)%nat -> setitem s i v = Ok (update s i v).
Proof.
  intros H. unfold setitem.
  apply Nat.ltb_lt in H. rewrite H. reflexivity.
Qed.

Section TaskResetFacts.
Import Collect.

Variables BALL_X BALL_Y BALL_DX BALL_DY : nat.

(** One block of [task_reset] on a vector that has both indices. *)
Lemma side_returns (P D : nat) (near toward : R -> bool) (boundary : R)
      (a_min a_max : option R) (s : list R) :
  P <> D -> (P < length s)%nat -> (D < length s)%nat ->
  exists s',
    side P D near toward boundary a_min a_max s = Ok s' /\
    length s' = length s /\
    nth P s' 0 =
    (if near (nth P s 0) && toward (nth D s 0) then boundary else nth P s 0) /\
    nth D s' 0 =
    (if near (nth P s 0) then clip (nth D s 0) a_min a_max else nth D s 0) /\
    forall k, k <> P -> k <> D -> nth k s' 0 = nth k s 0.
Proof.
  intros Hne HP HD. unfold side.
  rewrite (getitem_nth s P HP). cbn [bind].
  destruct (near (nth P s 0)); cbn [andb].
  - rewrite (getitem_nth s D HD). cbn [bind].
    destruct (toward (nth D s 0)).
    + rewrite setitem_ok by exact HP. cbn [bind].
      rewrite getitem_nth by (rewrite update_length; exact HD). cbn [bind].
      rewrite setitem_ok by (rewrite update_length; exact HD).
      eexists. split; [reflexivity|].
      rewrite !update_length. split; [reflexivity|].
      rewrite (nth_update_ne (update s P boundary) D P) by congruence.
      rewrite nth_update_eq by exact HP.
      rewrite nth_update_eq by (rewrite update_length; exact HD).
      rewrite (nth_update_ne s P D) by exact Hne.
      repeat split.
      intros k HkP HkD. rewrite !nth_update_ne by congruence. reflexivity.
    + cbn [bind]. rewrite (getitem_nth s D HD). cbn [bind].
      rewrite setitem_ok by exact HD.
      eexists. split; [reflexivity|].
      rewrite update_length. split; [reflexivity|].
      rewrite nth_update_ne by congruence.
      rewrite nth_update_eq by exact HD.
      repeat split.
      intros k HkP HkD. rewrite nth_update_ne by congruence. reflexivity.
  - exists s. repeat split.
Qed.

Lemma clip_total_returns (D : nat) (s : list R) :
  (D < length s)%nat ->
  exists s',
    clip_total D s = Ok s' /\
    length s' = length s /\
    nth D s' 0 = clip (nth D s 0) (Some (- (1.0))) (Some 1.0) /\
    forall k, k <> D -> nth k s' 0 = nth k s 0.
Proof.
  intros HD. unfold clip_total.
  rewrite (getitem_nth s D HD). cbn [bind].
  rewrite setitem_ok by exact HD.
  eexists. split; [reflexivity|].
  rewrite update_length, nth_update_eq by exact HD.
  repeat split.
  intros k Hk. rewrite nth_update_ne by congruence. reflexivity.
Qed.

Lemma bind_side_congr {A : Type} (P D : nat) (near toward : R -> bool)
      (boundary : R) (a_min a_max : option R) (s : list R)
      (k k' : list R -> Result A) :
  (forall s', k s' = k' s') ->
  (p <- getitem s P ;;
   s' <- (if near p then
            d <- getitem s D ;;
            s1 <- (if toward d then setitem s P boundary else Ok s) ;;
            d <- getitem s1 D ;;
            setitem s1 D (clip d a_min a_max)
          else Ok s) ;;
   k s') =
  (s' <- side P D near toward boundary a_min a_max s ;; k' s').
Proof.
  intros Hk. unfold side.
  destruct (getitem s P) as [p|e]; cbn [bind]; [|reflexivity].
  destruct (if near p then _ else _) as [s'|e]; cbn [bind]; [apply Hk|reflexivity].
Qed.

Lemma bind_clip_total_congr {A : Type} (D : nat) (s : list R)
      (k k' : list R -> Result A) :
  (forall s', k s' = k' s') ->
  (d <- getitem s D ;;
   s' <- setitem s D (clip d (Some (- (1.0))) (Some 1.0)) ;;
   k s') =
  (s' <- clip_total D s ;; k' s').
Proof.
  intros Hk. unfold clip_total.
  destruct (getitem s D) as [d|e]; cbn [bind]; [|reflexivity].
  destruct (setitem s D _) as [s'|e]; cbn [bind]; [apply Hk|reflexivity].
Qed.

(** [task_reset] is its four blocks and the two final clips in a row. *)
Lemma task_reset_blocks (self : RoboCupCollect) :
  task_reset BALL_X BALL_Y BALL_DX BALL_DY self =
  (s <- side BALL_X BALL_DX (fun x => Rleb x (Constants.FIELD_MIN_X + 1.0))
             (fun d => Rltb d 0) (Constants.FIELD_MIN_X + 1.0)
             (Some (- (0.3))) None (state self) ;;
   s <- side BALL_X BALL_DX (fun x => Rgeb x (Constants.FIELD_MAX_X - 1.0))
             (fun d => Rgtb d 0) (Constants.FIELD_MAX_X - 1.0)
             None (Some 0.3) s ;;
   s <- side BALL_Y BALL_DY (fun y => Rleb y (Constants.FIELD_MIN_Y + 1.0))
             (fun d => Rltb d 0) (Constants.FIELD_MIN_Y + 1.0)
             (Some (- (0.3))) None s ;;
   s <- side BALL_Y BALL_DY (fun y => Rgeb y (Constants.FIELD_MAX_Y - 1.0))
             (fun d => Rgtb d 0) (Constants.FIELD_MAX_Y - 1.0)
             None (Some 0.3) s ;;
   s <- clip_total BALL_DX s ;;
   s <- clip_total BALL_DY s ;;
   Ok (set_state s self)).
Proof.
  unfold task_reset. cbv zeta.
  do 4 (match goal with
        | |- _ = bind (side ?P ?D ?n ?t ?b ?lo ?hi ?s) ?k' =>
            apply (bind_side_congr P D n t b lo hi s _ k'); intros ?
        end).
  do 2 (match goal with
        | |- _ = bind (clip_total ?D ?s) ?k' =>
            apply (bind_clip_total_congr D s _ k'); intros ?
        end).
  reflexivity.
Qed.

Lemma axis_reset_bounds (lo hi p d : R) :
  lo + 1.0 < hi - 1.0 ->
  - (1.0) <= snd (axis_reset lo hi p d) <= 1.0 /\
  (p <= lo + 1.0 ->
   - (0.3) <= snd (axis_reset lo hi p d) /\
   (d < 0 -> fst (axis_reset lo hi p d) = lo + 1.0)) /\
  (p >= hi - 1.0 ->
   snd (axis_reset lo hi p d) <= 0.3 /\
   (d > 0 -> fst (axis_reset lo hi p d) = hi - 1.0)).
Proof.
  intros Hgap.
  unfold axis_reset, clip, Rgeb, Rgtb, Rleb, Rltb, Rmax, Rmin.
  repeat (match goal with
          | |- context [Rle_dec ?a ?b] => destruct (Rle_dec a b)
          | |- context [Rlt_dec ?a ?b] => destruct (Rlt_dec a b)
          end; cbn [fst snd]);
    repeat split; intros;
    repeat match goal with
           | H : context [Rle_dec ?a ?b] |- _ => destruct (Rle_dec a b)
           | H : context [Rlt_dec ?a ?b] |- _ => destruct (Rlt_dec a b)
           end;
    lra.
Qed.

Hypothesis Hdistinct : NoDup [BALL_X; BALL_Y; BALL_DX; BALL_DY].

(** With the four indices distinct and within the vector, [task_reset]
    returns, and treats the two axes independently of each other. *)
Lemma task_reset_returns (self : RoboCupCollect) :
  (BALL_X < length (state self))%nat ->
  (BALL_Y < length (state self))%nat ->
  (BALL_DX < length (state self))%nat ->
  (BALL_DY < length (state self))%nat ->
  exists s',
    task_reset BALL_X BALL_Y BALL_DX BALL_DY self = Ok (set_state s' self) /\
    length s' = length (state self) /\
    (nth BALL_X s' 0, nth BALL_DX s' 0) =
    axis_reset Constants.FIELD_MIN_X Constants.FIELD_MAX_X
               (nth BALL_X (state self) 0) (nth BALL_DX (state self) 0) /\
    (nth BALL_Y s' 0, nth BALL_DY s' 0) =
    axis_reset Constants.FIELD_MIN_Y Constants.FIELD_MAX_Y
               (nth BALL_Y (state self) 0) (nth BALL_DY (state self) 0) /\
    forall k, ~ In k [BALL_X; BALL_Y; BALL_DX; BALL_DY] ->
              nth k s' 0 = nth k (state self) 0.
Proof.
  intros HX HY HDX HDY.
  assert (Hne : BALL_X <> BALL_Y /\ BALL_X <> BALL_DX /\ BALL_X <> BALL_DY /\
                BALL_Y <> BALL_DX /\ BALL_Y <> BALL_DY /\ BALL_DX <> BALL_DY).
  { inversion Hdistinct as [|? ? H1 H1']; subst.
    inversion H1' as [|? ? H2 H2']; subst.
    inversion H2' as [|? ? H3 _]; subst.
    cbn [In] in H1, H2, H3. repeat split; intros ->; tauto. }
  destruct Hne as (Hxy & Hxdx & Hxdy & Hydx & Hydy & Hdxdy).
  rewrite task_reset_blocks.
  set (s0 := state self) in *.
  destruct (side_returns BALL_X BALL_DX
              (fun x => Rleb x (Constants.FIELD_MIN_X + 1.0)) (fun d => Rltb d 0)
              (Constants.FIELD_MIN_X + 1.0) (Some (- (0.3))) None s0 Hxdx HX HDX)
    as (s1 & -> & L1 & P1 & D1 & O1). cbn [bind].
  destruct (side_returns BALL_X BALL_DX
              (fun x => Rgeb x (Constants.FIELD_MAX_X - 1.0)) (fun d => Rgtb d 0)
              (Constants.FIELD_MAX_X - 1.0) None (Some 0.3) s1 Hxdx
              ltac:(lia) ltac:(lia))
    as (s2 & -> & L2 & P2 & D2 & O2). cbn [bind].
  destruct (side_returns BALL_Y BALL_DY
              (fun y => Rleb y (Constants.FIELD_MIN_Y + 1.0)) (fun d => Rltb d 0)
              (Constants.FIELD_MIN_Y + 1.0) (Some (- (0.3))) None s2 Hydy
              ltac:(lia) ltac:(lia))
    as (s3 & -> & L3 & P3 & D3 & O3). cbn [bind].
  destruct (side_returns BALL_Y BALL_DY
              (fun y => Rgeb y (Constants.FIELD_MAX_Y - 1.0)) (fun d => Rgtb d 0)
              (Constants.FIELD_MAX_Y - 1.0) None (Some 0.3) s3 Hydy
              ltac:(lia) ltac:(lia))
    as (s4 & -> & L4 & P4 & D4 & O4). cbn [bind].
  destruct (clip_total_returns BALL_DX s4 ltac:(lia))
    as (s5 & -> & L5 & D5 & O5). cbn [bind].
  destruct (clip_total_returns BALL_DY s5 ltac:(lia))
    as (s6 & -> & L6 & D6 & O6). cbn [bind].
  exists s6. split; [reflexivity|]. split; [lia|].
  split; [|split].
  - rewrite (O6 BALL_X), (O5 BALL_X) by congruence.
    rewrite (O4 BALL_X), (O3 BALL_X) by congruence.
    rewrite (O6 BALL_DX) by congruence. rewrite D5.
    rewrite (O4 BALL_DX), (O3 BALL_DX) by congruence.
    rewrite P2, D2, P1, D1. unfold axis_reset.
    destruct (Rleb (nth BALL_X s0 0) _), (Rltb (nth BALL_DX s0 0) 0);
      cbn [andb];
      match goal with
      | |- context [Rgeb ?a ?b] => destruct (Rgeb a b)
      end;
      cbn [andb];
      try match goal with
      | |- context [Rgtb ?a ?b] => destruct (Rgtb a b)
      end; reflexivity.
  - rewrite (O6 BALL_Y), (O5 BALL_Y) by congruence.
    rewrite D6. rewrite (O5 BALL_DY) by congruence.
    rewrite P4, D4, P3, D3.
    rewrite (O2 BALL_Y), (O1 BALL_Y) by congruence.
    rewrite (O2 BALL_DY), (O1 BALL_DY) by congruence.
    unfold axis_reset.
    destruct (Rleb (nth BALL_Y s0 0) _), (Rltb (nth BALL_DY s0 0) 0);
      cbn [andb];
      match goal with
      | |- context [Rgeb ?a ?b] => destruct (Rgeb a b)
      end;
      cbn [andb];
      try match goal with
      | |- context [Rgtb ?a ?b] => destruct (Rgtb a b)
      end; reflexivity.
  - intros k Hk. cbn [In] in Hk.
    rewrite O6, O5, O4, O3, O2, O1 by (intros ->; tauto). reflexivity.
Qed.

End TaskResetFacts.

(** [C10]: with the four ball indices distinct and within the state vector,
    [task_reset] returns, and afterwards both components of the ball's
    velocity lie in [[-1.0, 1.0]]; moreover, for each edge of the field, if
    the ball's position was within 1.0 of that edge (or beyond it), the
    velocity component toward the edge is at most 0.3 in magnitude, and if
    the ball was moving toward the edge its position on that axis is exactly
    the boundary 1.0 inside the edge. *)
Theorem task_reset_limits_ball
  (BALL_X BALL_Y BALL_DX BALL_DY : nat) (self : Collect.RoboCupCollect)
  (Hdistinct : NoDup [BALL_X; BALL_Y; BALL_DX; BALL_DY])
  (HX : (BALL_X < length (Collect.state self))%nat)
  (HY : (BALL_Y < length (Collect.state self))%nat)
  (HDX : (BALL_DX < length (Collect.state self))%nat)
  (HDY : (BALL_DY < length (Collect.state self))%nat) :
  exists self',
    Collect.task_reset BALL_X BALL_Y BALL_DX BALL_DY self = Ok self' /\
    let x := nth BALL_X (Collect.state self) 0 in
    let y := nth BALL_Y (Collect.state self) 0 in
    let dx := nth BALL_DX (Collect.state self) 0 in
    let dy := nth BALL_DY (Collect.state self) 0 in
    let x' := nth BALL_X (Collect.state self') 0 in
    let y' := nth BALL_Y (Collect.state self') 0 in
    let dx' := nth BALL_DX (Collect.state self') 0 in
    let dy' := nth BALL_DY (Collect.state self') 0 in
    - (1.0) <= dx' <= 1.0 /\
    - (1.0) <= dy' <= 1.0 /\
    (x <= Constants.FIELD_MIN_X + 1.0 ->
     - (0.3) <= dx' /\ (dx < 0 -> x' = Constants.FIELD_MIN_X + 1.0)) /\
    (x >= Constants.FIELD_MAX_X - 1.0 ->
     dx' <= 0.3 /\ (dx > 0 -> x' = Constants.FIELD_MAX_X - 1.0)) /\
    (y <= Constants.FIELD_MIN_Y + 1.0 ->
     - (0.3) <= dy' /\ (dy < 0 -> y' = Constants.FIELD_MIN_Y + 1.0)) /\
    (y >= Constants.FIELD_MAX_Y - 1.0 ->
     dy' <= 0.3 /\ (dy > 0 -> y' = Constants.FIELD_MAX_Y - 1.0)).
Proof.
  destruct (task_reset_returns BALL_X BALL_Y BALL_DX BALL_DY Hdistinct self
              HX HY HDX HDY) as (s' & Hret & _ & Hx & Hy & _).
  exists (Collect.set_state s' self). split; [exact Hret|].
  cbn zeta. cbn [Collect.state Collect.set_state].
  assert (Hgx : Constants.FIELD_MIN_X + 1.0 < Constants.FIELD_MAX_X - 1.0)
    by (unfold Constants.FIELD_MIN_X, Constants.FIELD_MAX_X, Constants.FIELD_SCALE; lra).
  assert (Hgy : Constants.FIELD_MIN_Y + 1.0 < Constants.FIELD_MAX_Y - 1.0)
    by (unfold Constants.FIELD_MIN_Y, Constants.FIELD_MAX_Y, Constants.FIELD_SCALE; lra).
  pose proof (axis_reset_bounds _ _ (nth BALL_X (Collect.state self) 0)
                (nth BALL_DX (Collect.state self) 0) Hgx) as Bx.
  pose proof (axis_reset_bounds _ _ (nth BALL_Y (Collect.state self) 0)
                (nth BALL_DY (Collect.state self) 0) Hgy) as By.
  rewrite <- Hx in Bx. rewrite <- Hy in By. cbn [fst snd] in Bx, By.
  tauto.
Qed.

Lemma task_reset_limits_ball_witness :
  exists self',
    Collect.task_reset 7 8 9 10 (collect_env_with_ball (-1.5) 0 (-2) 0) = Ok self' /\
    nth 7 (Collect.state self') 0 = Constants.FIELD_MIN_X + 1.0 /\
    - (0.3) <= nth 9 (Collect.state self') 0 <= 1.0.
Proof.
  destruct (task_reset_limits_ball 7 8 9 10 (collect_env_with_ball (-1.5) 0 (-2) 0))
    as (self' & Hret & Hdx & _ & Hleft & _).
  - repeat constructor; cbn; intuition discriminate.
  - cbn. lia.
  - cbn. lia.
  - cbn. lia.
  - cbn. lia.
  - exists self'. split; [exact Hret|].
    cbn [collect_env_with_ball Collect.state state_with_ball nth] in Hleft, Hdx.
    destruct Hleft as [Hv Hp].
    + unfold Constants.FIELD_MIN_X, Constants.FIELD_SCALE. lra.
    + split; [apply Hp; lra|]. lra.
Defined.

(** ** Seeding and [reset] *)

Section SeedFacts.
Import Box2D RoboCup.

Variable Rng : Type.
Variable seeding_np_random : option Z -> Rng * Z.
Variable uniform : R -> R -> Rng -> R * Rng.
Variable randn : Rng -> R * Rng.
Variable ball_massData : R * Vec2.
Variable robot_massData : R * Vec2.

Local Abbreviation seed := (seed seeding_np_random).
Local Abbreviation reset := (reset uniform randn ball_massData robot_massData).
Local Abbreviation sample := (observation_space_sample Rng uniform randn).

(** [seed] replaces the environment's own generator and nothing else. *)
Lemma seed_only_np_random (s : option Z) (self : Env Rng) :
  np_random (fst (seed s self)) = Some (fst (seeding_np_random s)) /\
  numpy_global (fst (seed s self)) = numpy_global self /\
  spaces_random (fst (seed s self)) = spaces_random self /\
  world (fst (seed s self)) = world self /\
  snd (seed s self) = [snd (seeding_np_random s)].
Proof.
  unfold RoboCup.seed. destruct (seeding_np_random s) as [rng s'].
  cbn. repeat split.
Qed.

(** [reset] samples from the generator of gym's spaces and from numpy's
    global generator, advances both, and leaves the environment's own
    generator unread and unchanged. *)
Lemma reset_sampled (self : Env Rng) :
  state (reset self) = Some (fst (sample (spaces_random self) (numpy_global self))) /\
  spaces_random (reset self) =
  fst (snd (sample (spaces_random self) (numpy_global self))) /\
  numpy_global (reset self) =
  snd (snd (sample (spaces_random self) (numpy_global self))) /\
  np_random (reset self) = np_random self.
Proof.
  unfold RoboCup.reset.
  destruct (sample (spaces_random self) (numpy_global self))
    as [[[[[rx ry] rh] [[rvx rvy] rvh]] [[bx by_] [bvx bvy]]] [sp np]].
  cbn. repeat split.
Qed.

(** The robot's x coordinate in a sample is the first uniform draw of the
    spaces' generator. *)
Lemma sample_robot_x (sp np : Rng) :
  fst (fst (fst (fst (fst (sample sp np))))) =
  fst (uniform FIELD_MIN_X FIELD_MAX_X sp).
Proof.
  unfold observation_space_sample, Box3_sample, Box2_sample,
    VelocitySpace3_sample, VelocitySpace2_sample.
  repeat match goal with
         | |- context [uniform ?a ?b ?r] =>
             let x := fresh "x" in let r' := fresh "r" in
             destruct (uniform a b r) as [x r'] eqn:?; cbn [fst snd]
         | |- context [randn ?r] =>
             let x := fresh "x" in let r' := fresh "r" in
             destruct (randn r) as [x r'] eqn:?; cbn [fst snd]
         end.
  reflexivity.
Qed.

(** In [robocup.py], seeding twice with the same seed gives [reset] the same
    environment generator both times, but [reset] never reads it.  The two
    initial states are the samples drawn from the spaces' generator and from
    numpy's global generator as the first [reset] found them and as it left
    them; when the first uniform draw at these two states of the spaces'
    generator differs, the two initial states differ. *)
Theorem reset_after_same_seed_differs
  (s : option Z) (self : Env Rng)
  (Hdraw :
     fst (uniform FIELD_MIN_X FIELD_MAX_X (spaces_random self)) <>
     fst (uniform FIELD_MIN_X FIELD_MAX_X
                  (spaces_random (reset (fst (seed s self)))))) :
  let first := reset (fst (seed s self)) in
  let second := reset (fst (seed s first)) in
  np_random first = np_random second /\
  state first =
  Some (fst (sample (spaces_random self) (numpy_global self))) /\
  state second =
  Some (fst (sample (spaces_random first) (numpy_global first))) /\
  state first <> state second.
Proof.
  intros first second.
  destruct (seed_only_np_random s self) as (Hn1 & Hg1 & Hs1 & _).
  destruct (seed_only_np_random s first) as (Hn2 & Hg2 & Hs2 & _).
  destruct (reset_sampled (fst (seed s self))) as (St1 & _ & _ & Np1).
  destruct (reset_sampled (fst (seed s first))) as (St2 & _ & _ & Np2).
  fold first in St1, Np1. fold second in St2, Np2.
  rewrite Hg1, Hs1 in St1. rewrite Hg2, Hs2 in St2.
  repeat split.
  - rewrite Np1, Np2, Hn1, Hn2. reflexivity.
  - exact St1.
  - exact St2.
  - rewrite St1, St2. intros [= E]. apply Hdraw.
    change (reset (fst (seed s self))) with first.
    rewrite <- (sample_robot_x (spaces_random self) (numpy_global self)).
    rewrite <- (sample_robot_x (spaces_random first) (numpy_global first)).
    rewrite E. reflexivity.
Qed.

End SeedFacts.

Lemma reset_after_same_seed_differs_witness :
  let first :=
    RoboCup.reset toy_uniform toy_randn (1, vzero) (1, vzero)
                  (fst (RoboCup.seed toy_seeding (Some 1%Z) free_env)) in
  let second :=
    RoboCup.reset toy_uniform toy_randn (1, vzero) (1, vzero)
                  (fst (RoboCup.seed toy_seeding (Some 1%Z) first)) in
  RoboCup.np_random first = RoboCup.np_random second /\
  RoboCup.state first <> RoboCup.state second.
Proof.
  destruct (reset_after_same_seed_differs Z toy_seeding toy_uniform toy_randn
              (1, vzero) (1, vzero) (Some 1%Z) free_env) as (H1 & _ & _ & H2).
  - cbn.
    unfold RoboCup.FIELD_MIN_X, RoboCup.FIELD_MAX_X, RoboCup.FIELD_SCALE. lra.
  - split; assumption.
Defined.

(** ** [reset(scale)] at scale 0 *)

Section ScaledResetFacts.
Import BaseRoboCup.

Variable Source : Type.
Variable reseed : option Z -> Source -> Source * Z.
Variable draw : nat -> Source -> R * Source.
Variable scaled : R -> R -> R -> R.

(** Spec, section 4.4: scale 0 leaves the fixed values only. *)
Hypothesis scaled_at_zero : forall fixed drawn : R, scaled 0 fixed drawn = fixed.

Local Abbreviation seed := (seed reseed).
Local Abbreviation reset := (reset draw scaled).





End ScaledResetFacts.



(** * Further properties *)

(** ** [task_logic]: when it returns, when the episode ends, what it pays *)

Lemma pow_decreasing (x : R) (n m : nat) :
  0 < x < 1 -> (n < m)%nat -> x ^ m < x ^ n.
Proof.
  intros Hx Hnm. induction Hnm as [|m Hnm IH].
  - cbn [pow]. assert (0 < x ^ n) by (apply pow_lt; lra). nra.
  - cbn [pow]. assert (0 < x ^ m) by (apply pow_lt; lra). nra.
Qed.

Lemma action_penalty_nonpos (c : Collect.CollectConfig) (a0 a1 a2 a3 : R) :
  Collect.move_reward c <= 0 -> 0 <= Collect.turn_penalty c ->
  action_penalty c a0 a1 a2 a3 <= 0.
Proof.
  intros Hm Ht. unfold action_penalty.
  assert (0 <= a0 ^ 2 + a1 ^ 2 + Collect.turn_penalty c * a2 ^ 2 + a3 ^ 2).
  { assert (0 <= a0 ^ 2) by nra. assert (0 <= a1 ^ 2) by nra.
    assert (0 <= a2 ^ 2) by nra. assert (0 <= a3 ^ 2) by nra. nra. }
  nra.
Qed.

Lemma getitem_past_end {A : Type} (s : list A) (i : nat) :
  (length s <= i)%nat -> getitem s i = Raise IndexError.
Proof.
  intros H. unfold getitem.
  apply nth_error_None in H. rewrite H. reflexivity.
Qed.

Lemma getitem_within {A : Type} (s : list A) (i : nat) :
  (i < length s)%nat -> exists v, getitem s i = Ok v.
Proof.
  intros H. unfold getitem.
  destruct (nth_error s i) as [v|] eqn:E.
  - exists v. reflexivity.
  - apply nth_error_None in E. lia.
Qed.

(** [X1]: [task_logic] returns exactly when the environment has the
    auxiliary state and the body of a first robot and the action has at
    least four components; in every other case it raises [IndexError]. *)
Theorem task_logic_returns_iff
  (self : Collect.RoboCupCollect) (action : list R) :
  ((exists r, Collect.task_logic self action = Ok r) <->
   Collect.robot_aux_states self <> [] /\
   Collect.robot_bodies self <> [] /\
   (4 <= length action)%nat) /\
  ((forall r, Collect.task_logic self action <> Ok r) ->
   Collect.task_logic self action = Raise IndexError).
Proof.
  unfold Collect.task_logic.
  destruct (Collect.robot_aux_states self) as [|aux auxs];
    [cbn; split; [split; [intros [r H]; discriminate|intros [H _]; congruence]
                 |reflexivity]|].
  destruct (Collect.robot_bodies self) as [|rb rbs];
    [cbn; split; [split; [intros [r H]; discriminate|intros (_ & H & _); congruence]
                 |reflexivity]|].
  cbn [getitem nth_error bind].
  destruct (Nat.lt_ge_cases 2 (length action)) as [H2|H2].
  - destruct (getitem_within action 2 H2) as [a2 ->]. cbn [bind].
    destruct (Nat.lt_ge_cases 3 (length action)) as [H3|H3].
    + destruct (getitem_within action 3 H3) as [a3 E3].
      change (getitem action 3) with (@getitem R action 3). rewrite E3.
      cbn [bind].
      split.
      * split; [intros _; repeat split; (discriminate || lia)|].
        intros _.
        destruct (negb _ && _), (Collect.max_timesteps self <? _)%Z;
          eexists; reflexivity.
      * intros H. exfalso.
        destruct (negb _ && _), (Collect.max_timesteps self <? _)%Z;
          eapply H; reflexivity.
    + rewrite (getitem_past_end action 3 H3). cbn [bind].
      split; [split; [intros [r H]; discriminate|intros (_ & _ & H); lia]
             |reflexivity].
  - rewrite (getitem_past_end action 2 H2). cbn [bind].
    split; [split; [intros [r H]; discriminate|intros (_ & _ & H); lia]
           |reflexivity].
Qed.

Section TaskLogicMore.
Import Collect.

Variable self : RoboCupCollect.
Variable action : list R.
Variable aux : AuxRobotState.
Variable robot : Box2D.Body.
Hypothesis Haux : nth_error (robot_aux_states self) 0 = Some aux.
Hypothesis Hrobot : nth_error (robot_bodies self) 0 = Some robot.
Hypothesis Haction : (4 <= length action)%nat.

(** [X2]: the episode ends exactly when the dribble count has reached its
    target, or the ball centre is strictly outside the field, or the time
    step exceeds [max_timesteps]; [got_reward] implies [done]. *)
Theorem task_logic_done_iff :
  exists self' reward done got_reward,
    task_logic self action = Ok (self', (reward, done, got_reward)) /\
    (done = true <->
     (dribble_count_done (collect_config self) <= dribbling_count aux)%Z \/
     out_of_bounds (Box2D.position (ball self)) \/
     (max_timesteps self < Z.of_nat (timestep self))%Z) /\
    (got_reward = true -> done = true).
Proof.
  do 4 eexists. split.
  - apply (task_logic_returns self action aux robot Haux Hrobot Haction).
  - rewrite <- out_of_bounds_test, <- Z.leb_le, <- Z.ltb_lt.
    rewrite !orb_true_iff. split; [tauto|]. intros H. tauto.
Qed.

(** [X3]: while the episode goes on (dribble count below its target, ball
    centre within the field, time step within the limit) the call returns
    [done] and [got_reward] false, and the reward is [survival_reward] plus
    [dribbling_reward] when the robot dribbles, plus
    [distance_to_ball_coeff] times the distance of the two centres when it
    does not, plus the action penalty. *)
Theorem task_logic_running_reward
  (Hcount : (dribbling_count aux < dribble_count_done (collect_config self))%Z)
  (Hin : ~ out_of_bounds (Box2D.position (ball self)))
  (Htime : (Z.of_nat (timestep self) <= max_timesteps self)%Z) :
  exists self',
    task_logic self action =
    Ok (self',
        (survival_reward (collect_config self) +
         (if dribbling aux
          then dribbling_reward (collect_config self)
          else distance_to_ball_coeff (collect_config self) *
               vnorm (vsub (Box2D.position robot) (Box2D.position (ball self)))) +
         action_penalty (collect_config self) (nth 0 action 0) (nth 1 action 0)
                        (nth 2 action 0) (nth 3 action 0),
         false, false)).
Proof.
  exists (mkCollect (update (robot_aux_states self) 0
                            (mkAux (dribbling aux) (dribbling_count aux) 0))
                    (robot_bodies self) (ball self) (timestep self)
                    (max_timesteps self) (collect_config self) (state self)).
  rewrite (task_logic_returns self action aux robot Haux Hrobot Haction).
  apply Z.leb_gt in Hcount. rewrite Hcount.
  rewrite <- out_of_bounds_test in Hin. apply not_true_is_false in Hin.
  rewrite Hin.
  apply Z.ltb_ge in Htime. rewrite Htime.
  cbn [negb andb orb].
  destruct (dribbling aux); reflexivity.
Qed.

(** [X4]: [task_logic] writes nothing but the [kick_cooldown] of the first
    robot, which it sets to 0: the dribbling flag and count of that robot,
    the auxiliary states of the other robots, the bodies, the ball, the
    time step, the configuration and the state vector are as before. *)
Theorem task_logic_writes_cooldown_only :
  exists self' result,
    task_logic self action = Ok (self', result) /\
    nth_error (robot_aux_states self') 0 =
    Some (mkAux (dribbling aux) (dribbling_count aux) 0) /\
    (forall i, i <> 0%nat ->
               nth_error (robot_aux_states self') i =
               nth_error (robot_aux_states self) i) /\
    length (robot_aux_states self') = length (robot_aux_states self) /\
    robot_bodies self' = robot_bodies self /\
    ball self' = ball self /\
    timestep self' = timestep self /\
    max_timesteps self' = max_timesteps self /\
    collect_config self' = collect_config self /\
    state self' = state self.
Proof.
  do 2 eexists. split.
  - apply (task_logic_returns self action aux robot Haux Hrobot Haction).
  - cbn [robot_aux_states robot_bodies ball timestep max_timesteps
         collect_config state].
    destruct (robot_aux_states self) as [|a0 rest]; [discriminate|].
    cbn [update]. repeat split.
    intros [|i] Hi; [congruence|reflexivity].
Qed.

(** [X5]: the action penalty never pays: with [move_reward <= 0] and
    [turn_penalty >= 0] the reward of a call is at most the reward of the
    same call with the zero action. *)
Theorem task_logic_action_never_pays
  (Hmove : move_reward (collect_config self) <= 0)
  (Hturn : 0 <= turn_penalty (collect_config self)) :
  exists self1 self0 reward reward0 done got_reward,
    task_logic self action = Ok (self1, (reward, done, got_reward)) /\
    task_logic self no_action = Ok (self0, (reward0, done, got_reward)) /\
    reward <= reward0.
Proof.
  assert (H0 : (4 <= length no_action)%nat) by (cbn; lia).
  do 6 eexists. split; [|split].
  - apply (task_logic_returns self action aux robot Haux Hrobot Haction).
  - apply (task_logic_returns self no_action aux robot Haux Hrobot H0).
  - pose proof (action_penalty_nonpos (collect_config self)
                  (nth 0 action 0) (nth 1 action 0) (nth 2 action 0)
                  (nth 3 action 0) Hmove Hturn) as Hp.
    assert (Hz : action_penalty (collect_config self) (nth 0 no_action 0)
                   (nth 1 no_action 0) (nth 2 no_action 0) (nth 3 no_action 0) = 0).
    { unfold action_penalty, no_action. cbn [nth]. ring. }
    rewrite Hz.
    destruct (max_timesteps self <? _)%Z; [lra|].
    destruct (negb _ && _); [lra|].
    destruct (dribble_count_done _ <=? _)%Z; [lra|].
    destruct (dribbling aux); lra.
Qed.

End TaskLogicMore.

Lemma task_logic_done_iff_witness :
  exists self' reward done got_reward,
    Collect.task_logic (collect_env 0 3 10) no_action =
    Ok (self', (reward, done, got_reward)) /\
    (done = true <->
     (100 <= 0)%Z \/ out_of_bounds (Box2D.position (body_at 3 0 0)) \/
     (300 < Z.of_nat 10)%Z) /\
    (got_reward = true -> done = true).
Proof.
  apply (task_logic_done_iff (collect_env 0 3 10) no_action
           (Collect.mkAux true 0 0) (body_at 0.5 0 PI)).
  - reflexivity.
  - reflexivity.
  - simpl. lia.
Defined.

Lemma task_logic_running_reward_witness :
  exists self',
    Collect.task_logic (collect_env 7 0 10) no_action =
    Ok (self',
        (Collect.survival_reward example_config +
         Collect.dribbling_reward example_config +
         action_penalty example_config 0 0 0 0,
         false, false)).
Proof.
  apply (task_logic_running_reward (collect_env 7 0 10) no_action
           (Collect.mkAux true 7 0) (body_at 0.5 0 PI)).
  - reflexivity.
  - reflexivity.
  - simpl. lia.
  - simpl. lia.
  - unfold out_of_bounds, Constants.FIELD_MIN_X, Constants.FIELD_MAX_X,
      Constants.FIELD_MIN_Y, Constants.FIELD_MAX_Y, Constants.FIELD_SCALE.
    simpl. lra.
  - simpl. lia.
Defined.

Lemma task_logic_writes_cooldown_only_witness :
  exists self' result,
    Collect.task_logic (collect_env 7 0 10) [1; 0; 0; 1] = Ok (self', result) /\
    Collect.robot_aux_states self' = [Collect.mkAux true 7 0] /\
    Collect.state self' = Collect.state (collect_env 7 0 10).
Proof.
  destruct (task_logic_writes_cooldown_only (collect_env 7 0 10) [1; 0; 0; 1]
              (Collect.mkAux true 7 0) (body_at 0.5 0 PI))
    as (self' & result & H & H0 & _ & Hlen & _ & _ & _ & _ & _ & Hst).
  - reflexivity.
  - reflexivity.
  - simpl. lia.
  - exists self', result. split; [exact H|]. split; [|exact Hst].
    destruct (Collect.robot_aux_states self') as [|a [|b l]];
      cbn in H0, Hlen; try discriminate.
    injection H0 as ->. reflexivity.
Defined.

Lemma task_logic_action_never_pays_witness :
  exists self1 self0 reward reward0 done got_reward,
    Collect.task_logic (collect_env 7 0 10) [1; -1; 0.5; 1] =
    Ok (self1, (reward, done, got_reward)) /\
    Collect.task_logic (collect_env 7 0 10) no_action =
    Ok (self0, (reward0, done, got_reward)) /\
    reward <= reward0.
Proof.
  apply (task_logic_action_never_pays (collect_env 7 0 10) [1; -1; 0.5; 1]
           (Collect.mkAux true 7 0) (body_at 0.5 0 PI)).
  - reflexivity.
  - reflexivity.
  - simpl. lia.
  - simpl. lra.
  - simpl. lra.
Defined.

(** [X6]: earlier completion pays more.  Two calls with the same
    configuration and action, both on a dribble-completion tick within the
    time limit: with [0 < done_reward_exp_base < 1] and
    [done_reward_coeff > 0], the call at the smaller time step returns the
    strictly larger reward. *)
Theorem task_logic_earlier_completion_pays_more
  (self1 self2 : Collect.RoboCupCollect) (action : list R)
  (aux1 aux2 : Collect.AuxRobotState) (robot1 robot2 : Box2D.Body)
  (Haux1 : nth_error (Collect.robot_aux_states self1) 0 = Some aux1)
  (Haux2 : nth_error (Collect.robot_aux_states self2) 0 = Some aux2)
  (Hrobot1 : nth_error (Collect.robot_bodies self1) 0 = Some robot1)
  (Hrobot2 : nth_error (Collect.robot_bodies self2) 0 = Some robot2)
  (Haction : (4 <= length action)%nat)
  (Hconfig : Collect.collect_config self1 = Collect.collect_config self2)
  (Hdone1 : (Collect.dribble_count_done (Collect.collect_config self1) <=
             Collect.dribbling_count aux1)%Z)
  (Hdone2 : (Collect.dribble_count_done (Collect.collect_config self2) <=
             Collect.dribbling_count aux2)%Z)
  (Htime1 : (Z.of_nat (Collect.timestep self1) <= Collect.max_timesteps self1)%Z)
  (Htime2 : (Z.of_nat (Collect.timestep self2) <= Collect.max_timesteps self2)%Z)
  (Hbase : 0 < Collect.done_reward_exp_base (Collect.collect_config self1) < 1)
  (Hcoeff : 0 < Collect.done_reward_coeff (Collect.collect_config self1))
  (Hearlier : (Collect.timestep self1 < Collect.timestep self2)%nat) :
  exists self1' self2' reward1 reward2,
    Collect.task_logic self1 action = Ok (self1', (reward1, true, true)) /\
    Collect.task_logic self2 action = Ok (self2', (reward2, true, true)) /\
    reward2 < reward1.
Proof.
  do 4 eexists. split; [|split].
  - rewrite (task_logic_returns self1 action aux1 robot1 Haux1 Hrobot1 Haction).
    apply Z.leb_le in Hdone1. rewrite Hdone1.
    apply Z.ltb_ge in Htime1. rewrite Htime1.
    cbn [negb andb orb]. reflexivity.
  - rewrite (task_logic_returns self2 action aux2 robot2 Haux2 Hrobot2 Haction).
    apply Z.leb_le in Hdone2. rewrite Hdone2.
    apply Z.ltb_ge in Htime2. rewrite Htime2.
    cbn [negb andb orb]. reflexivity.
  - rewrite <- Hconfig. unfold terminal_bonus.
    pose proof (pow_decreasing _ _ _ Hbase Hearlier) as Hpow.
    nra.
Qed.

Lemma task_logic_earlier_completion_pays_more_witness :
  exists self1' self2' reward1 reward2,
    Collect.task_logic (collect_env 100 0 50) no_action =
    Ok (self1', (reward1, true, true)) /\
    Collect.task_logic (collect_env 100 0 60) no_action =
    Ok (self2', (reward2, true, true)) /\
    reward2 < reward1.
Proof.
  apply (task_logic_earlier_completion_pays_more
           (collect_env 100 0 50) (collect_env 100 0 60) no_action
           (Collect.mkAux true 100 0) (Collect.mkAux true 100 0)
           (body_at 0.5 0 PI) (body_at 0.5 0 PI)).
  - reflexivity.
  - reflexivity.
  - reflexivity.
  - reflexivity.
  - simpl. lia.
  - reflexivity.
  - simpl. lia.
  - simpl. lia.
  - simpl. lia.
  - simpl. lia.
  - simpl. lra.
  - simpl. lra.
  - simpl. lia.
Defined.

(** ** [task_reset]: when it returns, what it leaves alone, its fixed points *)

Ltac real_cases :=
  repeat match goal with
         | |- context [Rle_dec ?a ?b] => destruct (Rle_dec a b)
         | |- context [Rlt_dec ?a ?b] => destruct (Rlt_dec a b)
         | H : context [Rle_dec ?a ?b] |- _ => destruct (Rle_dec a b)
         | H : context [Rlt_dec ?a ?b] |- _ => destruct (Rlt_dec a b)
         end.

Lemma axis_reset_settles (lo hi p d : R) :
  lo + 1.0 < hi - 1.0 ->
  axis_settled lo hi (fst (axis_reset lo hi p d)) (snd (axis_reset lo hi p d)).
Proof.
  intros Hgap.
  unfold axis_settled, axis_reset, Collect.clip, Rgeb, Rgtb, Rleb, Rltb, Rmax, Rmin.
  real_cases; cbn [fst snd]; repeat split; intros; real_cases; lra.
Qed.

Lemma axis_reset_fixed_iff (lo hi p d : R) :
  lo + 1.0 < hi - 1.0 ->
  axis_reset lo hi p d = (p, d) <-> axis_settled lo hi p d.
Proof.
  intros Hgap. split.
  - intros H. pose proof (axis_reset_settles lo hi p d Hgap) as S.
    rewrite H in S. exact S.
  - unfold axis_settled, axis_reset, Collect.clip, Rgeb, Rgtb, Rleb, Rltb, Rmax, Rmin.
    intros (Hd & Hl & Hr).
    real_cases; cbn [fst snd]; f_equal; real_cases; try lra;
      try (destruct Hl as [? ?]; lra); try (destruct Hr as [? ?]; lra).
Qed.

Lemma axis_reset_slows (lo hi p d : R) :
  lo + 1.0 < hi - 1.0 ->
  Rabs (snd (axis_reset lo hi p d)) <= Rabs d /\
  0 <= d * snd (axis_reset lo hi p d) /\
  (fst (axis_reset lo hi p d) = p \/
   fst (axis_reset lo hi p d) = lo + 1.0 \/
   fst (axis_reset lo hi p d) = hi - 1.0) /\
  (fst (axis_reset lo hi p d) <> p ->
   (p < lo + 1.0 /\ d < 0) \/ (p > hi - 1.0 /\ d > 0)).
Proof.
  intros Hgap.
  unfold axis_reset, Collect.clip, Rgeb, Rgtb, Rleb, Rltb, Rmax, Rmin, Rabs.
  real_cases; cbn [fst snd]; repeat split; intros;
    repeat match goal with
           | |- context [Rcase_abs ?a] => destruct (Rcase_abs a)
           end;
    real_cases; try lra; try nra; try (left; lra); try (right; left; lra);
    try (right; right; lra); try (right; lra).
Qed.

Lemma getitem_ok_lt {A : Type} (s : list A) (i : nat) (v : A) :
  getitem s i = Ok v -> (i < length s)%nat.
Proof.
  unfold getitem. destruct (nth_error s i) eqn:E; [|discriminate].
  intros _. apply nth_error_Some. congruence.
Qed.

Lemma getitem_raises {A : Type} (s : list A) (i : nat) (e : PyError) :
  getitem s i = Raise e -> e = IndexError.
Proof. unfold getitem. destruct (nth_error s i); congruence. Qed.

Lemma setitem_ok_length {A : Type} (s s' : list A) (i : nat) (v : A) :
  setitem s i v = Ok s' -> length s' = length s.
Proof.
  unfold setitem. destruct (i <? length s)%nat; [|discriminate].
  intros [= <-]. apply update_length.
Qed.

Lemma setitem_raises {A : Type} (s : list A) (i : nat) (v : A) (e : PyError) :
  setitem s i v = Raise e -> e = IndexError.
Proof. unfold setitem. destruct (i <? length s)%nat; congruence. Qed.

Section TaskResetMore.
Import Collect.

Lemma side_ok_length (P D : nat) (near toward : R -> bool) (boundary : R)
      (a_min a_max : option R) (s s' : list R) :
  side P D near toward boundary a_min a_max s = Ok s' ->
  length s' = length s /\ (P < length s)%nat.
Proof.
  unfold side.
  destruct (getitem s P) as [p|e] eqn:EP; cbn [bind]; [|discriminate].
  apply getitem_ok_lt in EP.
  destruct (near p); [|intros [= <-]; auto].
  destruct (getitem s D) as [d|e]; cbn [bind]; [|discriminate].
  destruct (if toward d then setitem s P boundary else Ok s) as [s1|e] eqn:E1;
    cbn [bind]; [|discriminate].
  assert (L1 : length s1 = length s).
  { destruct (toward d).
    - apply setitem_ok_length in E1. exact E1.
    - injection E1 as <-. reflexivity. }
  destruct (getitem s1 D) as [d1|e]; cbn [bind]; [|discriminate].
  intros H. apply setitem_ok_length in H. split; [lia|exact EP].
Qed.

Lemma side_within (P D : nat) (near toward : R -> bool) (boundary : R)
      (a_min a_max : option R) (s : list R) :
  (P < length s)%nat -> (D < length s)%nat ->
  exists s', side P D near toward boundary a_min a_max s = Ok s'.
Proof.
  intros HP HD. unfold side.
  rewrite (getitem_nth s P HP). cbn [bind].
  destruct (near _); [|eexists; reflexivity].
  rewrite (getitem_nth s D HD). cbn [bind].
  destruct (toward _).
  - rewrite setitem_ok by exact HP. cbn [bind].
    rewrite getitem_nth by (rewrite update_length; exact HD). cbn [bind].
    rewrite setitem_ok by (rewrite update_length; exact HD).
    eexists. reflexivity.
  - cbn [bind]. rewrite (getitem_nth s D HD). cbn [bind].
    rewrite setitem_ok by exact HD. eexists. reflexivity.
Qed.

Lemma side_raises (P D : nat) (near toward : R -> bool) (boundary : R)
      (a_min a_max : option R) (s : list R) (e : PyError) :
  side P D near toward boundary a_min a_max s = Raise e -> e = IndexError.
Proof.
  unfold side.
  destruct (getitem s P) as [p|e0] eqn:EP; cbn [bind];
    [|intros [= <-]; eapply getitem_raises; eassumption].
  destruct (near p); [|discriminate].
  destruct (getitem s D) as [d|e0] eqn:ED; cbn [bind];
    [|intros [= <-]; eapply getitem_raises; eassumption].
  destruct (if toward d then setitem s P boundary else Ok s) as [s1|e0] eqn:E1;
    cbn [bind].
  - destruct (getitem s1 D) as [d1|e1] eqn:ED1; cbn [bind];
      [|intros [= <-]; eapply getitem_raises; eassumption].
    apply setitem_raises.
  - intros [= <-]. destruct (toward d); [|discriminate].
    eapply setitem_raises; eassumption.
Qed.

Lemma clip_total_ok_length (D : nat) (s s' : list R) :
  clip_total D s = Ok s' -> length s' = length s /\ (D < length s)%nat.
Proof.
  unfold clip_total.
  destruct (getitem s D) as [d|e] eqn:ED; cbn [bind]; [|discriminate].
  apply getitem_ok_lt in ED.
  intros H. apply setitem_ok_length in H. auto.
Qed.

Lemma clip_total_raises (D : nat) (s : list R) (e : PyError) :
  clip_total D s = Raise e -> e = IndexError.
Proof.
  unfold clip_total.
  destruct (getitem s D) as [d|e0] eqn:ED; cbn [bind];
    [|intros [= <-]; eapply getitem_raises; eassumption].
  apply setitem_raises.
Qed.

Variables BALL_X BALL_Y BALL_DX BALL_DY : nat.

(** [X7]: [task_reset] returns exactly when the four ball indices are
    within the state vector, and the only error it raises is
    [IndexError]. *)
Theorem task_reset_returns_iff (self : RoboCupCollect) :
  ((exists self', task_reset BALL_X BALL_Y BALL_DX BALL_DY self = Ok self') <->
   (BALL_X < length (state self))%nat /\ (BALL_Y < length (state self))%nat /\
   (BALL_DX < length (state self))%nat /\ (BALL_DY < length (state self))%nat) /\
  (forall e, task_reset BALL_X BALL_Y BALL_DX BALL_DY self = Raise e ->
             e = IndexError).
Proof.
  rewrite task_reset_blocks.
  split; [split|].
  - intros [self' H].
    destruct (side _ _ _ _ _ _ _ (state self)) as [s1|e] eqn:E1;
      cbn [bind] in H; [|discriminate].
    destruct (side _ _ _ _ _ _ _ s1) as [s2|e] eqn:E2;
      cbn [bind] in H; [|discriminate].
    destruct (side _ _ _ _ _ _ _ s2) as [s3|e] eqn:E3;
      cbn [bind] in H; [|discriminate].
    destruct (side _ _ _ _ _ _ _ s3) as [s4|e] eqn:E4;
      cbn [bind] in H; [|discriminate].
    destruct (clip_total BALL_DX s4) as [s5|e] eqn:E5;
      cbn [bind] in H; [|discriminate].
    destruct (clip_total BALL_DY s5) as [s6|e] eqn:E6;
      cbn [bind] in H; [|discriminate].
    apply side_ok_length in E1, E2, E3, E4.
    apply clip_total_ok_length in E5, E6.
    lia.
  - intros (HX & HY & HDX & HDY).
    destruct (side_within BALL_X BALL_DX
                (fun x => Rleb x (Constants.FIELD_MIN_X + 1.0)) (fun d => Rltb d 0)
                (Constants.FIELD_MIN_X + 1.0) (Some (- (0.3))) None
                (state self) HX HDX) as [s1 E1].
    rewrite E1. cbn [bind]. apply side_ok_length in E1.
    destruct (side_within BALL_X BALL_DX
                (fun x => Rgeb x (Constants.FIELD_MAX_X - 1.0)) (fun d => Rgtb d 0)
                (Constants.FIELD_MAX_X - 1.0) None (Some 0.3)
                s1 ltac:(lia) ltac:(lia)) as [s2 E2].
    rewrite E2. cbn [bind]. apply side_ok_length in E2.
    destruct (side_within BALL_Y BALL_DY
                (fun y => Rleb y (Constants.FIELD_MIN_Y + 1.0)) (fun d => Rltb d 0)
                (Constants.FIELD_MIN_Y + 1.0) (Some (- (0.3))) None
                s2 ltac:(lia) ltac:(lia)) as [s3 E3].
    rewrite E3. cbn [bind]. apply side_ok_length in E3.
    destruct (side_within BALL_Y BALL_DY
                (fun y => Rgeb y (Constants.FIELD_MAX_Y - 1.0)) (fun d => Rgtb d 0)
                (Constants.FIELD_MAX_Y - 1.0) None (Some 0.3)
                s3 ltac:(lia) ltac:(lia)) as [s4 E4].
    rewrite E4. cbn [bind]. apply side_ok_length in E4.
    destruct (clip_total_returns BALL_DX s4 ltac:(lia)) as (s5 & -> & L5 & _).
    cbn [bind].
    destruct (clip_total_returns BALL_DY s5 ltac:(lia)) as (s6 & -> & L6 & _).
    cbn [bind]. eexists. reflexivity.
  - intros e.
    destruct (side _ _ _ _ _ _ _ (state self)) as [s1|e1] eqn:E1; cbn [bind];
      [|intros [= <-]; eapply side_raises; eassumption].
    destruct (side _ _ _ _ _ _ _ s1) as [s2|e1] eqn:E2; cbn [bind];
      [|intros [= <-]; eapply side_raises; eassumption].
    destruct (side _ _ _ _ _ _ _ s2) as [s3|e1] eqn:E3; cbn [bind];
      [|intros [= <-]; eapply side_raises; eassumption].
    destruct (side _ _ _ _ _ _ _ s3) as [s4|e1] eqn:E4; cbn [bind];
      [|intros [= <-]; eapply side_raises; eassumption].
    destruct (clip_total BALL_DX s4) as [s5|e1] eqn:E5; cbn [bind];
      [|intros [= <-]; eapply clip_total_raises; eassumption].
    destruct (clip_total BALL_DY s5) as [s6|e1] eqn:E6; cbn [bind];
      [discriminate|intros [= <-]; eapply clip_total_raises; eassumption].
Qed.

End TaskResetMore.

Lemma set_state_same (self : Collect.RoboCupCollect) :
  Collect.set_state (Collect.state self) self = self.
Proof. destruct self. reflexivity. Qed.

Lemma field_gap_x : Constants.FIELD_MIN_X + 1.0 < Constants.FIELD_MAX_X - 1.0.
Proof.
  unfold Constants.FIELD_MIN_X, Constants.FIELD_MAX_X, Constants.FIELD_SCALE. lra.
Qed.

Lemma field_gap_y : Constants.FIELD_MIN_Y + 1.0 < Constants.FIELD_MAX_Y - 1.0.
Proof.
  unfold Constants.FIELD_MIN_Y, Constants.FIELD_MAX_Y, Constants.FIELD_SCALE. lra.
Qed.

Section TaskResetFixed.
Import Collect.

Variables BALL_X BALL_Y BALL_DX BALL_DY : nat.
Hypothesis Hdistinct : NoDup [BALL_X; BALL_Y; BALL_DX; BALL_DY].
Variable self : RoboCupCollect.
Hypothesis HX : (BALL_X < length (state self))%nat.
Hypothesis HY : (BALL_Y < length (state self))%nat.
Hypothesis HDX : (BALL_DX < length (state self))%nat.
Hypothesis HDY : (BALL_DY < length (state self))%nat.

Let x := nth BALL_X (state self) 0.
Let y := nth BALL_Y (state self) 0.
Let dx := nth BALL_DX (state self) 0.
Let dy := nth BALL_DY (state self) 0.

(** The vector after [task_reset] is the vector before exactly when both
    axes are settled. *)
Lemma task_reset_same_vector (s' : list R) :
  length s' = length (state self) ->
  (nth BALL_X s' 0, nth BALL_DX s' 0) =
  axis_reset Constants.FIELD_MIN_X Constants.FIELD_MAX_X x dx ->
  (nth BALL_Y s' 0, nth BALL_DY s' 0) =
  axis_reset Constants.FIELD_MIN_Y Constants.FIELD_MAX_Y y dy ->
  (forall k, ~ In k [BALL_X; BALL_Y; BALL_DX; BALL_DY] ->
             nth k s' 0 = nth k (state self) 0) ->
  s' = state self <->
  axis_settled Constants.FIELD_MIN_X Constants.FIELD_MAX_X x dx /\
  axis_settled Constants.FIELD_MIN_Y Constants.FIELD_MAX_Y y dy.
Proof.
  intros L Ex Ey O.
  rewrite <- (axis_reset_fixed_iff _ _ x dx field_gap_x).
  rewrite <- (axis_reset_fixed_iff _ _ y dy field_gap_y).
  split.
  - intros ->. fold x dx y dy in Ex, Ey. split; congruence.
  - intros [Fx Fy]. rewrite Fx in Ex. rewrite Fy in Ey.
    injection Ex as Ex Edx. injection Ey as Ey Edy.
    apply (nth_ext _ _ 0 0 L). intros k _.
    destruct (Nat.eq_dec k BALL_X) as [->|]; [exact Ex|].
    destruct (Nat.eq_dec k BALL_DX) as [->|]; [exact Edx|].
    destruct (Nat.eq_dec k BALL_Y) as [->|]; [exact Ey|].
    destruct (Nat.eq_dec k BALL_DY) as [->|]; [exact Edy|].
    apply O. cbn [In]. intuition congruence.
Qed.

Lemma task_reset_fixed_iff_settled :
  task_reset BALL_X BALL_Y BALL_DX BALL_DY self = Ok self <->
  axis_settled Constants.FIELD_MIN_X Constants.FIELD_MAX_X x dx /\
  axis_settled Constants.FIELD_MIN_Y Constants.FIELD_MAX_Y y dy.
Proof.
  destruct (task_reset_returns BALL_X BALL_Y BALL_DX BALL_DY Hdistinct self
              HX HY HDX HDY) as (s' & -> & L & Ex & Ey & O).
  rewrite <- (task_reset_same_vector s' L Ex Ey O).
  split.
  - intros [= H]. apply (f_equal state) in H. exact H.
  - intros ->. rewrite set_state_same. reflexivity.
Qed.

End TaskResetFixed.

Lemma ball_indices_distinct : NoDup [7; 8; 9; 10]%nat.
Proof. repeat constructor; cbn; intuition discriminate. Qed.

(** [X8]: [task_reset] touches the four ball entries only: the state vector
    keeps its length and every other entry, and the rest of the environment
    is as before. *)
Theorem task_reset_touches_ball_only
  (BALL_X BALL_Y BALL_DX BALL_DY : nat) (self : Collect.RoboCupCollect)
  (Hdistinct : NoDup [BALL_X; BALL_Y; BALL_DX; BALL_DY])
  (HX : (BALL_X < length (Collect.state self))%nat)
  (HY : (BALL_Y < length (Collect.state self))%nat)
  (HDX : (BALL_DX < length (Collect.state self))%nat)
  (HDY : (BALL_DY < length (Collect.state self))%nat) :
  exists self',
    Collect.task_reset BALL_X BALL_Y BALL_DX BALL_DY self = Ok self' /\
    length (Collect.state self') = length (Collect.state self) /\
    (forall k, ~ In k [BALL_X; BALL_Y; BALL_DX; BALL_DY] ->
               nth k (Collect.state self') 0 = nth k (Collect.state self) 0) /\
    Collect.robot_aux_states self' = Collect.robot_aux_states self /\
    Collect.robot_bodies self' = Collect.robot_bodies self /\
    Collect.ball self' = Collect.ball self /\
    Collect.timestep self' = Collect.timestep self /\
    Collect.max_timesteps self' = Collect.max_timesteps self /\
    Collect.collect_config self' = Collect.collect_config self.
Proof.
  destruct (task_reset_returns BALL_X BALL_Y BALL_DX BALL_DY Hdistinct self
              HX HY HDX HDY) as (s' & Hret & L & _ & _ & O).
  exists (Collect.set_state s' self). split; [exact Hret|].
  cbn. repeat split; assumption.
Qed.

Lemma task_reset_touches_ball_only_witness :
  exists self',
    Collect.task_reset 7 8 9 10 (collect_env_with_ball (-1.5) 0 (-2) 0) = Ok self' /\
    length (Collect.state self') = 11%nat /\
    nth 2 (Collect.state self') 0 = PI.
Proof.
  destruct (task_reset_touches_ball_only 7 8 9 10
              (collect_env_with_ball (-1.5) 0 (-2) 0) ball_indices_distinct)
    as (self' & Hret & L & O & _); try (cbn; lia).
  exists self'. split; [exact Hret|]. split; [exact L|].
  rewrite (O 2%nat); [reflexivity|].
  cbn. intuition discriminate.
Defined.

(** [X9]: [task_reset] is idempotent: applied to its own result it returns
    that result unchanged. *)
Theorem task_reset_idempotent
  (BALL_X BALL_Y BALL_DX BALL_DY : nat) (self : Collect.RoboCupCollect)
  (Hdistinct : NoDup [BALL_X; BALL_Y; BALL_DX; BALL_DY])
  (HX : (BALL_X < length (Collect.state self))%nat)
  (HY : (BALL_Y < length (Collect.state self))%nat)
  (HDX : (BALL_DX < length (Collect.state self))%nat)
  (HDY : (BALL_DY < length (Collect.state self))%nat) :
  exists self',
    Collect.task_reset BALL_X BALL_Y BALL_DX BALL_DY self = Ok self' /\
    Collect.task_reset BALL_X BALL_Y BALL_DX BALL_DY self' = Ok self'.
Proof.
  destruct (task_reset_returns BALL_X BALL_Y BALL_DX BALL_DY Hdistinct self
              HX HY HDX HDY) as (s' & Hret & L & Ex & Ey & _).
  exists (Collect.set_state s' self). split; [exact Hret|].
  apply (task_reset_fixed_iff_settled BALL_X BALL_Y BALL_DX BALL_DY Hdistinct);
    cbn [Collect.state Collect.set_state]; try lia.
  split.
  - pose proof (axis_reset_settles _ _ (nth BALL_X (Collect.state self) 0)
                  (nth BALL_DX (Collect.state self) 0) field_gap_x) as S.
    rewrite <- Ex in S. exact S.
  - pose proof (axis_reset_settles _ _ (nth BALL_Y (Collect.state self) 0)
                  (nth BALL_DY (Collect.state self) 0) field_gap_y) as S.
    rewrite <- Ey in S. exact S.
Qed.

Lemma task_reset_idempotent_witness :
  exists self',
    Collect.task_reset 7 8 9 10 (collect_env_with_ball (-1.5) 0 (-2) 0) = Ok self' /\
    Collect.task_reset 7 8 9 10 self' = Ok self'.
Proof.
  apply (task_reset_idempotent 7 8 9 10 (collect_env_with_ball (-1.5) 0 (-2) 0)
           ball_indices_distinct); cbn; lia.
Defined.

(** [X10]: the environments that [task_reset] returns unchanged are exactly
    those whose ball is settled on both axes: each velocity component within
    [[-1.0, 1.0]], and within 1.0 of an edge the component toward that edge
    at most 0.3 with a ball moving toward the edge standing on the
    boundary. *)
Theorem task_reset_fixed_points
  (BALL_X BALL_Y BALL_DX BALL_DY : nat) (self : Collect.RoboCupCollect)
  (Hdistinct : NoDup [BALL_X; BALL_Y; BALL_DX; BALL_DY])
  (HX : (BALL_X < length (Collect.state self))%nat)
  (HY : (BALL_Y < length (Collect.state self))%nat)
  (HDX : (BALL_DX < length (Collect.state self))%nat)
  (HDY : (BALL_DY < length (Collect.state self))%nat) :
  Collect.task_reset BALL_X BALL_Y BALL_DX BALL_DY self = Ok self <->
  axis_settled Constants.FIELD_MIN_X Constants.FIELD_MAX_X
               (nth BALL_X (Collect.state self) 0)
               (nth BALL_DX (Collect.state self) 0) /\
  axis_settled Constants.FIELD_MIN_Y Constants.FIELD_MAX_Y
               (nth BALL_Y (Collect.state self) 0)
               (nth BALL_DY (Collect.state self) 0).
Proof.
  exact (task_reset_fixed_iff_settled BALL_X BALL_Y BALL_DX BALL_DY Hdistinct
           self HX HY HDX HDY).
Qed.

(** The fixed initial condition of [CollectICConfig] is such a fixed
    point. *)
Lemma task_reset_fixed_points_witness :
  Collect.task_reset 7 8 9 10 (collect_env_at fixed_ic) =
  Ok (collect_env_at fixed_ic).
Proof.
  apply (task_reset_fixed_points 7 8 9 10 (collect_env_at fixed_ic)
           ball_indices_distinct); try (cbn; lia).
  unfold axis_settled, Constants.FIELD_MIN_X, Constants.FIELD_MAX_X,
    Constants.FIELD_MIN_Y, Constants.FIELD_MAX_Y, Constants.FIELD_SCALE.
  cbn [collect_env_at Collect.state fixed_ic nth].
  repeat split; intros; lra.
Defined.

(** [X11]: [task_reset] only slows the ball down and only pulls it inward:
    each velocity component keeps its sign and does not grow in magnitude,
    and a position changes only when the ball was strictly inside the 1.0
    margin of an edge (or beyond it) and moving toward that edge, in which
    case it becomes the boundary of the margin. *)
Theorem task_reset_only_slows
  (BALL_X BALL_Y BALL_DX BALL_DY : nat) (self : Collect.RoboCupCollect)
  (Hdistinct : NoDup [BALL_X; BALL_Y; BALL_DX; BALL_DY])
  (HX : (BALL_X < length (Collect.state self))%nat)
  (HY : (BALL_Y < length (Collect.state self))%nat)
  (HDX : (BALL_DX < length (Collect.state self))%nat)
  (HDY : (BALL_DY < length (Collect.state self))%nat) :
  exists self',
    Collect.task_reset BALL_X BALL_Y BALL_DX BALL_DY self = Ok self' /\
    let x := nth BALL_X (Collect.state self) 0 in
    let y := nth BALL_Y (Collect.state self) 0 in
    let dx := nth BALL_DX (Collect.state self) 0 in
    let dy := nth BALL_DY (Collect.state self) 0 in
    let x' := nth BALL_X (Collect.state self') 0 in
    let y' := nth BALL_Y (Collect.state self') 0 in
    let dx' := nth BALL_DX (Collect.state self') 0 in
    let dy' := nth BALL_DY (Collect.state self') 0 in
    Rabs dx' <= Rabs dx /\ 0 <= dx * dx' /\
    Rabs dy' <= Rabs dy /\ 0 <= dy * dy' /\
    (x' <> x ->
     (x < Constants.FIELD_MIN_X + 1.0 /\ dx < 0 /\ x' = Constants.FIELD_MIN_X + 1.0) \/
     (x > Constants.FIELD_MAX_X - 1.0 /\ dx > 0 /\ x' = Constants.FIELD_MAX_X - 1.0)) /\
    (y' <> y ->
     (y < Constants.FIELD_MIN_Y + 1.0 /\ dy < 0 /\ y' = Constants.FIELD_MIN_Y + 1.0) \/
     (y > Constants.FIELD_MAX_Y - 1.0 /\ dy > 0 /\ y' = Constants.FIELD_MAX_Y - 1.0)).
Proof.
  destruct (task_reset_returns BALL_X BALL_Y BALL_DX BALL_DY Hdistinct self
              HX HY HDX HDY) as (s' & Hret & _ & Ex & Ey & _).
  exists (Collect.set_state s' self). split; [exact Hret|].
  cbn zeta. cbn [Collect.state Collect.set_state].
  pose proof (axis_reset_slows _ _ (nth BALL_X (Collect.state self) 0)
                (nth BALL_DX (Collect.state self) 0) field_gap_x) as Sx.
  pose proof (axis_reset_slows _ _ (nth BALL_Y (Collect.state self) 0)
                (nth BALL_DY (Collect.state self) 0) field_gap_y) as Sy.
  pose proof (axis_reset_bounds _ _ (nth BALL_X (Collect.state self) 0)
                (nth BALL_DX (Collect.state self) 0) field_gap_x) as Bx.
  pose proof (axis_reset_bounds _ _ (nth BALL_Y (Collect.state self) 0)
                (nth BALL_DY (Collect.state self) 0) field_gap_y) as By.
  rewrite <- Ex in Sx, Bx. rewrite <- Ey in Sy, By.
  cbn [fst snd] in Sx, Sy, Bx, By.
  destruct Sx as (Sx1 & Sx2 & Sx3 & Sx4). destruct Sy as (Sy1 & Sy2 & Sy3 & Sy4).
  destruct Bx as (_ & Bx1 & Bx2). destruct By as (_ & By1 & By2).
  repeat split; try assumption.
  - intros Hne. destruct (Sx4 Hne) as [[H1 H2]|[H1 H2]].
    + left. repeat split; try assumption. apply Bx1; lra.
    + right. repeat split; try assumption. apply Bx2; lra.
  - intros Hne. destruct (Sy4 Hne) as [[H1 H2]|[H1 H2]].
    + left. repeat split; try assumption. apply By1; lra.
    + right. repeat split; try assumption. apply By2; lra.
Qed.

Lemma task_reset_only_slows_witness :
  exists self',
    Collect.task_reset 7 8 9 10 (collect_env_with_ball (-1.5) 0 (-2) 0) = Ok self' /\
    Rabs (nth 9 (Collect.state self') 0) <= Rabs (-2) /\
    0 <= -2 * nth 9 (Collect.state self') 0.
Proof.
  destruct (task_reset_only_slows 7 8 9 10
              (collect_env_with_ball (-1.5) 0 (-2) 0) ball_indices_distinct)
    as (self' & Hret & H1 & H2 & _); try (cbn; lia).
  exists self'. split; [exact Hret|]. split; [exact H1|exact H2].
Defined.

(** ** Ball friction at every speed *)

Lemma vnorm_sq (v : Vec2) : vnorm v ^ 2 = vx v ^ 2 + vy v ^ 2.
Proof. unfold vnorm. apply pow2_sqrt. nra. Qed.

Lemma vdot_vscale (c : R) (v : Vec2) : vdot (vscale c v) v = c * vnorm v ^ 2.
Proof. rewrite vnorm_sq. unfold vdot, vscale. cbn [vx vy]. ring. Qed.

(** The friction force is a non-positive multiple of the velocity. *)
Lemma ball_friction_factor (b : Box2D.Body) :
  0 <= Box2D.mass b ->
  exists c,
    RoboCup.ball_friction b = Ok (vscale (- c) (Box2D.linearVelocity b)) /\
    0 <= c /\
    c * vnorm (Box2D.linearVelocity b) =
    Box2D.mass b * Rmin (5 * vnorm (Box2D.linearVelocity b)) 0.5.
Proof.
  intros Hm. rewrite ball_friction_returns.
  pose proof (sqrt_pos (vx (Box2D.linearVelocity b) ^ 2 +
                        vy (Box2D.linearVelocity b) ^ 2)) as Hs.
  fold (vnorm (Box2D.linearVelocity b)) in Hs.
  destruct (Rgtb (vnorm (Box2D.linearVelocity b)) 0.1) eqn:E.
  - apply Rgtb_true in E.
    exists (Box2D.mass b * 0.5 / vnorm (Box2D.linearVelocity b)).
    split; [|split].
    + do 2 f_equal. decimals. field. lra.
    + apply Rmult_le_pos; [lra|]. apply Rlt_le, Rinv_0_lt_compat. lra.
    + rewrite Rmin_right by lra. decimals. field. lra.
  - apply Rgtb_false in E.
    exists (Box2D.mass b * 5). split; [|split].
    + reflexivity.
    + lra.
    + rewrite Rmin_left by lra. ring.
Qed.

(** [X12]: at every speed [s] the friction force that [_applyBallFriction]
    applies to a ball of mass [m >= 0] has magnitude [m * min (5 * s) 0.5]:
    it grows linearly up to speed 0.1, is continuous there, and never
    exceeds [m * 0.5]. *)
Theorem friction_magnitude_at_every_speed
  (w : Box2D.World) (Hmass : 0 <= Box2D.mass (Box2D.ball w)) :
  let m := Box2D.mass (Box2D.ball w) in
  let s := vnorm (Box2D.linearVelocity (Box2D.ball w)) in
  exists f,
    RoboCup._applyBallFriction w = Ok (friction_applied f w) /\
    vnorm f = m * Rmin (5 * s) 0.5 /\
    vnorm f <= m * 0.5.
Proof.
  intros m s.
  destruct (ball_friction_factor (Box2D.ball w) Hmass) as (c & Hf & Hc & Hn).
  exists (vscale (- c) (Box2D.linearVelocity (Box2D.ball w))).
  split; [|split].
  - unfold RoboCup._applyBallFriction. rewrite Hf. reflexivity.
  - rewrite vnorm_vscale, Rabs_Ropp, Rabs_pos_eq by exact Hc. exact Hn.
  - rewrite vnorm_vscale, Rabs_Ropp, Rabs_pos_eq by exact Hc.
    unfold m, s. rewrite Hn.
    apply Rmult_le_compat_l; [exact Hmass|]. apply Rmin_r.
Qed.

Lemma friction_magnitude_at_every_speed_witness :
  exists f,
    RoboCup._applyBallFriction (world_with_ball 1 3 4) =
    Ok (friction_applied f (world_with_ball 1 3 4)) /\
    vnorm f = 1 * Rmin (5 * vnorm (mkVec2 3 4)) 0.5 /\
    vnorm f <= 1 * 0.5.
Proof.
  apply (friction_magnitude_at_every_speed (world_with_ball 1 3 4)).
  simpl. lra.
Defined.

(** [X13]: the friction force points exactly against the velocity: its
    scalar product with the velocity is minus the product of the two
    magnitudes, so friction never feeds energy into the ball. *)
Theorem friction_opposes_velocity
  (w : Box2D.World) (Hmass : 0 <= Box2D.mass (Box2D.ball w)) :
  let v := Box2D.linearVelocity (Box2D.ball w) in
  exists f,
    RoboCup._applyBallFriction w = Ok (friction_applied f w) /\
    vdot f v = - (vnorm f * vnorm v) /\
    vdot f v <= 0.
Proof.
  intros v.
  destruct (ball_friction_factor (Box2D.ball w) Hmass) as (c & Hf & Hc & _).
  exists (vscale (- c) v).
  pose proof (sqrt_pos (vx v ^ 2 + vy v ^ 2)) as Hs. fold (vnorm v) in Hs.
  split; [|split].
  - unfold RoboCup._applyBallFriction. rewrite Hf. reflexivity.
  - rewrite vdot_vscale, vnorm_vscale, Rabs_Ropp, Rabs_pos_eq by exact Hc. ring.
  - rewrite vdot_vscale. nra.
Qed.

Lemma friction_opposes_velocity_witness :
  exists f,
    RoboCup._applyBallFriction (world_with_ball 1 3 4) =
    Ok (friction_applied f (world_with_ball 1 3 4)) /\
    vdot f (mkVec2 3 4) = - (vnorm f * vnorm (mkVec2 3 4)) /\
    vdot f (mkVec2 3 4) <= 0.
Proof.
  apply (friction_opposes_velocity (world_with_ball 1 3 4)).
  simpl. lra.
Defined.

(** ** The contact listener *)

Section ListenerMore.
Import Box2D RoboCup.

(** [X14]: the order of the two fixtures in a contact does not matter to
    [BeginContact]. *)
Theorem BeginContact_fixture_order (c : Contact) (g : Globals) :
  BeginContact (swap_fixtures c) g = BeginContact c g.
Proof.
  unfold BeginContact, swap_fixtures.
  destruct c as [t [ba ua] [bb ub] pts].
  cbn [touching fixtureA fixtureB body userData worldManifold_points].
  destruct t; [|reflexivity].
  destruct ba, bb; cbn; try reflexivity.
Qed.

Lemma idle_not_kicker (c : Contact) :
  idle_contact c -> kicker_ball_contact c = false.
Proof.
  unfold idle_contact, kicker_ball_contact.
  destruct c as [t [ba ua] [bb ub] pts].
  cbn [touching fixtureA fixtureB body userData].
  intros H. destruct t; [|reflexivity]. cbn [andb].
  destruct ba, bb, ua, ub; cbn in *; try reflexivity;
    destruct H as [H|[H|[H|[H|[[H1 H2]|[H1 H2]]]]]]; discriminate.
Qed.

(** [X15]: a begin-contact that is not touching, or involves a wall, or
    pairs two bodies of the same kind, or meets the robot's hull instead of
    its kicker, leaves all five globals as they are. *)
Theorem BeginContact_ignores_idle (c : Contact) (g : Globals)
        (Hidle : idle_contact c) :
  BeginContact c g = g.
Proof.
  destruct (BeginContact_cases c g) as [(Hk & _)|(_ & H)].
  - rewrite (idle_not_kicker c Hidle) in Hk. discriminate.
  - exact H.
Qed.

Lemma BeginContact_kicker (c : Contact) (g : Globals) :
  kicker_ball_contact c = true ->
  BeginContact c g =
  mkGlobals true (Some BallBody) (Some RobotBody)
            (Some (fst (worldManifold_points c))) (joint g).
Proof.
  unfold BeginContact, kicker_ball_contact.
  destruct c as [t [ba ua] [bb ub] pts].
  cbn [touching fixtureA fixtureB body userData worldManifold_points].
  destruct t; [|discriminate].
  destruct ba, bb, ua, ub; cbn; intros H; try discriminate; reflexivity.
Qed.

(** A touching contact of the ball with the kicker records the ball as the
    body to hold, the robot as the body that holds, and the first point of
    the world manifold as anchor; it raises the flag and leaves the joint
    handle alone. *)
Lemma BeginContact_records_capture (c : Contact) (g : Globals)
        (Hkick : kicker_ball_contact c = true) :
  capture (BeginContact c g) = true /\
  capture_ball_body (BeginContact c g) = Some BallBody /\
  capture_robot_body (BeginContact c g) = Some RobotBody /\
  capture_anchor (BeginContact c g) = Some (fst (worldManifold_points c)) /\
  joint (BeginContact c g) = joint g.
Proof.
  rewrite (BeginContact_kicker c g Hkick). repeat split.
Qed.

End ListenerMore.

Lemma BeginContact_ignores_idle_witness :
  RoboCup.BeginContact wall_contact RoboCup.globals0 = RoboCup.globals0 /\
  RoboCup.BeginContact hull_contact RoboCup.globals0 = RoboCup.globals0.
Proof.
  split.
  - apply (BeginContact_ignores_idle wall_contact RoboCup.globals0).
    right. right. left. reflexivity.
  - apply (BeginContact_ignores_idle hull_contact RoboCup.globals0).
    right. right. right. right. left. split; reflexivity.
Defined.

Lemma BeginContact_records_capture_witness :
  RoboCup.capture (RoboCup.BeginContact early_kicker_contact RoboCup.globals0) = true /\
  RoboCup.capture_ball_body (RoboCup.BeginContact early_kicker_contact RoboCup.globals0) =
  Some Box2D.BallBody /\
  RoboCup.capture_robot_body (RoboCup.BeginContact early_kicker_contact RoboCup.globals0) =
  Some Box2D.RobotBody /\
  RoboCup.capture_anchor (RoboCup.BeginContact early_kicker_contact RoboCup.globals0) =
  Some (mkVec2 0.3 0) /\
  RoboCup.joint (RoboCup.BeginContact early_kicker_contact RoboCup.globals0) = None.
Proof.
  apply (BeginContact_records_capture early_kicker_contact RoboCup.globals0).
  reflexivity.
Defined.

(** ** [step], [shoot], [seed] and [reset] together *)

Section EnvironmentMore.
Import Box2D RoboCup.

Variable Rng : Type.
Variable seeding_np_random : option Z -> Rng * Z.
Variable uniform : R -> R -> Rng -> R * Rng.
Variable randn : Rng -> R * Rng.
Variable ball_massData : R * Vec2.
Variable robot_massData : R * Vec2.
Variable world_Step : World -> World * list Contact.

Local Abbreviation step := (step world_Step).
Local Abbreviation seed := (seed seeding_np_random).
Local Abbreviation reset := (reset uniform randn ball_massData robot_massData).
Local Abbreviation run :=
  (run uniform randn ball_massData robot_massData world_Step).

Lemma deliver_app (cs1 cs2 : list Contact) (g : Globals) :
  deliver (cs1 ++ cs2) g = deliver cs2 (deliver cs1 g).
Proof. unfold deliver. apply fold_left_app. Qed.

Lemma no_kicker_filtered (cs : list Contact) :
  existsb kicker_ball_contact cs = false ->
  forallb (fun c => negb (kicker_ball_contact c)) cs = true.
Proof.
  induction cs as [|c cs IH]; cbn.
  - reflexivity.
  - rewrite orb_false_iff. intros [-> H]. cbn. apply IH, H.
Qed.

(** [X16]: when a tick delivers several contacts, the weld joint that
    [step] creates is the one of the last contact of the ball with the
    kicker: it welds the robot to the ball at the first manifold point of
    that contact, under the next handle of the world, which the environment
    then holds; the machine is [Captured]. *)
Theorem step_welds_last_kicker_contact
  (action : option (list R)) (self : Env Rng)
  (before after : list Contact) (c : Contact)
  (Htick : snd (world_Step (world self)) = before ++ c :: after)
  (Hkick : kicker_ball_contact c = true)
  (Hlast : existsb kicker_ball_contact after = false) :
  let w1 := fst (world_Step (world self)) in
  exists self' obs,
    step action self = Ok (self', obs) /\
    joints (world self') =
    joints w1 ++
    [(next_joint w1,
      mkWeldJointDef (Some RobotBody) (Some BallBody)
                     (Some (fst (worldManifold_points c))))] /\
    joint (globals self') = Some (next_joint w1) /\
    capture_state (globals self') = Captured.
Proof.
  intros w1.
  destruct (step_returns Rng world_Step action self) as (f & _ & Hstep).
  do 2 eexists. split; [exact Hstep|].
  cbn zeta. cbn [world globals].
  assert (Hg : deliver (snd (world_Step (world self))) (globals self) =
               mkGlobals true (Some BallBody) (Some RobotBody)
                         (Some (fst (worldManifold_points c)))
                         (joint (globals self))).
  { rewrite Htick, deliver_app. cbn [deliver fold_left].
    fold (deliver after).
    rewrite (deliver_filtered after) by (apply no_kicker_filtered, Hlast).
    rewrite (BeginContact_kicker c _ Hkick), deliver_joint. reflexivity. }
  rewrite Hg. unfold weld_pending.
  cbn [capture fst snd CreateJoint joints next_joint capture_robot_body
       capture_ball_body capture_anchor joint].
  repeat split.
Qed.

(** The bodies on record whenever the flag is up. *)
Lemma deliver_records_bodies (cs : list Contact) (g : Globals) :
  capture g = false ->
  capture (deliver cs g) = true ->
  capture_robot_body (deliver cs g) = Some RobotBody /\
  capture_ball_body (deliver cs g) = Some BallBody.
Proof.
  intros Hdown.
  assert (H : forall g0,
             (capture g0 = true ->
              capture_robot_body g0 = Some RobotBody /\
              capture_ball_body g0 = Some BallBody) ->
             capture (deliver cs g0) = true ->
             capture_robot_body (deliver cs g0) = Some RobotBody /\
             capture_ball_body (deliver cs g0) = Some BallBody).
  { induction cs as [|c cs IH]; intros g0 Hg0; cbn [deliver fold_left].
    - exact Hg0.
    - apply IH.
      destruct (BeginContact_cases c g0) as [(Hk & _)|(_ & ->)].
      + rewrite (BeginContact_kicker c g0 Hk). cbn. auto.
      + exact Hg0. }
  apply H. rewrite Hdown. discriminate.
Qed.

Lemma call_welds_robot_to_ball (c : Call) (self self' : Env Rng) :
  preserves_joints world_Step ->
  capture (globals self) = false ->
  Forall welds_robot_to_ball (joints (world self)) ->
  call uniform randn ball_massData robot_massData world_Step c self = Ok self' ->
  Forall welds_robot_to_ball (joints (world self')).
Proof.
  intros Hpres Hdown Hall. destruct c as [a| |]; cbn [call].
  - destruct (step_returns Rng world_Step a self) as (f & _ & ->). cbn [bind].
    intros [= <-]. cbn [world].
    rewrite weld_pending_joints, friction_applied_joints, Hpres.
    apply Forall_app. split; [exact Hall|].
    destruct (capture (deliver _ _)) eqn:E; [|constructor].
    constructor; [|constructor].
    destruct (deliver_records_bodies _ _ Hdown E) as [Hr Hb].
    split; cbn; assumption.
  - destruct (joint (globals self)) as [h|] eqn:Eh.
    + destruct (has_joint h (world self)) eqn:El.
      * rewrite (shoot_held Rng self h Eh El). intros [= <-]. cbn [world joints].
        apply Forall_forall. intros jd Hin. apply filter_In in Hin.
        destruct Hin as [Hin _]. revert jd Hin. apply Forall_forall. exact Hall.
      * rewrite (shoot_stale Rng self h Eh El). discriminate.
    + rewrite (shoot_none Rng self Eh). intros [= <-]. exact Hall.
  - intros [= <-].
    rewrite (proj2 (reset_keeps_globals Rng uniform randn ball_massData
                      robot_massData self)).
    constructor.
Qed.

(** [X17]: every joint the environment ever creates welds the robot (body
    A) to the ball (body B): if the engine leaves the joints alone, this
    holds of the world after any sequence of [step], [shoot] and [reset]
    from a world of which it holds. *)
Theorem joints_weld_robot_to_ball
  (env0 self : Env Rng) (cs : list Call)
  (Hpres : preserves_joints world_Step)
  (Hdown : capture (globals env0) = false)
  (Hinit : Forall welds_robot_to_ball (joints (world env0)))
  (Hrun : run cs env0 = Ok self) :
  Forall welds_robot_to_ball (joints (world self)).
Proof.
  revert env0 Hdown Hinit Hrun.
  induction cs as [|c cs IH]; intros env0 Hdown Hinit; cbn [RoboCup.run].
  - intros [= <-]. exact Hinit.
  - destruct (call _ _ _ _ _ c env0) as [env1|e] eqn:E; cbn [bind]; [|discriminate].
    apply IH.
    + eapply call_capture_down; eassumption.
    + eapply call_welds_robot_to_ball; eassumption.
Qed.

(** [X18]: a second [shoot] right after a [shoot] that returned changes
    nothing: the first one has cleared the handle. *)
Theorem shoot_twice_is_shoot_once
  (self self' : Env Rng) (Hshoot : RoboCup.shoot self = Ok self') :
  RoboCup.shoot self' = Ok self' /\ joint (globals self') = None.
Proof.
  destruct (shoot_globals Rng self self' Hshoot) as [_ Hj].
  split; [apply (shoot_none Rng self' Hj)|exact Hj].
Qed.

(** [X19]: [reset] does not release a capture.  It builds a world without
    joints but leaves the five globals untouched, so the capture machine
    reads as before; with a handle held from before the [reset], [shoot]
    hands the engine a joint that the world no longer has and fails. *)
Theorem reset_leaves_capture_machine (self : Env Rng) :
  globals (reset self) = globals self /\
  capture_state (globals (reset self)) = capture_state (globals self) /\
  joints (world (reset self)) = [] /\
  (forall j, joint (globals self) = Some j ->
             RoboCup.shoot (reset self) = Raise EngineError).
Proof.
  destruct (reset_keeps_globals Rng uniform randn ball_massData robot_massData self)
    as [Hg Hw].
  repeat split.
  - exact Hg.
  - rewrite Hg. reflexivity.
  - exact Hw.
  - intros j Hj. apply (shoot_stale Rng (reset self) j).
    + rewrite Hg. exact Hj.
    + unfold has_joint. rewrite Hw. reflexivity.
Qed.

(** [X30]: [shoot] by the handle held, in an environment reached by any
    sequence of calls from one whose capture flag is down.  When the global
    [joint] holds a handle and the world holds that joint, [shoot] destroys
    the joint, hands the ball the force [(0.1 * cos h, 0.1 * sin h)] for the
    robot's heading [h], a force of magnitude 0.1, at the robot's centre,
    clears the handle and leaves the capture machine [Free]; when no handle
    is held, [shoot] returns without an error and changes nothing. *)
Theorem shoot_releases_or_nothing
  (env0 self : Env Rng) (cs : list Call)
  (Hdown : capture (globals env0) = false)
  (Hrun : run cs env0 = Ok self) :
  (forall j,
     joint (globals self) = Some j -> has_joint j (world self) = true ->
     let h := angle (robot (world self)) in
     let f := mkVec2 (0.1 * cos h) (0.1 * sin h) in
     exists self',
       RoboCup.shoot self = Ok self' /\
       has_joint j (world self') = false /\
       joints (world self') =
       filter (fun jd => negb (Nat.eqb (fst jd) j)) (joints (world self)) /\
       applied (ball (world self')) =
       mkApplied f (worldCenter (robot (world self))) true ::
       applied (ball (world self)) /\
       vnorm f = 0.1 /\
       robot (world self') = robot (world self) /\
       joint (globals self') = None /\
       capture_state (globals self') = Free) /\
  (joint (globals self) = None -> RoboCup.shoot self = Ok self).
Proof.
  pose proof (run_capture_down Rng uniform randn ball_massData robot_massData
                world_Step cs env0 self Hdown Hrun) as Hc.
  split.
  - intros j Hj Hlive h f.
    eexists. split; [apply (shoot_held Rng self j Hj Hlive)|].
    unfold ApplyForce.
    cbn [world globals ball robot joints applied joint capture].
    repeat split.
    + unfold has_joint. cbn [joints]. apply filter_other_joints.
    + apply shoot_force_magnitude.
    + unfold capture_state. cbn [capture joint]. rewrite Hc. reflexivity.
  - apply shoot_none.
Qed.

End EnvironmentMore.

Section ResetMore.
Import Box2D RoboCup.

Variable Rng : Type.
Variable seeding_np_random : option Z -> Rng * Z.
Variable uniform : R -> R -> Rng -> R * Rng.
Variable randn : Rng -> R * Rng.
Variable ball_massData : R * Vec2.
Variable robot_massData : R * Vec2.
Variable world_Step : World -> World * list Contact.

Local Abbreviation step := (step world_Step).
Local Abbreviation seed := (seed seeding_np_random).
Local Abbreviation reset := (reset uniform randn ball_massData robot_massData).
Local Abbreviation sample := (observation_space_sample Rng uniform randn).

(** The bodies that [reset] creates carry the sampled state. *)
Lemma reset_gather (self : Env Rng) :
  state (reset self) = Some (gather (world (reset self))).
Proof.
  unfold RoboCup.reset.
  destruct (sample (spaces_random self) (numpy_global self))
    as [[[[[rx ry] rh] [[rvx rvy] rvh]] [[bx by_] [bvx bvy]]] [sp np]].
  reflexivity.
Qed.

(** [X20]: the first [step] after a [reset] returns, as its observation,
    exactly the state that the [reset] sampled and stored, whatever the
    engine does in that tick. *)
Theorem first_step_observes_reset_state
  (action : option (list R)) (self : Env Rng) :
  exists self' st,
    state (reset self) = Some st /\
    st = fst (sample (spaces_random self) (numpy_global self)) /\
    step action (reset self) = Ok (self', (st, 0, false)).
Proof.
  destruct (step_returns Rng world_Step action (reset self)) as (f & _ & Hstep).
  destruct (reset_sampled Rng uniform randn ball_massData robot_massData self)
    as (Hst & _).
  pose proof (reset_gather self) as Hg.
  do 2 eexists. split; [exact Hg|]. split.
  - rewrite Hst in Hg. congruence.
  - exact Hstep.
Qed.

(** [X21]: [seed] and [reset] do not interact: seeding before or after a
    [reset] gives the same environment, and the same list as result. *)
Theorem seed_and_reset_commute (s : option Z) (self : Env Rng) :
  fst (seed s (reset self)) = reset (fst (seed s self)) /\
  snd (seed s (reset self)) = snd (seed s self).
Proof.
  unfold RoboCup.seed, RoboCup.reset.
  destruct (seeding_np_random s) as [rng s'].
  cbn [fst snd world state np_random globals numpy_global spaces_random].
  destruct (sample (spaces_random self) (numpy_global self))
    as [[[[[rx ry] rh] [[rvx rvy] rvh]] [[bx by_] [bvx bvy]]] [sp np]].
  split; reflexivity.
Qed.

Lemma sample_positions (sp np : Rng) :
  draws_within Rng uniform ->
  let st := fst (sample sp np) in
  let '((rx, ry, rh), _) := fst st in
  let '((bx, by_), _) := snd st in
  FIELD_MIN_X <= rx <= FIELD_MAX_X /\ FIELD_MIN_Y <= ry <= FIELD_MAX_Y /\
  0 <= rh <= PI * 2 /\
  FIELD_MIN_X <= bx <= FIELD_MAX_X /\ FIELD_MIN_Y <= by_ <= FIELD_MAX_Y.
Proof.
  intros Hu.
  assert (Hx : FIELD_MIN_X <= FIELD_MAX_X)
    by (unfold FIELD_MIN_X, FIELD_MAX_X, FIELD_SCALE; lra).
  assert (Hy : FIELD_MIN_Y <= FIELD_MAX_Y)
    by (unfold FIELD_MIN_Y, FIELD_MAX_Y, FIELD_SCALE; lra).
  assert (Hh : 0 <= PI * 2) by (pose proof PI_RGT_0; lra).
  unfold observation_space_sample, Box3_sample, Box2_sample,
    VelocitySpace3_sample, VelocitySpace2_sample.
  pose proof (Hu FIELD_MIN_X FIELD_MAX_X sp Hx) as H1.
  destruct (uniform FIELD_MIN_X FIELD_MAX_X sp) as [x0 r1].
  pose proof (Hu FIELD_MIN_Y FIELD_MAX_Y r1 Hy) as H2.
  destruct (uniform FIELD_MIN_Y FIELD_MAX_Y r1) as [x1 r2].
  pose proof (Hu 0 (PI * 2) r2 Hh) as H3.
  destruct (uniform 0 (PI * 2) r2) as [x2 r3].
  destruct (randn np) as [v0 n1]. destruct (randn n1) as [v1 n2].
  destruct (randn n2) as [v2 n3].
  pose proof (Hu FIELD_MIN_X FIELD_MAX_X r3 Hx) as H4.
  destruct (uniform FIELD_MIN_X FIELD_MAX_X r3) as [x3 r4].
  pose proof (Hu FIELD_MIN_Y FIELD_MAX_Y r4 Hy) as H5.
  destruct (uniform FIELD_MIN_Y FIELD_MAX_Y r4) as [x4 r5].
  destruct (randn n3) as [v3 n4]. destruct (randn n4) as [v4 n5].
  cbn [fst snd] in *. tauto.
Qed.

(** [X22]: with a generator whose uniform draw lies between its bounds,
    [reset] puts the robot and the ball inside the field, hence strictly
    inside the four walls, with the robot's heading between 0 and [2 * PI];
    both bodies start without any force applied and the world without a
    joint. *)
Theorem reset_inside_walls (self : Env Rng)
        (Huniform : draws_within Rng uniform) :
  let w := world (reset self) in
  (FIELD_MIN_X <= vx (position (robot w)) <= FIELD_MAX_X /\
   FIELD_MIN_Y <= vy (position (robot w)) <= FIELD_MAX_Y /\
   FIELD_MIN_X <= vx (position (ball w)) <= FIELD_MAX_X /\
   FIELD_MIN_Y <= vy (position (ball w)) <= FIELD_MAX_Y) /\
  (VIEW_MIN_X < vx (position (robot w)) < VIEW_MAX_X /\
   VIEW_MIN_Y < vy (position (robot w)) < VIEW_MAX_Y /\
   VIEW_MIN_X < vx (position (ball w)) < VIEW_MAX_X /\
   VIEW_MIN_Y < vy (position (ball w)) < VIEW_MAX_Y) /\
  0 <= angle (robot w) <= PI * 2 /\
  applied (robot w) = [] /\ applied (ball w) = [] /\ joints w = [].
Proof.
  pose proof (sample_positions (spaces_random self) (numpy_global self) Huniform)
    as H.
  unfold RoboCup.reset.
  destruct (sample (spaces_random self) (numpy_global self))
    as [[[[[rx ry] rh] [[rvx rvy] rvh]] [[bx by_] [bvx bvy]]] [sp np]].
  cbn in H |- *.
  unfold VIEW_MIN_X, VIEW_MAX_X, VIEW_MIN_Y, VIEW_MAX_Y.
  unfold FIELD_MIN_X, FIELD_MAX_X, FIELD_MIN_Y, FIELD_MAX_Y, FIELD_SCALE in *.
  repeat split; try reflexivity; lra.
Qed.

(** [X23]: apart from what the engine does in its tick, a call of [step]
    hands the ball exactly one force, the friction force, at the ball's
    centre of mass and without waking it, hands the robot none, and moves
    neither body. *)
Theorem step_applies_friction_once
  (action : option (list R)) (self : Env Rng) :
  let w1 := fst (world_Step (world self)) in
  exists self' obs f,
    step action self = Ok (self', obs) /\
    ball_friction (ball w1) = Ok f /\
    applied (ball (world self')) =
    mkApplied f (worldCenter (ball w1)) false :: applied (ball w1) /\
    robot (world self') = robot w1 /\
    gather (world self') = gather w1.
Proof.
  intros w1.
  destruct (step_returns Rng world_Step action self) as (f & Hf & Hstep).
  do 2 eexists. exists f. split; [exact Hstep|]. split; [exact Hf|].
  cbn zeta. cbn [world].
  destruct (weld_pending_bodies
              (friction_applied f (fst (world_Step (world self))))
              (deliver (snd (world_Step (world self))) (globals self)))
    as [Hb Hr].
  unfold gather. rewrite Hb, Hr. repeat split.
Qed.

End ResetMore.

Section EnvironmentMoreExamples.
Import Box2D RoboCup.

Lemma step_welds_last_kicker_contact_witness :
  exists self' obs,
    step busy_tick None free_env = Ok (self', obs) /\
    joints (world self') =
    [(0%nat, mkWeldJointDef (Some RobotBody) (Some BallBody) (Some (mkVec2 0.4 0)))] /\
    joint (globals self') = Some 0%nat /\
    capture_state (globals self') = Captured.
Proof.
  apply (step_welds_last_kicker_contact Z busy_tick None free_env
           [wall_contact; early_kicker_contact] [hull_contact] kicker_contact).
  - reflexivity.
  - reflexivity.
  - reflexivity.
Defined.

Lemma joints_weld_robot_to_ball_witness :
  exists self,
    run toy_uniform toy_randn (1, vzero) (1, vzero) kick_when_free
        [CallStep None; CallShoot; CallStep None] free_env = Ok self /\
    Forall welds_robot_to_ball (joints (world self)).
Proof.
  destruct (run_holds_live_joint Z toy_uniform toy_randn (1, vzero) (1, vzero)
              kick_when_free [CallStep None; CallShoot; CallStep None] free_env
              kick_when_free_preserves_joints
              kick_when_free_filters_connected
              free_env_holds_live_joint) as (self & Hrun & _).
  - repeat constructor; discriminate.
  - exists self. split; [exact Hrun|].
    apply (joints_weld_robot_to_ball Z toy_uniform toy_randn (1, vzero) (1, vzero)
             kick_when_free free_env self
             [CallStep None; CallShoot; CallStep None]).
    + exact kick_when_free_preserves_joints.
    + reflexivity.
    + constructor.
    + exact Hrun.
Defined.

Lemma shoot_twice_is_shoot_once_witness :
  exists self',
    shoot captured_env = Ok self' /\
    shoot self' = Ok self' /\ joint (globals self') = None.
Proof.
  eexists. split.
  - apply (shoot_held Z captured_env 0%nat); reflexivity.
  - apply (shoot_twice_is_shoot_once Z captured_env).
    apply (shoot_held Z captured_env 0%nat); reflexivity.
Defined.

Lemma mid_uniform_draws_within : draws_within Z mid_uniform.
Proof. intros lo hi r H. unfold mid_uniform. cbn [fst]. lra. Qed.

Lemma reset_inside_walls_witness :
  let w := world (reset mid_uniform toy_randn (1, vzero) (1, vzero) free_env) in
  (FIELD_MIN_X <= vx (position (robot w)) <= FIELD_MAX_X /\
   FIELD_MIN_Y <= vy (position (robot w)) <= FIELD_MAX_Y /\
   FIELD_MIN_X <= vx (position (ball w)) <= FIELD_MAX_X /\
   FIELD_MIN_Y <= vy (position (ball w)) <= FIELD_MAX_Y) /\
  (VIEW_MIN_X < vx (position (robot w)) < VIEW_MAX_X /\
   VIEW_MIN_Y < vy (position (robot w)) < VIEW_MAX_Y /\
   VIEW_MIN_X < vx (position (ball w)) < VIEW_MAX_X /\
   VIEW_MIN_Y < vy (position (ball w)) < VIEW_MAX_Y) /\
  0 <= angle (robot w) <= PI * 2 /\
  applied (robot w) = [] /\ applied (ball w) = [] /\ joints w = [].
Proof.
  apply (reset_inside_walls Z mid_uniform toy_randn (1, vzero) (1, vzero) free_env).
  exact mid_uniform_draws_within.
Defined.

Lemma shoot_releases_or_nothing_witness :
  exists self',
    shoot captured_env = Ok self' /\
    has_joint 0 (world self') = false /\
    joints (world self') = [] /\
    applied (ball (world self')) =
    [mkApplied (mkVec2 (0.1 * cos PI) (0.1 * sin PI))
               (worldCenter (robot (world captured_env))) true] /\
    vnorm (mkVec2 (0.1 * cos PI) (0.1 * sin PI)) = 0.1 /\
    robot (world self') = robot (world captured_env) /\
    joint (globals self') = None /\
    capture_state (globals self') = Free.
Proof.
  apply (proj1 (shoot_releases_or_nothing Z toy_uniform toy_randn (1, vzero) (1, vzero)
                  kick_when_free captured_env captured_env []
                  eq_refl eq_refl) 0%nat eq_refl eq_refl).
Defined.

End EnvironmentMoreExamples.

(** ** The keyboard handlers *)

Section KeyboardFacts.
Import Keyboard.

Lemma handle_in_range (e : KeyEvent) (s : Controls) :
  force_in_range (force s) ->
  exists s',
    handle e s = Ok s' /\
    force_in_range (force s') /\
    restart s' = restart s || is_press_space e.
Proof.
  intros (fx & fy & ft & Hf & Hx & Hy & Ht).
  destruct s as [r f sh]. cbn [force restart] in *. subst f.
  unfold force_in_range.
  destruct e as [k|k]; destruct k;
    cbn [handle key_press key_release key_eqb set_force force restart shoot
         setitem update length Nat.ltb Nat.leb bind is_press_space];
    eexists; (split; [reflexivity|]); cbn [force restart];
    (split; [|rewrite ?orb_false_r, ?orb_true_r; reflexivity]);
    do 3 eexists; (split; [reflexivity|]);
    repeat split; try assumption; lra.
Qed.

(** [X24]: whatever keys are pressed and released, in any order, the
    handlers return without an error and [force] stays a list of three
    entries, the first two among -3, 0 and 3 and the third among -0.1, 0 and
    0.1. *)
Theorem keys_keep_force_in_range (es : list KeyEvent) (s : Controls)
        (Hrange : force_in_range (force s)) :
  exists s', handle_all es s = Ok s' /\ force_in_range (force s').
Proof.
  revert s Hrange. induction es as [|e es IH]; intros s Hrange; cbn [handle_all].
  - exists s. split; [reflexivity|exact Hrange].
  - destruct (handle_in_range e s Hrange) as (s1 & -> & H1 & _). cbn [bind].
    apply IH. exact H1.
Qed.

(** [X25]: releasing a key of an axis sets the force of that axis to 0,
    whichever key of the axis was pressed last, so releasing one arrow while
    the opposite arrow is still held stops the robot along that axis; the
    other two entries and [restart] are as before. *)
Theorem key_release_stops_axis (k : Key) (i : nat) (s : Controls)
        (Haxis : axis k = Some i)
        (Hlen : length (force s) = 3%nat) :
  exists s',
    key_release k s = Ok s' /\
    nth i (force s') 0 = 0 /\
    (forall j, j <> i -> nth j (force s') 0 = nth j (force s) 0) /\
    length (force s') = 3%nat /\
    restart s' = restart s /\ shoot s' = shoot s.
Proof.
  destruct s as [r f sh]. cbn [force restart shoot] in *.
  destruct f as [|fx [|fy [|ft [|? ?]]]]; try discriminate.
  destruct k; try discriminate; injection Haxis as <-;
    cbn [key_release key_eqb set_force force restart shoot
         setitem update length Nat.ltb Nat.leb bind];
    eexists; (split; [reflexivity|]); cbn [force restart shoot nth];
    repeat split;
    intros [|[|[|j]]] Hj; try reflexivity; congruence.
Qed.

(** [X26]: only pressing SPACE asks for a restart, and no key event takes
    the request back: after any sequence of key events [restart] is true
    exactly when it was true before or SPACE was pressed in between. *)
Theorem restart_only_by_space (es : list KeyEvent) (s : Controls)
        (Hrange : force_in_range (force s)) :
  exists s',
    handle_all es s = Ok s' /\
    restart s' = restart s || existsb is_press_space es.
Proof.
  revert s Hrange. induction es as [|e es IH]; intros s Hrange;
    cbn [handle_all existsb].
  - exists s. split; [reflexivity|]. rewrite orb_false_r. reflexivity.
  - destruct (handle_in_range e s Hrange) as (s1 & -> & H1 & Hr). cbn [bind].
    destruct (IH s1 H1) as (s' & Hs' & Hr').
    exists s'. split; [exact Hs'|].
    rewrite Hr', Hr, orb_assoc. reflexivity.
Qed.

Lemma initial_in_range : force_in_range (force initial).
Proof.
  exists 0, 0, 0. repeat split; try reflexivity; right; left; reflexivity.
Qed.

Lemma keys_keep_force_in_range_witness :
  exists s',
    handle_all [Press UP; Press LEFT; Press DOWN; Release UP; Press A; Press SPACE]
               initial = Ok s' /\
    force_in_range (force s').
Proof.
  apply (keys_keep_force_in_range
           [Press UP; Press LEFT; Press DOWN; Release UP; Press A; Press SPACE]
           initial).
  exact initial_in_range.
Defined.

Lemma key_release_stops_axis_witness :
  exists s',
    key_release UP (mkControls false [0; -3; 0] false) = Ok s' /\
    nth 1 (force s') 0 = 0.
Proof.
  destruct (key_release_stops_axis UP 1 (mkControls false [0; -3; 0] false))
    as (s' & H & H0 & _).
  - reflexivity.
  - reflexivity.
  - exists s'. split; assumption.
Defined.

Lemma restart_only_by_space_witness :
  exists s',
    handle_all [Press UP; Press SPACE; Release SPACE; Release UP] initial = Ok s' /\
    restart s' = true.
Proof.
  destruct (restart_only_by_space
              [Press UP; Press SPACE; Release SPACE; Release UP] initial
              initial_in_range) as (s' & H & Hr).
  exists s'. split; [exact H|exact Hr].
Defined.

End KeyboardFacts.

(** ** [eval_policy] *)

Section EvalPolicyFacts.
Import TrainTD3.

Variables EnvT Obs Act : Type.
Variable gym_make : EnvT.
Variable env_seed : Z -> EnvT -> EnvT.
Variable env_reset : R -> EnvT -> Obs * EnvT.
Variable env_step : Act -> EnvT -> (Obs * R * bool) * EnvT.
Variable select_action : Obs -> Act.

Local Abbreviation episode := (episode EnvT Obs Act env_step select_action).
Local Abbreviation episodes :=
  (episodes EnvT Obs Act env_reset env_step select_action).
Local Abbreviation eval_policy :=
  (eval_policy EnvT Obs Act gym_make env_seed env_reset env_step select_action).

Lemma sum_fold_right (l : list R) : sum l = fold_right Rplus 0 l.
Proof.
  unfold sum. apply fold_symmetric; intros; ring.
Qed.

Lemma sum_between (lo hi : R) (l : list R) :
  (forall r, In r l -> lo <= r <= hi) ->
  lo * INR (length l) <= sum l <= hi * INR (length l).
Proof.
  rewrite sum_fold_right.
  induction l as [|x l IH]; intros H.
  - cbn. lra.
  - change (length (x :: l)) with (S (length l)). rewrite S_INR.
    cbn [fold_right].
    assert (Hx : lo <= x <= hi) by (apply H; left; reflexivity).
    assert (Hl : forall r, In r l -> lo <= r <= hi)
      by (intros r Hr; apply H; right; exact Hr).
    specialize (IH Hl). lra.
Qed.

Lemma episodes_length (fuel n : nat) (scale : R) (env env' : EnvT)
      (acc rewards : list R) :
  episodes fuel n scale env acc = Some (rewards, env') ->
  length rewards = (length acc + n)%nat.
Proof.
  revert env acc. induction n as [|n IH]; intros env acc; cbn [TrainTD3.episodes].
  - intros [= <- _]. lia.
  - destruct (env_reset scale env) as [state env1].
    destruct (episode fuel env1 state 0.0) as [[total env2]|]; [|discriminate].
    intros H. apply IH in H. rewrite length_app in H. cbn in H. lia.
Qed.

(** [X27]: with [eval_episodes] zero or negative, [eval_policy] runs no
    episode and fails with [ZeroDivisionError] on the mean of an empty
    list. *)
Theorem eval_policy_without_episodes
  (fuel : nat) (seed : Z) (scale : R) (eval_episodes : Z)
  (Hnone : (eval_episodes <= 0)%Z) :
  eval_policy fuel seed scale eval_episodes = Some (Raise ZeroDivisionError).
Proof.
  unfold TrainTD3.eval_policy.
  replace (Z.to_nat eval_episodes) with 0%nat by lia.
  reflexivity.
Qed.

(** [X28]: when [eval_policy] returns a value, that value is the mean of
    the totals of exactly [eval_episodes] episodes; it lies between any two
    bounds that hold of every episode's total. *)
Theorem eval_policy_returns_mean
  (fuel : nat) (seed : Z) (scale : R) (eval_episodes : Z) (avg : R)
  (Hret : eval_policy fuel seed scale eval_episodes = Some (Ok avg)) :
  exists rewards env',
    episodes fuel (Z.to_nat eval_episodes) scale
             (env_seed (seed + 100) gym_make) [] = Some (rewards, env') /\
    Z.of_nat (length rewards) = eval_episodes /\
    (0 < eval_episodes)%Z /\
    avg = sum rewards / INR (length rewards) /\
    forall lo hi, (forall r, In r rewards -> lo <= r <= hi) -> lo <= avg <= hi.
Proof.
  unfold TrainTD3.eval_policy in Hret.
  destruct (episodes fuel (Z.to_nat eval_episodes) scale
                     (env_seed (seed + 100) gym_make) [])
    as [[rewards env']|] eqn:E; [|discriminate].
  exists rewards, env'. split; [reflexivity|].
  pose proof (episodes_length _ _ _ _ _ _ _ E) as L. cbn [length] in L.
  unfold mean in Hret.
  destruct (Nat.eqb (length rewards) 0) eqn:E0; [discriminate|].
  apply Nat.eqb_neq in E0. injection Hret as <-.
  assert (Hpos : 0 < INR (length rewards)) by (apply lt_0_INR; lia).
  repeat split; try lia.
  - destruct (sum_between lo hi rewards H) as [H1 _].
    apply Rmult_le_reg_r with (INR (length rewards)); [exact Hpos|].
    unfold Rdiv. rewrite Rmult_assoc, Rinv_l by lra. lra.
  - destruct (sum_between lo hi rewards H) as [_ H2].
    apply Rmult_le_reg_r with (INR (length rewards)); [exact Hpos|].
    unfold Rdiv. rewrite Rmult_assoc, Rinv_l by lra. lra.
Qed.

Lemma episode_endless (fuel : nat) (env : EnvT) (state : Obs) (total : R) :
  (forall a e, snd (fst (env_step a e)) = false) ->
  episode fuel env state total = None.
Proof.
  intros Hnever. revert env state total.
  induction fuel as [|fuel IH]; intros env state total; cbn [TrainTD3.episode].
  - reflexivity.
  - pose proof (Hnever (select_action state) env) as H.
    destruct (env_step (select_action state) env) as [[[state' reward] done] env'].
    cbn in H. subst done. apply IH.
Qed.

(** [X29]: on an environment whose [step] never reports [done],
    [eval_policy] with at least one episode never returns: no amount of
    fuel ends the first episode. *)
Theorem eval_policy_never_returns
  (seed : Z) (scale : R) (eval_episodes : Z)
  (Hnever : forall a e, snd (fst (env_step a e)) = false)
  (Hsome : (0 < eval_episodes)%Z) :
  forall fuel, eval_policy fuel seed scale eval_episodes = None.
Proof.
  intros fuel. unfold TrainTD3.eval_policy.
  destruct (Z.to_nat eval_episodes) as [|n] eqn:E; [lia|].
  cbn [TrainTD3.episodes].
  destruct (env_reset scale _) as [state env1].
  rewrite (episode_endless fuel env1 state 0.0 Hnever). reflexivity.
Qed.

End EvalPolicyFacts.

Lemma eval_policy_without_episodes_witness :
  TrainTD3.eval_policy nat unit unit O (fun _ n => n) restart_steps three_steps
                       (fun _ => tt) 10 1 0 0 =
  Some (Raise ZeroDivisionError).
Proof.
  apply (eval_policy_without_episodes nat unit unit O (fun _ n => n) restart_steps
           three_steps (fun _ => tt) 10 1 0 0).
  lia.
Defined.

Lemma three_steps_eval :
  TrainTD3.eval_policy nat unit unit O (fun _ n => n) restart_steps three_steps
                       (fun _ => tt) 5 1 0 2 =
  Some (Ok ((0 + (0.0 + 1 + 1 + 1) + (0.0 + 1 + 1 + 1)) / INR 2)).
Proof. reflexivity. Qed.

Lemma eval_policy_returns_mean_witness :
  3 <= (0 + (0.0 + 1 + 1 + 1) + (0.0 + 1 + 1 + 1)) / INR 2 <= 3.
Proof.
  destruct (eval_policy_returns_mean nat unit unit O (fun _ n => n) restart_steps
              three_steps (fun _ => tt) 5 1 0 2 _ three_steps_eval)
    as (rewards & env' & E & _ & _ & _ & Hbound).
  apply Hbound.
  cbn in E. injection E as <- _.
  intros r [<-|[<-|[]]]; lra.
Defined.

Lemma eval_policy_never_returns_witness :
  TrainTD3.eval_policy nat unit unit O (fun _ n => n) restart_steps endless_step
                       (fun _ => tt) 1000 1 0 3 = None.
Proof.
  apply (eval_policy_never_returns nat unit unit O (fun _ n => n) restart_steps
           endless_step (fun _ => tt) 1 0 3).
  - intros a e. reflexivity.
  - lia.
Defined.
